(** * NeuralLearn backend: a shallow embedding and its checked properties

    The development follows the Python sources under [src/backend]:
    - [rag_system.py]: indexing, the three-stage query pipeline and its
      fallback;
    - [server.py]: quiz scoring and the progress bookkeeping of the
      [/quiz/submit] and [/progress/update] routes;
    - [knowledge_graph.py]: the knowledge-graph builder;
    - [database.py]: the column defaults of the [Progress] table.

    Third-party collaborators (the hosted model, the embedding service, the
    vector store, the PDF loader, [json.loads], the graph layout) are not
    part of the repository.  They enter the model as fields of an
    environment record, each returning either a value or a raised
    exception, so that every theorem holds for whatever they answer. *)

From Stdlib Require Import QArith Qcanon String Ascii.
From stdpp Require Import base option list strings pretty gmap sorting numbers.

Local Open Scope Z_scope.
Local Open Scope string_scope.
Local Open Scope list_scope.

(** ** Exceptions and results *)

(** The [Exception] subclasses the sources can meet.  [External] stands for
    anything a collaborator raises (network failure, quota, unreadable
    file, ...). *)
Inductive Exn : Type :=
  | KeyError (key : string)
  | TypeError
  | ValueError (msg : string)
  | AttributeError
  | HTTPException (status : Z) (detail : string)
  | External (what : string).

(** A Python call either returns or raises. *)
Inductive result (A : Type) : Type :=
  | Ok (a : A)
  | Raise (e : Exn).
Arguments Ok {A} a.
Arguments Raise {A} e.

Global Instance result_ret : MRet result := λ A a, Ok a.
Global Instance result_bind : MBind result := λ A B k r,
  match r with
  | Ok a => k a
  | Raise e => Raise e
  end.

(** [try: body except Exception: handler]. *)
Definition try_except {A} (body : result A) (handler : Exn → result A) : result A :=
  match body with
  | Ok a => Ok a
  | Raise e => handler e
  end.

Definition returns {A} (r : result A) : Prop := ∃ a, r = Ok a.

(** Run a fallible step over a list, left to right, stopping at the first
    exception (a [for] loop whose body may raise). *)
Fixpoint mapM {A B} (f : A → result B) (l : list A) : result (list B) :=
  match l with
  | [] => Ok []
  | x :: l' => y ← f x; ys ← mapM f l'; Ok (y :: ys)
  end.

(** ** The chunker *)

Module Chunker.
Section Split.
Context {A : Type}.

(** Modelled from the spec: the splitter [RecursiveCharacterTextSplitter]
    is a third-party class that [rag_system.py] only configures
    ([chunk_size=1000], [chunk_overlap=200], [length_function=len]).  Its
    contract is taken from the specification, section 4.1:
    [split(text, chunkSize, overlap)] produces overlapping windows of
    [chunkSize] characters, each window sharing [overlap] characters with
    its predecessor, covering the input with no gaps; the last window may
    be shorter; an input shorter than [chunkSize] yields exactly one
    chunk equal to the input.  [windows] slides a window of [chunkSize]
    characters forward by [chunkSize - overlap] until the window reaches
    the end of the text. *)
Fixpoint windows (chunkSize overlap : nat) (fuel : nat) (t : list A)
  : list (list A) :=
  match fuel with
  | O => [t]
  | S fuel' =>
      if decide (length t ≤ chunkSize)%nat then [t]
      else take chunkSize t
             :: windows chunkSize overlap fuel' (drop (chunkSize - overlap) t)
  end.

Definition split (chunkSize overlap : nat) (t : list A) : list (list A) :=
  windows chunkSize overlap (length t) t.

(** Reassembly as the specification words it: keep the first chunk, drop
    the first [overlap] characters of every later chunk, concatenate. *)
Definition reassemble (overlap : nat) (chunks : list (list A)) : list A :=
  match chunks with
  | [] => []
  | c :: cs => c ++ concat (map (drop overlap) cs)
  end.

(** Adjacent windows share [overlap] characters: the last [overlap]
    characters of a window are the first [overlap] of its successor. *)
Fixpoint overlapping (overlap : nat) (chunks : list (list A)) : Prop :=
  match chunks with
  | c :: ((c' :: _) as cs) =>
      (overlap ≤ length c)%nat
      ∧ drop (length c - overlap) c = take overlap c'
      ∧ overlapping overlap cs
  | _ => True
  end.
End Split.

(** The configuration of [RAGSystem.__init__]. *)
Definition chunk_size : nat := 1000.
Definition chunk_overlap : nat := 200.
Definition text_splitter {A} (t : list A) : list (list A) :=
  split chunk_size chunk_overlap t.

(** The splitter on Python strings. *)
Definition split_text (s : string) : list string :=
  map string_of_list_ascii (text_splitter (list_ascii_of_string s)).
End Chunker.

(** ** Python values *)

(** Values of document metadata and of the arguments of a structured model
    output: [None], booleans, integers and strings. *)
Inductive Scalar : Type :=
  | SNone
  | SBool (b : bool)
  | SInt (z : Z)
  | SStr (s : string).

Global Instance Scalar_eq_dec : EqDecision Scalar.
Proof. solve_decision. Defined.

(** Python's [==] on these values: [True == 1] and [False == 0] hold, values
    of different kinds are otherwise unequal. *)
Definition scalar_eq (a b : Scalar) : bool :=
  match a, b with
  | SNone, SNone => true
  | SBool x, SBool y => bool_decide (x = y)
  | SBool x, SInt z | SInt z, SBool x => bool_decide (z = if x then 1 else 0)
  | SInt x, SInt y => bool_decide (x = y)
  | SStr x, SStr y => bool_decide (x = y)
  | _, _ => false
  end.

(** What an f-string prints for [{v}]. *)
Definition py_str (v : Scalar) : string :=
  match v with
  | SNone => "None"
  | SBool true => "True"
  | SBool false => "False"
  | SInt z => pretty z
  | SStr s => s
  end.

(** [d[key]]: a missing key raises [KeyError]. *)
Definition getitem {V} (d : gmap string V) (key : string) : result V :=
  match d !! key with
  | Some v => Ok v
  | None => Raise (KeyError key)
  end.

(** [sep.join(parts)]. *)
Fixpoint join (sep : string) (parts : list string) : string :=
  match parts with
  | [] => ""
  | [p] => p
  | p :: rest => p +:+ sep +:+ join sep rest
  end.

Definition newline : string := String "010"%char "".

(** ** rag_system.py *)

Module rag_system.

(** [langchain_core.documents.Document]. *)
Record Document : Type := mkDocument {
  page_content : string;
  metadata : gmap string Scalar;
}.

Global Instance Document_eq_dec : EqDecision Document.
Proof. solve_decision. Defined.

(** An embedding vector. *)
Definition Vec : Type := list Z.

(** A stored chunk: the document and the embedding computed when it was
    added. *)
Record Entry : Type := mkEntry {
  entry_doc : Document;
  entry_embedding : Vec;
}.

(** The persisted vector store: collection name to stored chunks, in
    insertion order.  A collection that was never written is empty. *)
Abbreviation Store := (gmap string (list Entry)).

Definition collection (vs : Store) (name : string) : list Entry :=
  default [] (vs !! name).

(** A message sent to the chat model: the system instruction or a
    role-tagged turn handed in by the caller. *)
Inductive Message : Type :=
  | SystemMessage (content : string)
  | Turn (role content : string).

(** The collaborators of [RAGSystem]:
    - [llm_structured] is [self.llm.with_structured_output(schema).invoke],
    - [llm_invoke] is [self.llm.invoke], [llm_ainvoke] is [self.llm.ainvoke]
      (both give [response.content]),
    - [embed_documents] and [embed_query] are the two entry points of
      [self.embeddings],
    - [similarity] is the score the store ranks by,
    - [loader] is [PyPDFLoader(file_path).load()],
    - [splitter] is [self.text_splitter.split_text]. *)
Record Env : Type := mkEnv {
  llm_structured : string → result (gmap string Scalar);
  llm_invoke : list Message → result string;
  llm_ainvoke : string → result string;
  embed_documents : list string → result (list Vec);
  embed_query : Scalar → result Vec;
  similarity : Vec → Vec → Qc;
  loader : string → result (list Document);
  splitter : string → list string;
}.

(** [RAGState]; [context] and [answer] are absent until a node writes
    them. *)
Record RAGState : Type := mkRAGState {
  question : string;
  query : gmap string Scalar;
  context : option (list Document);
  messages : list Message;
  answer : option string;
}.

(** What [query_documents] returns: [{"answer": ..., "sources": [...]}], a
    source being [{"content": ..., "metadata": ...}]. *)
Record Answer : Type := mkAnswer {
  answer_text : string;
  sources : list (string * gmap string Scalar);
}.

Section WithEnv.
Context (env : Env).

(** [f"user_{user_id}_docs"]. *)
Definition collection_name (user_id : Scalar) : string :=
  "user_" +:+ py_str user_id +:+ "_docs".

(** [text_splitter.split_documents]: every page is split on its own and
    each chunk carries a copy of its page's metadata. *)
Definition split_documents (documents : list Document) : list Document :=
  documents ≫= λ d, (λ c, mkDocument c (metadata d)) <$> splitter env (page_content d).

(** The loop [for chunk in chunks: chunk.metadata[...] = ...]. *)
Definition tag_chunk (user_id doc_id : Z) (chunk : Document) : Document :=
  mkDocument (page_content chunk)
    (<["doc_id" := SInt doc_id]> (<["user_id" := SInt user_id]> (metadata chunk))).

(** Modelled from the spec: [Chroma.add_documents] is third-party code.
    After the collaborator contract of section 6 ([Provider.embed],
    [Collection.add]) and section 4.2, the chunk texts are embedded and
    the chunks are appended to the collection [name]; an embedding failure
    is raised before anything is written. *)
Definition add_documents (name : string) (chunks : list Document) (vs : Store)
  : result Store :=
  vecs ← embed_documents env (page_content <$> chunks);
  if decide (length vecs = length chunks)
  then Ok (<[name := collection vs name ++ zip_with mkEntry chunks vecs]> vs)
  else Raise (ValueError "embeddings and documents differ in length").

Definition index_document (file_path : string) (user_id doc_id : Z) (vs : Store)
  : result (nat * Store) :=
  documents ← loader env file_path;
  let chunks := tag_chunk user_id doc_id <$> split_documents documents in
  vs' ← add_documents (collection_name (SInt user_id)) chunks vs;
  Ok (length chunks, vs').

(** [_get_vectorstore]: the collection the name selects. *)
Definition _get_vectorstore (vs : Store) (user_id : Scalar) : list Entry :=
  collection vs (collection_name user_id).

(** A [filter] callback applied to every candidate, in order; it may
    raise. *)
Fixpoint filterM (keep : Document → result bool) (l : list Entry)
  : result (list Entry) :=
  match l with
  | [] => Ok []
  | e :: l' =>
      b ← keep (entry_doc e);
      rest ← filterM keep l';
      Ok (if (b : bool) then e :: rest else rest)
  end.

(** [a] is at least as similar to the query vector as [b]. *)
Definition ranks_before (qv : Vec) (a b : Entry) : Prop :=
  (similarity env qv (entry_embedding b)
   ≤ similarity env qv (entry_embedding a))%Qc.

#[local] Instance ranks_before_dec qv : RelDecision (ranks_before qv).
Proof. intros a b. unfold ranks_before. apply _. Defined.

(** Modelled from the spec: [Chroma.similarity_search] is third-party
    code.  After the collaborator contract of section 6,
    [Collection.search(queryVector, k, filterPredicate)], and the data
    model of section 3 (at most [k] results, by descending similarity):
    embed the query, keep the candidates the filter accepts, order them by
    descending similarity and return the first [k] documents. *)
Definition similarity_search (coll : list Entry) (text : Scalar) (k : nat)
    (keep : Document → result bool) : result (list Document) :=
  qv ← embed_query env text;
  kept ← filterM keep coll;
  Ok (entry_doc <$> take k (merge_sort (ranks_before qv) kept)).

Definition _analyze_query (state : RAGState) : result (gmap string Scalar) :=
  llm_structured env (question state).

(** The [filter] lambda of [_retrieve]. *)
Definition section_filter (query : gmap string Scalar) (doc : Document)
  : result bool :=
  section ← getitem query "section";
  Ok (scalar_eq (default SNone (metadata doc !! "section")) section).

Definition _retrieve (vs : Store) (state : RAGState) : result (list Document) :=
  let query := query state in
  user_id ← getitem query "user_id";
  let vectorstore := _get_vectorstore vs user_id in
  text ← getitem query "query";
  similarity_search vectorstore text 5 (section_filter query).

Definition system_prompt : string :=
  "You are an assistant for question-answering tasks. "
  +:+ "Use the following pieces of retrieved context to answer "
  +:+ "the question. If you don't know the answer, say that you don't know. "
  +:+ "Keep the answer concise and clear." +:+ newline +:+ newline.

Definition _generate (state : RAGState) : result string :=
  match context state with
  | None => Raise (KeyError "context")
  | Some docs =>
      let docs_content := join (newline +:+ newline) (page_content <$> docs) in
      let system_message := SystemMessage (system_prompt +:+ docs_content) in
      llm_invoke env ([system_message] ++ messages state)
  end.

(** [graph.invoke] on the compiled graph START -> analyze_query ->
    retrieve -> generate -> END.  The nodes run in this order; each returns
    a one-key update, and, [RAGState] declaring no reducer, the update
    replaces the value of that key in the state.  So after the rewrite
    stage [state["query"]] is the structured output, not the dict the
    caller put there. *)
Definition graph_invoke (vs : Store) (initial_state : RAGState) : result RAGState :=
  search_query ← _analyze_query initial_state;
  let s1 := mkRAGState (question initial_state) search_query
              (context initial_state) (messages initial_state)
              (answer initial_state) in
  retrieved_docs ← _retrieve vs s1;
  let s2 := mkRAGState (question s1) (query s1) (Some retrieved_docs)
              (messages s1) (answer s1) in
  content ← _generate s2;
  Ok (mkRAGState (question s2) (query s2) (context s2) (messages s2) (Some content)).

Definition initial_state (query_text : string) (user_id : Z)
    (msgs : option (list Message)) : RAGState :=
  mkRAGState query_text {["user_id" := SInt user_id]} None (default [] msgs) None.

(** The [try] block of [query_documents]. *)
Definition run_pipeline (vs : Store) (query_text : string) (user_id : Z)
    (msgs : option (list Message)) : result Answer :=
  final_state ← graph_invoke vs (initial_state query_text user_id msgs);
  match answer final_state, context final_state with
  | Some a, Some docs =>
      Ok (mkAnswer a ((λ d, (page_content d, metadata d)) <$> docs))
  | None, _ => Raise (KeyError "answer")
  | _, None => Raise (KeyError "context")
  end.

(** The [except] block: the direct model answer. *)
Definition fallback (query_text mode : string) : result Answer :=
  response ← llm_ainvoke env (mode +:+ ": " +:+ query_text);
  Ok (mkAnswer response []).

Definition query_documents (vs : Store) (query_text : string) (user_id : Z)
    (mode : string) (msgs : option (list Message)) : result Answer :=
  try_except (run_pipeline vs query_text user_id msgs)
             (λ _, fallback query_text mode).
End WithEnv.

End rag_system.

(** ** JSON values *)

(** What [json.loads] builds and what a JSON column or request body holds:
    [None], [bool], [int], [float] (finite, by its exact value), [str],
    [list] and [dict] (keys in insertion order). *)
#[warnings="-register-all"] Inductive Json : Type :=
  | JNull
  | JBool (b : bool)
  | JInt (z : Z)
  | JFloat (q : Qc)
  | JStr (s : string)
  | JList (l : list Json)
  | JDict (d : list (string * Json)).

(** [d.get(key)] on the entries of a dict. *)
Fixpoint dict_get (key : string) (d : list (string * Json)) : option Json :=
  match d with
  | [] => None
  | (k, v) :: d' => if decide (k = key) then Some v else dict_get key d'
  end.

(** [d[key] = v]: an existing key keeps its place. *)
Fixpoint dict_set (key : string) (v : Json) (d : list (string * Json))
  : list (string * Json) :=
  match d with
  | [] => [(key, v)]
  | (k, w) :: d' =>
      if decide (k = key) then (k, v) :: d' else (k, w) :: dict_set key v d'
  end.

(** The number a value stands for under [==]: [True] is 1, [False] is 0. *)
Definition json_num (v : Json) : option Qc :=
  match v with
  | JBool b => Some (Qc_of_Z (if b then 1 else 0))
  | JInt z => Some (Qc_of_Z z)
  | JFloat q => Some q
  | _ => None
  end.

(** Python's [==]: numbers by value, strings by characters, lists
    element by element, dicts key by key whatever the order. *)
Fixpoint json_eq (a b : Json) {struct a} : bool :=
  match a, b with
  | JNull, JNull => true
  | JStr s, JStr t => bool_decide (s = t)
  | JList l, JList m =>
      (fix go (l m : list Json) : bool :=
         match l, m with
         | [], [] => true
         | x :: l', y :: m' => json_eq x y && go l' m'
         | _, _ => false
         end) l m
  | JDict d, JDict e =>
      Nat.eqb (length d) (length e)
      && (fix go (d : list (string * Json)) : bool :=
            match d with
            | [] => true
            | (k, v) :: d' =>
                match dict_get k e with
                | Some w => json_eq v w
                | None => false
                end && go d'
            end) d
  | (JBool _ | JInt _ | JFloat _), (JBool _ | JInt _ | JFloat _) =>
      match json_num a, json_num b with
      | Some x, Some y => bool_decide (x = y)
      | _, _ => false
      end
  | _, _ => false
  end.

(** [len(v)]. *)
Definition py_len (v : Json) : result nat :=
  match v with
  | JList l => Ok (length l)
  | JDict d => Ok (length d)
  | JStr s => Ok (String.length s)
  | _ => Raise TypeError
  end.

Fixpoint chars (s : string) : list string :=
  match s with
  | EmptyString => []
  | String c s' => String c "" :: chars s'
  end.

(** [for x in v]: the elements of a list, the keys of a dict, the
    characters of a string. *)
Definition py_iter (v : Json) : result (list Json) :=
  match v with
  | JList l => Ok l
  | JDict d => Ok (JStr <$> d.*1)
  | JStr s => Ok (JStr <$> chars s)
  | _ => Raise TypeError
  end.

(** [v.get(key)]: only a dict has the method. *)
Definition py_get (v : Json) (key : string) : result Json :=
  match v with
  | JDict d => Ok (default JNull (dict_get key d))
  | _ => Raise AttributeError
  end.

(** [v[key]] with a string key. *)
Definition py_getitem (v : Json) (key : string) : result Json :=
  match v with
  | JDict d =>
      match dict_get key d with
      | Some w => Ok w
      | None => Raise (KeyError key)
      end
  | _ => Raise TypeError
  end.

(** [key in v] for a string [key]. *)
Definition py_contains (key : string) (v : Json) : result bool :=
  match v with
  | JDict d => Ok (bool_decide (is_Some (dict_get key d)))
  | JList l => Ok (existsb (json_eq (JStr key)) l)
  | JStr s => Ok (bool_decide (is_Some (String.index 0 key s)))
  | _ => Raise TypeError
  end.

(** ** database.py and server.py *)

Module server.

(** A row of [quizzes]; [questions] is a JSON column. *)
Record Quiz : Type := mkQuiz {
  quiz_id : Z;
  quiz_user_id : Z;
  quiz_topic : string;
  questions : Json;
  difficulty : string;
}.

(** A row of [quiz_results]. *)
Record QuizResult : Type := mkQuizResult {
  result_quiz_id : Z;
  result_user_id : Z;
  result_score : Qc;
  total_questions : nat;
  result_answers : gmap string Json;
  completed_at : Z;
}.

(** A row of [progress].  [Float] columns hold exact rationals here;
    rounding is not modelled. *)
Record Progress : Type := mkProgress {
  progress_id : Z;
  user_id : Z;
  topic : string;
  mastery_score : Qc;
  study_time_minutes : Z;
  quizzes_taken : Z;
  last_studied : Z;
}.

(** The constructor [Progress(...)] followed by the insert: a column left
    out takes the default declared in [database.py]
    ([mastery_score] 0.0, [study_time_minutes] 0, [quizzes_taken] 0,
    [last_studied] the time of the insert). *)
Definition new_Progress (id user_id : Z) (topic : string)
    (mastery_score : option Qc) (study_time_minutes quizzes_taken : option Z)
    (now : Z) : Progress :=
  mkProgress id user_id topic
    (default 0%Qc mastery_score)
    (default 0 study_time_minutes)
    (default 0 quizzes_taken)
    now.

(** The tables the two routes touch. *)
Record DB : Type := mkDB {
  quizzes : list Quiz;
  quiz_results : list QuizResult;
  progress : list Progress;
}.

(** The next value of an autoincrement key. *)
Definition next_id (ids : list Z) : Z := 1 + foldr Z.max 0 ids.

(** Request bodies. *)
Record QuizSubmit : Type := mkQuizSubmit {
  submit_quiz_id : Z;
  submit_user_id : Z;
  answers : gmap string Json;
}.

Record ProgressUpdate : Type := mkProgressUpdate {
  update_user_id : Z;
  update_topic : string;
  update_minutes : Z;
}.

(** The body returned by [/quiz/submit]. *)
Record SubmitResponse : Type := mkSubmitResponse {
  score : Qc;
  correct : nat;
  total : nat;
  percentage : Qc;
}.

(** [db.query(Quiz).filter(Quiz.id == id).first()]. *)
Definition find_quiz (db : DB) (id : Z) : option (nat * Quiz) :=
  list_find (λ q, quiz_id q = id) (quizzes db).

(** [db.query(Progress).filter(Progress.user_id == u, Progress.topic == t)
    .first()], with the position of the row. *)
Definition find_progress (db : DB) (u : Z) (t : string) : option (nat * Progress) :=
  list_find (λ p, user_id p = u ∧ topic p = t) (progress db).

(** The scoring loop over [enumerate(quiz.questions)], from index [idx]
    with [correct] matches so far. *)
Fixpoint count_correct (answers : gmap string Json) (idx : nat)
    (questions : list Json) (correct : nat) : result nat :=
  match questions with
  | [] => Ok correct
  | question :: rest =>
      let user_answer := default JNull (answers !! pretty idx) in
      expected ← py_get question "correct_answer";
      count_correct answers (S idx) rest
        (if json_eq user_answer expected then S correct else correct)
  end.

(** [correct / total if total > 0 else 0]. *)
Definition score_of (correct total : nat) : Qc :=
  if decide (0 < total)%nat
  then (Qc_of_Z (Z.of_nat correct) / Qc_of_Z (Z.of_nat total))%Qc
  else 0%Qc.

(** The progress bookkeeping of [submit_quiz]. *)
Definition record_quiz (now : Z) (u : Z) (t : string) (score : Qc) (db : DB)
  : list Progress :=
  match find_progress db u t with
  | Some (i, p) =>
      <[i := mkProgress (progress_id p) (user_id p) (topic p)
               ((mastery_score p + score) / 2)%Qc
               (study_time_minutes p)
               (quizzes_taken p + 1)
               now]> (progress db)
  | None =>
      progress db
      ++ [new_Progress (next_id (progress_id <$> progress db)) u t
            (Some score) None (Some 1) now]
  end.

(** [submit_quiz] over a store that accepts every statement: the
    response and the tables after the commit.  [api.submit_quiz] below
    puts each statement to the engine. *)
Definition submit_quiz (now : Z) (submission : QuizSubmit) (db : DB)
  : result (SubmitResponse * DB) :=
  match find_quiz db (submit_quiz_id submission) with
  | None => Raise (HTTPException 404 "Quiz not found")
  | Some (_, quiz) =>
      total ← py_len (questions quiz);
      items ← py_iter (questions quiz);
      correct ← count_correct (answers submission) 0 items 0;
      let score := score_of correct total in
      let result :=
        mkQuizResult (quiz_id quiz) (submit_user_id submission) score total
          (answers submission) now in
      Ok (mkSubmitResponse score correct total (score * Qc_of_Z 100)%Qc,
          mkDB (quizzes db) (quiz_results db ++ [result])
               (record_quiz now (submit_user_id submission) (quiz_topic quiz)
                  score db))
  end.

(** [update_progress] over a store that accepts every statement: the
    row returned and the tables after the commit.  [api.update_progress]
    below puts each statement to the engine. *)
Definition update_progress (now : Z) (progress_data : ProgressUpdate) (db : DB)
  : Progress * DB :=
  match find_progress db (update_user_id progress_data)
          (update_topic progress_data) with
  | Some (i, p) =>
      let p' := mkProgress (progress_id p) (user_id p) (topic p)
                  (mastery_score p)
                  (study_time_minutes p + update_minutes progress_data)
                  (quizzes_taken p)
                  now in
      (p', mkDB (quizzes db) (quiz_results db) (<[i := p']> (progress db)))
  | None =>
      let p' := new_Progress (next_id (progress_id <$> progress db))
                  (update_user_id progress_data) (update_topic progress_data)
                  None (Some (update_minutes progress_data)) None now in
      (p', mkDB (quizzes db) (quiz_results db) (progress db ++ [p']))
  end.

(** The count the specification describes: the indices whose submitted
    answer is a string and equals, character by character, the string
    under [correct_answer] of the question at that index. *)
Definition exact_match (answers : gmap string Json) (idx : nat) (question : Json)
  : bool :=
  match question with
  | JDict d =>
      match dict_get "correct_answer" d, answers !! pretty idx with
      | Some (JStr c), Some (JStr a) => bool_decide (a = c)
      | _, _ => false
      end
  | _ => false
  end.

Fixpoint exact_matches (answers : gmap string Json) (idx : nat)
    (questions : list Json) : nat :=
  match questions with
  | [] => 0
  | question :: rest =>
      (if exact_match answers idx question then 1 else 0)
      + exact_matches answers (S idx) rest
  end.

(** A question as the quiz generator asks the model for it: an object
    whose [correct_answer] is a string. *)
Definition has_answer_key (question : Json) : Prop :=
  ∃ d c, question = JDict d ∧ dict_get "correct_answer" d = Some (JStr c).

End server.

Module server_props.
(** A JSON object, and a value [len] and [for] accept (a list, an
    object or a string). *)
Definition is_object (v : Json) : Prop := ∃ d, v = JDict d.

Definition is_sized (v : Json) : Prop :=
  match v with
  | JList _ | JDict _ | JStr _ => True
  | _ => False
  end.
End server_props.

(** ** knowledge_graph.py *)

Module knowledge_graph.

(** The collaborators of [KnowledgeGraphBuilder]: the model call
    ([response.content] of [self.llm.ainvoke]), [json.loads], and
    [nx.spring_layout(G, k=2, iterations=50)], which maps the nodes of the
    graph to positions. *)
Record Env : Type := mkEnv {
  llm_ainvoke : string → result string;
  json_loads : string → result Json;
  spring_layout : list Json → list (Json * Json) → result (list (Json * (Qc * Qc)));
}.

Definition dquote : string := String (ascii_of_nat 34) "".
Definition quoted (s : string) : string := dquote +:+ s +:+ dquote.

(** [s[:n]]. *)
Fixpoint string_take (n : nat) (s : string) : string :=
  match n, s with
  | S n', String c s' => String c (string_take n' s')
  | _, _ => ""
  end.

Definition prompt (topic content : string) : string :=
  "Extract key concepts and their relationships from this content about "
  +:+ topic +:+ "." +:+ newline +:+ newline
  +:+ "Content:" +:+ newline
  +:+ string_take 4000 content +:+ newline +:+ newline
  +:+ "Return ONLY a valid JSON object with this structure:" +:+ newline
  +:+ "{" +:+ newline
  +:+ "  " +:+ quoted "nodes" +:+ ": [" +:+ newline
  +:+ "    {" +:+ quoted "id" +:+ ": " +:+ quoted "concept1" +:+ ", "
  +:+ quoted "label" +:+ ": " +:+ quoted "Concept Name" +:+ ", "
  +:+ quoted "type" +:+ ": " +:+ quoted "core/supporting/detail" +:+ "}"
  +:+ newline
  +:+ "  ]," +:+ newline
  +:+ "  " +:+ quoted "edges" +:+ ": [" +:+ newline
  +:+ "    {" +:+ quoted "source" +:+ ": " +:+ quoted "concept1" +:+ ", "
  +:+ quoted "target" +:+ ": " +:+ quoted "concept2" +:+ ", "
  +:+ quoted "relationship" +:+ ": "
  +:+ quoted "leads to/requires/part of" +:+ "}" +:+ newline
  +:+ "  ]" +:+ newline
  +:+ "}" +:+ newline +:+ newline
  +:+ "Extract 10-15 key concepts and their relationships."
  +:+ newline +:+ newline
  +:+ "JSON:".

(** The suffix of [s] that starts at its first opening brace. *)
Fixpoint from_open_brace (s : string) : option string :=
  match s with
  | EmptyString => None
  | String c s' =>
      if decide (c = "{"%char) then Some s else from_open_brace s'
  end.

(** The longest prefix of [s] that ends with a closing brace. *)
Fixpoint upto_last_close (s : string) : option string :=
  match s with
  | EmptyString => None
  | String c s' =>
      match upto_last_close s' with
      | Some p => Some (String c p)
      | None => if decide (c = "}"%char) then Some (String c "") else None
      end
  end.

(** [re.search(r'\{.*\}', content, re.DOTALL)]: the span from the first
    opening brace to the last closing brace after it, if there is one. *)
Definition search_braces (content : string) : option string :=
  from_open_brace content ≫= upto_last_close.

(** [nx.Graph()]: the nodes in insertion order and the edges. *)
Record Graph : Type := mkGraph {
  nodes : list Json;
  edges : list (Json * Json);
}.

Definition hashable (v : Json) : bool :=
  match v with
  | JList _ | JDict _ => false
  | _ => true
  end.

(** [G.add_node(n)]: an unhashable node is a [TypeError], [None] is
    refused, a node already present is kept once. *)
Definition add_node (G : Graph) (n : Json) : result Graph :=
  if hashable n then
    if existsb (json_eq n) (nodes G) then Ok G
    else match n with
         | JNull => Raise (ValueError "None cannot be a node")
         | _ => Ok (mkGraph (nodes G ++ [n]) (edges G))
         end
  else Raise TypeError.

Definition add_edge (G : Graph) (u v : Json) : result Graph :=
  G1 ← add_node G u;
  G2 ← add_node G1 v;
  Ok (mkGraph (nodes G2) (edges G2 ++ [(u, v)])).

(** A [for] loop that threads an accumulator and may raise. *)
Fixpoint foldM {A B} (f : B → A → result B) (acc : B) (l : list A) : result B :=
  match l with
  | [] => Ok acc
  | x :: l' => acc' ← f acc x; foldM f acc' l'
  end.

(** [pos.get(n)] on the layout. *)
Fixpoint pos_get (n : Json) (pos : list (Json * (Qc * Qc))) : option (Qc * Qc) :=
  match pos with
  | [] => None
  | (m, xy) :: pos' => if json_eq n m then Some xy else pos_get n pos'
  end.

(** The body of the last loop: a node found in the layout gets its scaled
    coordinates. *)
Definition place_node (pos : list (Json * (Qc * Qc))) (node : Json) : result Json :=
  id ← py_getitem node "id";
  if hashable id then
    match pos_get id pos with
    | Some (x, y) =>
        match node with
        | JDict d =>
            Ok (JDict (dict_set "y" (JFloat (y * Qc_of_Z 300))
                         (dict_set "x" (JFloat (x * Qc_of_Z 300)) d)))
        | _ => Raise TypeError
        end
    | None => Ok node
    end
  else Raise TypeError.

(** [graph_data] once the node objects of its list were updated in
    place. *)
Definition with_nodes (graph_data : Json) (placed : list Json) : Json :=
  match graph_data with
  | JDict d =>
      match dict_get "nodes" d with
      | Some (JList _) => JDict (dict_set "nodes" (JList placed) d)
      | _ => graph_data
      end
  | _ => graph_data
  end.

Section WithEnv.
Context (env : Env).

(** The JSON the builder reads out of the model's text. *)
Definition extract_json (content : string) : result Json :=
  match search_braces content with
  | Some json_match => json_loads env json_match
  | None => json_loads env content
  end.

(** The [try] block of [build_graph]. *)
Definition build_graph_try (content : string) : result Json :=
  graph_data ← extract_json content;
  has_nodes ← py_contains "nodes" graph_data;
  invalid ← (if (has_nodes : bool) then
               has_edges ← py_contains "edges" graph_data;
               Ok (negb has_edges)
             else Ok true);
  if (invalid : bool) then Raise (ValueError "Invalid graph structure")
  else
    node_list ← py_getitem graph_data "nodes" ≫= py_iter;
    G ← foldM (λ G node, id ← py_getitem node "id"; add_node G id)
              (mkGraph [] []) node_list;
    edge_list ← py_getitem graph_data "edges" ≫= py_iter;
    G ← foldM (λ G edge,
                 source ← py_getitem edge "source";
                 target ← py_getitem edge "target";
                 add_edge G source target)
              G edge_list;
    pos ← spring_layout env (nodes G) (edges G);
    node_list ← py_getitem graph_data "nodes" ≫= py_iter;
    placed ← mapM (place_node pos) node_list;
    Ok (with_nodes graph_data placed).

(** The value of the [except] block. *)
Definition fallback_graph (topic : string) : Json :=
  JDict [("nodes",
          JList [JDict [("id", JStr "main_topic"); ("label", JStr topic);
                        ("type", JStr "core"); ("x", JInt 0); ("y", JInt 0)]]);
         ("edges", JList [])].

Definition build_graph (content topic : string) : result Json :=
  response ← llm_ainvoke env (prompt topic content);
  try_except (build_graph_try response) (λ _, Ok (fallback_graph topic)).
End WithEnv.

(** The model text holds a JSON object with both keys, as far as the
    builder's extraction can tell. *)
Definition parses_to_graph (env : Env) (content : string) : Prop :=
  ∃ d, extract_json env content = Ok (JDict d)
       ∧ is_Some (dict_get "nodes" d) ∧ is_Some (dict_get "edges" d).

End knowledge_graph.

(** ** quiz_generator.py *)

Module quiz_generator.

(** The collaborators of [QuizGenerator]: the model call and
    [json.loads]. *)
Record Env : Type := mkEnv {
  llm_ainvoke : string → result string;
  json_loads : string → result Json;
}.

(** [difficulty_instructions.get(difficulty, '')]. *)
Definition difficulty_instructions (difficulty : string) : string :=
  if decide (difficulty = "easy")
  then "Create basic recall and understanding questions."
  else if decide (difficulty = "medium")
  then "Create application and analysis questions."
  else if decide (difficulty = "hard")
  then "Create complex synthesis and evaluation questions."
  else "".

Definition prompt (topic content difficulty : string) (num_questions : Z)
  : string :=
  let quoted := knowledge_graph.quoted in
  "Generate " +:+ pretty num_questions
  +:+ " multiple-choice quiz questions about: " +:+ topic
  +:+ newline +:+ newline
  +:+ "Content:" +:+ newline
  +:+ knowledge_graph.string_take 3000 content +:+ newline +:+ newline
  +:+ "Difficulty: " +:+ difficulty +:+ newline
  +:+ difficulty_instructions difficulty +:+ newline +:+ newline
  +:+ "Return ONLY a valid JSON array with this exact structure:" +:+ newline
  +:+ "[" +:+ newline
  +:+ "  {" +:+ newline
  +:+ "    " +:+ quoted "question" +:+ ": " +:+ quoted "Question text?"
  +:+ "," +:+ newline
  +:+ "    " +:+ quoted "options" +:+ ": [" +:+ quoted "A) Option 1" +:+ ", "
  +:+ quoted "B) Option 2" +:+ ", " +:+ quoted "C) Option 3" +:+ ", "
  +:+ quoted "D) Option 4" +:+ "]," +:+ newline
  +:+ "    " +:+ quoted "correct_answer" +:+ ": " +:+ quoted "A" +:+ ","
  +:+ newline
  +:+ "    " +:+ quoted "explanation" +:+ ": "
  +:+ quoted "Why this is correct" +:+ newline
  +:+ "  }" +:+ newline
  +:+ "]" +:+ newline +:+ newline
  +:+ "Questions:".

(** The suffix of [s] that starts at the first occurrence of [c]. *)
Fixpoint from_first (c : ascii) (s : string) : option string :=
  match s with
  | EmptyString => None
  | String a s' => if decide (a = c) then Some s else from_first c s'
  end.

(** The longest prefix of [s] that ends with [c]. *)
Fixpoint upto_last (c : ascii) (s : string) : option string :=
  match s with
  | EmptyString => None
  | String a s' =>
      match upto_last c s' with
      | Some p => Some (String a p)
      | None => if decide (a = c) then Some (String a "") else None
      end
  end.

(** [re.search(r'\[.*\]', content, re.DOTALL)]: the span from the first
    opening bracket to the last closing bracket after it, if any. *)
Definition search_brackets (content : string) : option string :=
  from_first "["%char content ≫= upto_last "]"%char.

(** The one-question quiz of the [except] block. *)
Definition placeholder : Json :=
  JList [JDict [("question", JStr "Sample question about the topic");
                ("options", JList [JStr "A) Option 1"; JStr "B) Option 2";
                                   JStr "C) Option 3"; JStr "D) Option 4"]);
                ("correct_answer", JStr "A");
                ("explanation", JStr "This is a sample question.")]].

(** The [try] block of [generate_quiz]. *)
Definition parse_questions (env : Env) (content : string) : result Json :=
  match search_brackets content with
  | Some json_match => json_loads env json_match
  | None => json_loads env content
  end.

Definition generate_quiz (env : Env) (topic content difficulty : string)
    (num_questions : Z) : result Json :=
  response ← llm_ainvoke env (prompt topic content difficulty num_questions);
  try_except (parse_questions env response) (λ _, Ok placeholder).

(** The thresholds 0.8 and 0.5 of [adapt_difficulty]; scores are exact
    rationals here. *)
Definition high_score : Qc := (Qc_of_Z 4 / Qc_of_Z 5)%Qc.
Definition low_score : Qc := (Qc_of_Z 1 / Qc_of_Z 2)%Qc.

Definition adapt_difficulty (user_score : Qc) (current_difficulty : string)
  : string :=
  if bool_decide (high_score ≤ user_score)%Qc
     && bool_decide (current_difficulty ≠ "hard")
  then
    if bool_decide (current_difficulty = "easy") then "medium" else "hard"
  else if bool_decide (user_score < low_score)%Qc
          && bool_decide (current_difficulty ≠ "easy")
  then
    if bool_decide (current_difficulty = "hard") then "medium" else "easy"
  else current_difficulty.

(** The position of a level on the scale easy < medium < hard; [None] for
    any other string. *)
Definition level_rank (difficulty : string) : option nat :=
  if decide (difficulty = "easy") then Some 0%nat
  else if decide (difficulty = "medium") then Some 1%nat
  else if decide (difficulty = "hard") then Some 2%nat
  else None.

(** [c] occurs in [s]. *)
Fixpoint has_char (c : ascii) (s : string) : bool :=
  match s with
  | EmptyString => false
  | String a s' => bool_decide (a = c) || has_char c s'
  end.

End quiz_generator.

(** ** rag_system.py, the summary and topic utilities *)

Module rag_utils.
Import rag_system.

(** ["\n".join(doc.page_content for doc in documents[:5])]. *)
Definition full_text (documents : list Document) : string :=
  join newline (page_content <$> take 5 documents).

Definition summary_prompt (documents : list Document) : string :=
  "Summarize this academic document:" +:+ newline +:+ newline
  +:+ knowledge_graph.string_take 4000 (full_text documents).

Definition topics_prompt (documents : list Document) : string :=
  "Extract 5-10 key topics or concepts from this document. Return as JSON array:"
  +:+ newline +:+ newline
  +:+ knowledge_graph.string_take 3000 (full_text documents).

Definition generate_summary (env : Env) (file_path : string) : result string :=
  documents ← loader env file_path;
  llm_ainvoke env (summary_prompt documents).

Definition extract_topics (env : Env) (file_path : string) : result string :=
  documents ← loader env file_path;
  llm_ainvoke env (topics_prompt documents).

End rag_utils.

(** ** server.py, the remaining routes *)

(** The relational store is taken to be reliable: its queries and commits
    do not raise, except for the unique constraint on [session_id], which
    is checked.  Times and UUIDs are inputs. *)
Module routes.

Record User : Type := mkUser {
  user_id : Z;
  user_name : string;
  user_email : string;
  user_created_at : Z;
}.

Record DocumentRow : Type := mkDocumentRow {
  document_id : Z;
  document_user_id : Z;
  filename : string;
  content_preview : option string;
  file_type : string;
  uploaded_at : Z;
}.

Record Conversation : Type := mkConversation {
  conversation_id : Z;
  conversation_user_id : Z;
  session_id : string;
  mode : string;
  conversation_created_at : Z;
}.

Record MessageRow : Type := mkMessageRow {
  message_id : Z;
  message_conversation_id : Z;
  role : string;
  content : string;
}.

Record KnowledgeGraphRow : Type := mkKnowledgeGraphRow {
  graph_id : Z;
  graph_user_id : Z;
  graph_document_id : Z;
  graph_data : Json;
  graph_created_at : Z;
}.

(** All tables: the three of [server.DB] and the five others. *)
Record Tables : Type := mkTables {
  core : server.DB;
  users : list User;
  documents : list DocumentRow;
  conversations : list Conversation;
  messages : list MessageRow;
  knowledge_graphs : list KnowledgeGraphRow;
}.

Definition empty_tables : Tables :=
  mkTables (server.mkDB [] [] []) [] [] [] [] [].

Definition with_core (db : server.DB) (t : Tables) : Tables :=
  mkTables db (users t) (documents t) (conversations t) (messages t)
    (knowledge_graphs t).

Definition with_documents (rows : list DocumentRow) (t : Tables) : Tables :=
  mkTables (core t) (users t) rows (conversations t) (messages t)
    (knowledge_graphs t).

(** The three AI systems of [server.py] and [str(e)]. *)
Record Env : Type := mkEnv {
  rag : rag_system.Env;
  quiz : quiz_generator.Env;
  graph : knowledge_graph.Env;
  exn_str : Exn → string;
}.

(** [raise HTTPException(status_code=500, detail=str(e))]. *)
Definition internal_error {A} (env : Env) (e : Exn) : result A :=
  Raise (HTTPException 500 (exn_str env e)).

(** *** Users *)

Definition create_user (now : Z) (name email : string) (t : Tables)
  : User * Tables :=
  match list_find (λ u, user_email u = email) (users t) with
  | Some (_, existing_user) => (existing_user, t)
  | None =>
      let user := mkUser (server.next_id (user_id <$> users t)) name email now in
      (user,
       mkTables (core t) (users t ++ [user]) (documents t) (conversations t)
         (messages t) (knowledge_graphs t))
  end.

Definition get_user (id : Z) (t : Tables) : result User :=
  match list_find (λ u, user_id u = id) (users t) with
  | Some (_, user) => Ok user
  | None => Raise (HTTPException 404 "User not found")
  end.

(** *** Documents *)

Record UploadResponse : Type := mkUploadResponse {
  upload_id : Z;
  upload_filename : string;
  upload_summary : string;
  upload_topics : string;
  chunks_indexed : nat;
}.

(** [upload_document].  [file_path] is [str(UPLOAD_DIR /
    f"{uuid4()}_{filename}")] and [saved] the outcome of writing the
    upload there.  The route commits the document row before it indexes
    and commits the preview before it extracts topics; what was committed
    or written to the vector store stays when a later step raises. *)
Definition upload_document (env : Env) (file_path filename : string)
    (saved : result ()) (user : Z) (now : Z) (t : Tables)
    (vs : rag_system.Store)
  : result UploadResponse * Tables * rag_system.Store :=
  match saved with
  | Raise e => (internal_error env e, t, vs)
  | Ok _ =>
      let id := server.next_id (document_id <$> documents t) in
      let doc := mkDocumentRow id user filename None "pdf" now in
      let t1 := with_documents (documents t ++ [doc]) t in
      match rag_system.index_document (rag env) file_path user id vs with
      | Raise e => (internal_error env e, t1, vs)
      | Ok (chunks_count, vs1) =>
          match rag_utils.generate_summary (rag env) file_path with
          | Raise e => (internal_error env e, t1, vs1)
          | Ok summary =>
              let doc' := mkDocumentRow id user filename (Some summary) "pdf" now in
              let t2 := with_documents (documents t ++ [doc']) t in
              match rag_utils.extract_topics (rag env) file_path with
              | Raise e => (internal_error env e, t2, vs1)
              | Ok topics_text =>
                  (Ok (mkUploadResponse id filename summary topics_text
                         chunks_count), t2, vs1)
              end
          end
      end
  end.

Definition get_user_documents (user : Z) (t : Tables) : list DocumentRow :=
  filter (λ d, document_user_id d = user) (documents t).

(** *** Conversations and questions *)

Definition create_conversation (uuid : string) (now : Z) (user : Z)
    (mode : string) (t : Tables) : result (Conversation * Tables) :=
  if decide (uuid ∈ session_id <$> conversations t)
  then Raise (External "IntegrityError")
  else
    let conversation :=
      mkConversation (server.next_id (conversation_id <$> conversations t))
        user uuid mode now in
    Ok (conversation,
        mkTables (core t) (users t) (documents t)
          (conversations t ++ [conversation]) (messages t)
          (knowledge_graphs t)).

(** The conversation memory [query_rag] hands to the pipeline: the
    messages of the first conversation of the user. *)
Definition previous_messages (user : Z) (t : Tables) : list rag_system.Message :=
  match list_find (λ c, conversation_user_id c = user) (conversations t) with
  | Some (_, conversation) =>
      (λ m, rag_system.Turn (role m) (content m))
        <$> filter (λ m, message_conversation_id m = conversation_id conversation)
              (messages t)
  | None => []
  end.

Definition query_rag (env : Env) (query : string) (user : Z) (mode : string)
    (t : Tables) (vs : rag_system.Store) : result rag_system.Answer :=
  try_except
    (rag_system.query_documents (rag env) vs query user mode
       (Some (previous_messages user t)))
    (internal_error env).

(** *** Quizzes *)

Record QuizResponse : Type := mkQuizResponse {
  response_id : Z;
  response_topic : string;
  response_questions : Json;
  response_difficulty : string;
}.

Definition generate_quiz (env : Env) (user : Z)
    (topic content difficulty : string) (num_questions : Z) (t : Tables)
  : result QuizResponse * Tables :=
  match quiz_generator.generate_quiz (quiz env) topic content difficulty
          num_questions with
  | Raise e => (internal_error env e, t)
  | Ok questions =>
      let id := server.next_id (server.quiz_id <$> server.quizzes (core t)) in
      let row := server.mkQuiz id user topic questions difficulty in
      (Ok (mkQuizResponse id topic questions difficulty),
       with_core
         (server.mkDB (server.quizzes (core t) ++ [row])
            (server.quiz_results (core t)) (server.progress (core t)))
         t)
  end.

(** *** Knowledge graphs *)

Definition generate_knowledge_graph (env : Env) (now : Z)
    (user document : Z) (content topic : string) (t : Tables)
  : result (Z * Json) * Tables :=
  match knowledge_graph.build_graph (graph env) content topic with
  | Raise e => (internal_error env e, t)
  | Ok data =>
      let id := server.next_id (graph_id <$> knowledge_graphs t) in
      let kg := mkKnowledgeGraphRow id user document data now in
      (Ok (id, data),
       mkTables (core t) (users t) (documents t) (conversations t)
         (messages t) (knowledge_graphs t ++ [kg]))
  end.

Definition get_knowledge_graph (document : Z) (t : Tables)
  : result KnowledgeGraphRow :=
  match list_find (λ kg, graph_document_id kg = document) (knowledge_graphs t) with
  | Some (_, kg) => Ok kg
  | None => Raise (HTTPException 404 "Knowledge graph not found")
  end.

(** *** Analytics *)

Definition sum_Z (l : list Z) : Z := foldr Z.add 0 l.
Definition sum_Qc (l : list Qc) : Qc := foldr Qcplus 0%Qc l.

Record TopicMastery : Type := mkTopicMastery {
  tm_topic : string;
  tm_mastery_score : Qc;
  tm_quizzes_taken : Z;
  tm_study_time : Z;
}.

Record Analytics : Type := mkAnalytics {
  total_study_time_minutes : Z;
  total_quizzes_taken : nat;
  average_score : Qc;
  topic_mastery : list TopicMastery;
}.

Definition get_user_analytics (user : Z) (t : Tables) : Analytics :=
  let progress := filter (λ p, server.user_id p = user) (server.progress (core t)) in
  let quiz_results :=
    filter (λ r, server.result_user_id r = user) (server.quiz_results (core t)) in
  mkAnalytics
    (sum_Z (server.study_time_minutes <$> progress))
    (length quiz_results)
    (match quiz_results with
     | [] => 0%Qc
     | _ => (sum_Qc (server.result_score <$> quiz_results)
             / Qc_of_Z (Z.of_nat (length quiz_results)))%Qc
     end)
    ((λ p, mkTopicMastery (server.topic p) (server.mastery_score p)
             (server.quizzes_taken p) (server.study_time_minutes p))
       <$> progress).

(** *** What the API can do to the stored state *)

(** One request to a route that writes: the tables and the vector store
    before and after, whatever the collaborators answered. *)
Inductive step : Tables * rag_system.Store → Tables * rag_system.Store → Prop :=
  | step_create_user now name email t vs :
      step (t, vs) ((create_user now name email t).2, vs)
  | step_upload_document env file_path filename saved user now t vs :
      step (t, vs)
        ((upload_document env file_path filename saved user now t vs).1.2,
         (upload_document env file_path filename saved user now t vs).2)
  | step_create_conversation uuid now user mode t vs c t' :
      create_conversation uuid now user mode t = Ok (c, t') →
      step (t, vs) (t', vs)
  | step_generate_quiz env user topic content difficulty n t vs :
      step (t, vs) ((generate_quiz env user topic content difficulty n t).2, vs)
  | step_submit_quiz now submission t vs resp db' :
      server.submit_quiz now submission (core t) = Ok (resp, db') →
      step (t, vs) (with_core db' t, vs)
  | step_update_progress now progress_data t vs :
      step (t, vs)
        (with_core (server.update_progress now progress_data (core t)).2 t, vs)
  | step_generate_knowledge_graph env now user document content topic t vs :
      step (t, vs)
        ((generate_knowledge_graph env now user document content topic t).2, vs).

(** The states the API can reach from empty tables and an empty vector
    store. *)
Inductive reachable : Tables * rag_system.Store → Prop :=
  | reachable_init : reachable (empty_tables, ∅)
  | reachable_step s s' : reachable s → step s s' → reachable s'.

End routes.

(** ** database.py, the engine behind the session *)

(** [engine = create_engine(DATABASE_URL)]: which engine runs behind
    [SessionLocal] is configuration, so its verdict on a statement is a
    parameter.  A statement the engine refuses raises in the route that
    issued it.  The session is made with [autoflush=False]: rows added or
    changed reach the engine at [db.commit()], and what was not committed
    is discarded when [get_db] closes the session.  A route puts each of
    its statements to the engine once, so a verdict that depends on what
    is stored is covered by the choice of the engine. *)
Module database.

(** A row the session writes at a commit, with the values it binds. *)
Inductive Row : Type :=
  | QuizRow (quiz : server.Quiz)
  | QuizResultRow (result : server.QuizResult)
  | ProgressRow (progress : server.Progress)
  | KnowledgeGraphRow (kg : routes.KnowledgeGraphRow).

(** The statements of the routes modelled below:
    - [db.query(Quiz).filter(Quiz.id == id)],
    - [db.query(Progress).filter(Progress.user_id == user_id,
      Progress.topic == topic)],
    - [db.query(Conversation).filter(Conversation.user_id == user_id)],
    - [db.query(Message).filter(Message.conversation_id == id)],
    - [db.commit()] with the rows it flushes,
    - [db.refresh(row)]. *)
Inductive Statement : Type :=
  | SelectQuiz (id : Z)
  | SelectProgress (user_id : Z) (topic : string)
  | SelectConversation (user_id : Z)
  | SelectMessages (conversation_id : Z)
  | Commit (written : list Row)
  | Refresh (row : Row).

Record Engine : Type := mkEngine {
  execute : Statement → result ();
}.

(** An engine that accepts every statement. *)
Definition accepting : Engine := mkEngine (λ _, Ok ()).

(** SQLite through the [sqlite3] driver: an [Integer] column or parameter
    holds a signed 64-bit value, and binding a Python [int] outside that
    range raises [OverflowError]. *)
Definition int64 (z : Z) : bool := bool_decide (- 2 ^ 63 ≤ z < 2 ^ 63).

Definition row_integers (row : Row) : list Z :=
  match row with
  | QuizRow quiz => [server.quiz_id quiz; server.quiz_user_id quiz]
  | QuizResultRow result =>
      [server.result_quiz_id result; server.result_user_id result;
       Z.of_nat (server.total_questions result)]
  | ProgressRow progress =>
      [server.progress_id progress; server.user_id progress;
       server.study_time_minutes progress; server.quizzes_taken progress]
  | KnowledgeGraphRow kg =>
      [routes.graph_id kg; routes.graph_user_id kg;
       routes.graph_document_id kg]
  end.

(** The integers a statement binds; a refresh binds the primary key. *)
Definition integers (statement : Statement) : list Z :=
  match statement with
  | SelectQuiz id => [id]
  | SelectProgress user_id _ => [user_id]
  | SelectConversation user_id => [user_id]
  | SelectMessages conversation_id => [conversation_id]
  | Commit written => written ≫= row_integers
  | Refresh (QuizRow quiz) => [server.quiz_id quiz]
  | Refresh (ProgressRow progress) => [server.progress_id progress]
  | Refresh (KnowledgeGraphRow kg) => [routes.graph_id kg]
  | Refresh (QuizResultRow _) => []
  end.

Definition overflow : Exn :=
  External "OverflowError: Python int too large to convert to SQLite INTEGER".

Definition sqlite : Engine :=
  mkEngine (λ statement,
    if forallb int64 (integers statement) then Ok () else Raise overflow).

End database.

(** ** server.py, the routes statement by statement *)

(** The routes of [server] and [routes] above run over a store that
    accepts every statement.  Here each statement is put to the engine,
    in the order of the source; for the accepting engine the two
    descriptions agree.  A route returns its outcome together with the
    tables as they are stored afterwards. *)
Module api.
Import database.

Section WithEngine.
Context (eng : Engine).

(** The [if progress: ... else: ...] of [update_progress]: the row the
    session holds afterwards and the table with that row in it. *)
Definition study_progress (now : Z) (progress_data : server.ProgressUpdate)
    (db : server.DB) : server.Progress * list server.Progress :=
  match server.find_progress db (server.update_user_id progress_data)
          (server.update_topic progress_data) with
  | Some (i, p) =>
      let p' := server.mkProgress (server.progress_id p) (server.user_id p)
                  (server.topic p) (server.mastery_score p)
                  (server.study_time_minutes p
                   + server.update_minutes progress_data)
                  (server.quizzes_taken p) now in
      (p', <[i := p']> (server.progress db))
  | None =>
      let p' := server.new_Progress
                  (server.next_id (server.progress_id <$> server.progress db))
                  (server.update_user_id progress_data)
                  (server.update_topic progress_data) None
                  (Some (server.update_minutes progress_data)) None now in
      (p', server.progress db ++ [p'])
  end.

Definition update_progress (now : Z) (progress_data : server.ProgressUpdate)
    (db : server.DB) : result server.Progress * server.DB :=
  match execute eng (SelectProgress (server.update_user_id progress_data)
                       (server.update_topic progress_data)) with
  | Raise e => (Raise e, db)
  | Ok _ =>
      let '(progress, rows) := study_progress now progress_data db in
      match execute eng (Commit [ProgressRow progress]) with
      | Raise e => (Raise e, db)
      | Ok _ =>
          let db' := server.mkDB (server.quizzes db) (server.quiz_results db)
                       rows in
          match execute eng (Refresh (ProgressRow progress)) with
          | Raise e => (Raise e, db')
          | Ok _ => (Ok progress, db')
          end
      end
  end.

(** The scoring of [submit_quiz], from [len(quiz.questions)] to the end
    of the loop: the number of matches and the number of questions. *)
Definition grade (quiz : server.Quiz) (answers : gmap string Json)
  : result (nat * nat) :=
  total ← py_len (server.questions quiz);
  items ← py_iter (server.questions quiz);
  correct ← server.count_correct answers 0 items 0;
  Ok (correct, total).

(** The [if progress: ... else: ...] of [submit_quiz]. *)
Definition quiz_progress (now : Z) (user_id : Z) (topic : string) (score : Qc)
    (db : server.DB) : server.Progress * list server.Progress :=
  match server.find_progress db user_id topic with
  | Some (i, p) =>
      let p' := server.mkProgress (server.progress_id p) (server.user_id p)
                  (server.topic p)
                  ((server.mastery_score p + score) / 2)%Qc
                  (server.study_time_minutes p)
                  (server.quizzes_taken p + 1) now in
      (p', <[i := p']> (server.progress db))
  | None =>
      let p' := server.new_Progress
                  (server.next_id (server.progress_id <$> server.progress db))
                  user_id topic (Some score) None (Some 1) now in
      (p', server.progress db ++ [p'])
  end.

(** [QuizResult(...)] as [submit_quiz] builds it. *)
Definition quiz_result (now : Z) (submission : server.QuizSubmit)
    (quiz : server.Quiz) (correct total : nat) : server.QuizResult :=
  server.mkQuizResult (server.quiz_id quiz) (server.submit_user_id submission)
    (server.score_of correct total) total (server.answers submission) now.

Definition submit_quiz (now : Z) (submission : server.QuizSubmit)
    (db : server.DB) : result server.SubmitResponse * server.DB :=
  match execute eng (SelectQuiz (server.submit_quiz_id submission)) with
  | Raise e => (Raise e, db)
  | Ok _ =>
  match server.find_quiz db (server.submit_quiz_id submission) with
  | None => (Raise (HTTPException 404 "Quiz not found"), db)
  | Some (_, quiz) =>
  match grade quiz (server.answers submission) with
  | Raise e => (Raise e, db)
  | Ok (correct, total) =>
      let score := server.score_of correct total in
      let result := quiz_result now submission quiz correct total in
      match execute eng (SelectProgress (server.submit_user_id submission)
                           (server.quiz_topic quiz)) with
      | Raise e => (Raise e, db)
      | Ok _ =>
          let '(progress, rows) :=
            quiz_progress now (server.submit_user_id submission)
              (server.quiz_topic quiz) score db in
          match execute eng (Commit [QuizResultRow result;
                                     ProgressRow progress]) with
          | Raise e => (Raise e, db)
          | Ok _ =>
              let db' := server.mkDB (server.quizzes db)
                           (server.quiz_results db ++ [result]) rows in
              match execute eng (Refresh (QuizResultRow result)) with
              | Raise e => (Raise e, db')
              | Ok _ =>
                  (Ok (server.mkSubmitResponse score correct total
                         (score * Qc_of_Z 100)%Qc), db')
              end
          end
      end
  end end end.

(** [generate_quiz]: the whole body sits in [try], so a refusal of the
    engine becomes an HTTP 500 like a failure of the model; a refusal of
    the refresh comes after the commit. *)
Definition generate_quiz (env : routes.Env) (user : Z)
    (topic content difficulty : string) (num_questions : Z)
    (t : routes.Tables) : result routes.QuizResponse * routes.Tables :=
  match quiz_generator.generate_quiz (routes.quiz env) topic content
          difficulty num_questions with
  | Raise e => (routes.internal_error env e, t)
  | Ok questions =>
      let id := server.next_id
                  (server.quiz_id <$> server.quizzes (routes.core t)) in
      let quiz := server.mkQuiz id user topic questions difficulty in
      match execute eng (Commit [QuizRow quiz]) with
      | Raise e => (routes.internal_error env e, t)
      | Ok _ =>
          let t' := routes.with_core
                      (server.mkDB (server.quizzes (routes.core t) ++ [quiz])
                         (server.quiz_results (routes.core t))
                         (server.progress (routes.core t))) t in
          match execute eng (Refresh (QuizRow quiz)) with
          | Raise e => (routes.internal_error env e, t')
          | Ok _ =>
              (Ok (routes.mkQuizResponse id topic questions difficulty), t')
          end
      end
  end.

Definition generate_knowledge_graph (env : routes.Env) (now : Z)
    (user document : Z) (content topic : string) (t : routes.Tables)
  : result (Z * Json) * routes.Tables :=
  match knowledge_graph.build_graph (routes.graph env) content topic with
  | Raise e => (routes.internal_error env e, t)
  | Ok graph_data =>
      let id := server.next_id
                  (routes.graph_id <$> routes.knowledge_graphs t) in
      let kg := routes.mkKnowledgeGraphRow id user document graph_data now in
      match execute eng (Commit [KnowledgeGraphRow kg]) with
      | Raise e => (routes.internal_error env e, t)
      | Ok _ =>
          let t' := routes.mkTables (routes.core t) (routes.users t)
                      (routes.documents t) (routes.conversations t)
                      (routes.messages t) (routes.knowledge_graphs t ++ [kg]) in
          match execute eng (Refresh (KnowledgeGraphRow kg)) with
          | Raise e => (routes.internal_error env e, t')
          | Ok _ => (Ok (id, graph_data), t')
          end
      end
  end.

(** The two lookups at the head of [query_rag]; the second is made only
    when the user has a conversation. *)
Definition load_previous_messages (user : Z) (t : routes.Tables)
  : result (list rag_system.Message) :=
  _ ← execute eng (SelectConversation user);
  match list_find (λ c, routes.conversation_user_id c = user)
          (routes.conversations t) with
  | Some (_, conversation) =>
      _ ← execute eng (SelectMessages (routes.conversation_id conversation));
      Ok ((λ m, rag_system.Turn (routes.role m) (routes.content m))
            <$> filter (λ m, routes.message_conversation_id m
                             = routes.conversation_id conversation)
                  (routes.messages t))
  | None => Ok []
  end.

Definition query_rag (env : routes.Env) (query : string) (user : Z)
    (mode : string) (t : routes.Tables) (vs : rag_system.Store)
  : result rag_system.Answer :=
  try_except
    (previous_messages ← load_previous_messages user t;
     rag_system.query_documents (routes.rag env) vs query user mode
       (Some previous_messages))
    (routes.internal_error env).

End WithEngine.
End api.

(** ** Notions used by the statements about table rows *)

Module table_props.

(** [x], at position [i], is the first row of [rows] that satisfies [P]:
    the row [.filter(...).first()] is to return. *)
Definition first_row {A} (P : A → Prop) (rows : list A) (i : nat) (x : A)
  : Prop :=
  rows !! i = Some x ∧ P x
  ∧ ∀ j y, rows !! j = Some y → (j < i)%nat → ¬ P y.

(** No row of [rows] satisfies [P]. *)
Definition no_row {A} (P : A → Prop) (rows : list A) : Prop :=
  ∀ x, x ∈ rows → ¬ P x.

(** What a route comes to that looks up with [lookup], commits
    [written] and refreshes [refreshed], verdict by verdict: a refused
    lookup or commit raises and leaves [before] stored; a refused refresh
    raises with [after] stored; otherwise [value] is returned with [after]
    stored. *)
Definition settles {A S} (eng : database.Engine) (run : result A * S)
    (lookup : database.Statement) (written : list database.Row)
    (refreshed : database.Row) (value : A) (before after : S) : Prop :=
  (∀ e, database.execute eng lookup = Raise e → run = (Raise e, before))
  ∧ (database.execute eng lookup = Ok () →
     (∀ e, database.execute eng (database.Commit written) = Raise e →
           run = (Raise e, before))
     ∧ (database.execute eng (database.Commit written) = Ok () →
        (∀ e, database.execute eng (database.Refresh refreshed) = Raise e →
              run = (Raise e, after))
        ∧ (database.execute eng (database.Refresh refreshed) = Ok () →
           run = (Ok value, after)))).

(** The first statement the engine refuses among a commit of [written]
    and a refresh of [refreshed] is refused with [e]; the same with a
    lookup before them. *)
Definition refuses_write (eng : database.Engine) (e : Exn)
    (written : list database.Row) (refreshed : database.Row) : Prop :=
  database.execute eng (database.Commit written) = Raise e
  ∨ (database.execute eng (database.Commit written) = Ok ()
     ∧ database.execute eng (database.Refresh refreshed) = Raise e).

Definition refuses (eng : database.Engine) (e : Exn)
    (lookup : database.Statement) (written : list database.Row)
    (refreshed : database.Row) : Prop :=
  database.execute eng lookup = Raise e
  ∨ (database.execute eng lookup = Ok ()
     ∧ refuses_write eng e written refreshed).

(** The key [/quiz/submit] and [/progress/update] look a progress row up
    by. *)
Definition for_pair (user_id : Z) (topic : string) (p : server.Progress)
  : Prop :=
  server.user_id p = user_id ∧ server.topic p = topic.

End table_props.

(** ** Notions used by the statements about the routes *)

Module routes_props.
Import routes.

(** The pair a progress row is looked up by. *)
Definition progress_key (p : server.Progress) : Z * string :=
  (server.user_id p, server.topic p).

(** A score or mastery value between 0 and 1. *)
Definition unit_range (q : Qc) : Prop := (0 ≤ q)%Qc ∧ (q ≤ 1)%Qc.

(** Every chunk of the vector store belongs to a row of [documents]: it
    carries that row's id and owner, and sits in that owner's
    collection. *)
Definition chunks_registered (t : Tables) (vs : rag_system.Store) : Prop :=
  ∀ name e,
    e ∈ rag_system.collection vs name →
    ∃ row,
      row ∈ documents t
      ∧ name = rag_system.collection_name (SInt (document_user_id row))
      ∧ rag_system.metadata (rag_system.entry_doc e) !! "user_id"
        = Some (SInt (document_user_id row))
      ∧ rag_system.metadata (rag_system.entry_doc e) !! "doc_id"
        = Some (SInt (document_id row)).

(** The quizzes a user has taken according to the progress table. *)
Definition quizzes_in_progress (user : Z) (db : server.DB) : Z :=
  sum_Z (server.quizzes_taken
           <$> filter (λ p, server.user_id p = user) (server.progress db)).

End routes_props.

(** ** Notions used by the statements about the graph builder *)

Module graph_props.

(** [node'] is [node] as the last loop of [build_graph] leaves it: the
    same object, or the same object with its [x] and [y] set. *)
Definition positioned (node node' : Json) : Prop :=
  node' = node
  ∨ ∃ d x y,
      node = JDict d
      ∧ node' = JDict (dict_set "y" (JFloat y) (dict_set "x" (JFloat x) d)).

End graph_props.

(** ** Derived notions used by the statements *)

Module rag_props.
Import rag_system.

(** A stage of the pipeline raises: the rewrite stage, the retrieval
    stage on the rewritten state, or the generation stage on the state
    that holds the retrieved context. *)
Inductive stage_raises (env : Env) (vs : Store) (s0 : RAGState) : Exn → Prop :=
  | rewrite_raises e :
      _analyze_query env s0 = Raise e → stage_raises env vs s0 e
  | retrieve_raises sq e :
      _analyze_query env s0 = Ok sq →
      _retrieve env vs
        (mkRAGState (question s0) sq (context s0) (messages s0) (answer s0))
        = Raise e →
      stage_raises env vs s0 e
  | generate_raises sq docs e :
      _analyze_query env s0 = Ok sq →
      _retrieve env vs
        (mkRAGState (question s0) sq (context s0) (messages s0) (answer s0))
        = Ok docs →
      _generate env
        (mkRAGState (question s0) sq (Some docs) (messages s0) (answer s0))
        = Raise e →
      stage_raises env vs s0 e.

(** The stores that exist: the empty persist directory, and whatever a
    successful [index_document] leaves behind, whichever way the
    collaborators behaved during that upload. *)
Inductive reachable : Store → Prop :=
  | reach_empty : reachable ∅
  | reach_index env vs file_path user_id doc_id n vs' :
      reachable vs →
      index_document env file_path user_id doc_id vs = Ok (n, vs') →
      reachable vs'.

(** [c] is one of the chunks that [index_document file_path user_id
    doc_id] hands to the store. *)
Definition written_by (env : Env) (file_path : string) (user_id doc_id : Z)
    (c : Document) : Prop :=
  ∃ pages, loader env file_path = Ok pages
           ∧ c ∈ tag_chunk user_id doc_id <$> split_documents env pages.
End rag_props.

(** ** Sample environments *)

Module samples.
Import rag_system.

Definition unavailable {A} : result A := Raise (External "provider unavailable").

(** Every call to the hosted model or the embedding service fails. *)
Definition env_down : Env :=
  mkEnv (λ _, unavailable) (λ _, unavailable) (λ _, unavailable)
        (λ _, unavailable) (λ _, unavailable) (λ _ _, 0%Qc)
        (λ _, Raise (External "file not found")) Chunker.split_text.

(** A working provider whose structured output has exactly the keys of
    the [Search] schema. *)
Definition env_up : Env :=
  mkEnv (λ q, Ok {["query" := SStr q; "section" := SStr "beginning"]})
        (λ _, Ok "grounded answer")
        (λ prompt, Ok ("direct answer to " +:+ prompt))
        (λ texts, Ok ((λ t, [Z.of_nat (String.length t)]) <$> texts))
        (λ _, Ok [1])
        (λ _ _, 0%Qc)
        (λ file_path, Ok [mkDocument ("contents of " +:+ file_path)
                                     {["page" := SInt 0]}])
        Chunker.split_text.

(** A provider whose structured output also names an owner and asks for
    the given section; its chat call echoes the system instruction it was
    given. *)
Definition env_naming (user_id : Z) (section : string) : Env :=
  mkEnv (λ q, Ok {["user_id" := SInt user_id; "query" := SStr q;
                   "section" := SStr section]})
        (λ msgs, match msgs with
                 | SystemMessage content :: _ => Ok content
                 | _ => Ok "no system instruction"
                 end)
        (llm_ainvoke env_up) (embed_documents env_up) (embed_query env_up)
        (similarity env_up) (loader env_up) (splitter env_up).

(** A loader whose pages carry a [section] tag, so that the section
    filter of the retrieval stage has something to accept. *)
Definition env_sections : Env :=
  mkEnv (llm_structured env_up) (llm_invoke env_up) (llm_ainvoke env_up)
        (embed_documents env_up) (embed_query env_up) (similarity env_up)
        (λ _, Ok [mkDocument "osmosis moves water across a membrane"
                             {["section" := SStr "beginning"]}])
        (splitter env_up).

(** The store left by a sequence of uploads [(file, owner, document)];
    a failed upload leaves the store as it was. *)
Definition store_after (env : Env) (uploads : list (string * Z * Z)) : Store :=
  foldl (λ vs '(file_path, user_id, doc_id),
           match index_document env file_path user_id doc_id vs with
           | Ok (_, vs') => vs'
           | Raise _ => vs
           end) ∅ uploads.

(** Two owners upload documents with the same text. *)
Definition two_owner_store : Store :=
  store_after env_sections [("a.pdf", 1, 10); ("b.pdf", 2, 20)].

Definition osmosis_chunk (user_id doc_id : Z) : Document :=
  mkDocument "osmosis moves water across a membrane"
    {["section" := SStr "beginning"; "user_id" := SInt user_id;
      "doc_id" := SInt doc_id]}.

(** A state entering the retrieval stage on behalf of [user_id]. *)
Definition retrieval_state (user_id : Z) : RAGState :=
  mkRAGState "What is osmosis?"
    {["user_id" := SInt user_id; "query" := SStr "osmosis";
      "section" := SStr "beginning"]}
    None [] None.

(** A stored quiz of two well-formed questions, and one whose single
    question came back from the model without a [correct_answer]. *)
Definition question (text answer : string) : Json :=
  JDict [("question", JStr text);
         ("options", JList [JStr "A) yes"; JStr "B) no"; JStr "C) both";
                            JStr "D) neither"]);
         ("correct_answer", JStr answer);
         ("explanation", JStr "see the notes")].

Definition quiz_db : server.DB :=
  server.mkDB
    [server.mkQuiz 1 5 "biology"
       (JList [question "Is osmosis passive?" "A";
               question "Is ATP a lipid?" "B"]) "medium";
     server.mkQuiz 2 5 "chemistry"
       (JList [JDict [("question", JStr "Is water polar?")]]) "easy"]
    []
    [server.mkProgress 1 5 "biology" (Qc_of_Z 1) 30 2 90].

(** A parser that knows one well-formed graph text and rejects every other
    input, a layout that puts every node at (1/2, -1/2), and a model that
    answers the prompt with plain prose. *)
Definition graph_text : string := "{ nodes: [cell], edges: [] }".

Definition graph_json : Json :=
  JDict [("nodes", JList [JDict [("id", JStr "cell"); ("label", JStr "Cell");
                                 ("type", JStr "core")]]);
         ("edges", JList [])].

Definition toy_json_loads (text : string) : result Json :=
  if decide (text = graph_text) then Ok graph_json
  else Raise (ValueError "Expecting value").

Definition toy_layout (nodes : list Json) (edges : list (Json * Json))
  : result (list (Json * (Qc * Qc))) :=
  Ok ((λ n, (n, ((Qc_of_Z 1 / Qc_of_Z 2)%Qc, (- (Qc_of_Z 1 / Qc_of_Z 2))%Qc)))
        <$> nodes).

Definition kg_prose : knowledge_graph.Env :=
  knowledge_graph.mkEnv (λ _, Ok "Sorry, I cannot extract concepts.")
    toy_json_loads toy_layout.

Definition kg_graph : knowledge_graph.Env :=
  knowledge_graph.mkEnv (λ _, Ok ("Here you go: " +:+ graph_text +:+ " Done."))
    toy_json_loads toy_layout.
End samples.

(** ** Sample requests *)

Module api_samples.
Import routes.

(** A quiz model that answers in prose, with the parser of [samples]
    that rejects it. *)
Definition quiz_plain : quiz_generator.Env :=
  quiz_generator.mkEnv (λ _, Ok "I cannot write a quiz about this.")
    samples.toy_json_loads.

Definition api : Env :=
  mkEnv samples.env_up quiz_plain samples.kg_graph (λ _, "internal error").

(** A request to one of the routes that write. *)
Inductive Request : Type :=
  | PostUsers (now : Z) (name email : string)
  | PostDocumentsUpload (env : Env) (file_path filename : string)
      (saved : result ()) (user now : Z)
  | PostConversations (uuid : string) (now user : Z) (mode : string)
  | PostQuizGenerate (env : Env) (user : Z) (topic content difficulty : string)
      (num_questions : Z)
  | PostQuizSubmit (now : Z) (submission : server.QuizSubmit)
  | PostProgressUpdate (now : Z) (progress_data : server.ProgressUpdate)
  | PostKnowledgeGraphGenerate (env : Env) (now user document : Z)
      (content topic : string).

(** The stored state after a request; a request that fails before it
    commits leaves the state as it was. *)
Definition handle (s : Tables * rag_system.Store) (r : Request)
  : Tables * rag_system.Store :=
  let '(t, vs) := s in
  match r with
  | PostUsers now name email => ((create_user now name email t).2, vs)
  | PostDocumentsUpload env file_path filename saved user now =>
      let out := upload_document env file_path filename saved user now t vs in
      (out.1.2, out.2)
  | PostConversations uuid now user mode =>
      match create_conversation uuid now user mode t with
      | Ok (_, t') => (t', vs)
      | Raise _ => (t, vs)
      end
  | PostQuizGenerate env user topic content difficulty num_questions =>
      ((generate_quiz env user topic content difficulty num_questions t).2, vs)
  | PostQuizSubmit now submission =>
      match server.submit_quiz now submission (core t) with
      | Ok (_, db') => (with_core db' t, vs)
      | Raise _ => (t, vs)
      end
  | PostProgressUpdate now progress_data =>
      (with_core (server.update_progress now progress_data (core t)).2 t, vs)
  | PostKnowledgeGraphGenerate env now user document content topic =>
      ((generate_knowledge_graph env now user document content topic t).2, vs)
  end.

Definition run (requests : list Request) : Tables * rag_system.Store :=
  foldl handle (empty_tables, ∅) requests.

(** One user signs up, uploads a document, takes the quiz generated for
    it, logs study time and asks for the document's graph. *)
Definition session : list Request :=
  [PostUsers 100 "Ada" "ada@example.org";
   PostDocumentsUpload api "uploads/1f0e_cells.pdf" "cells.pdf" (Ok ()) 1 101;
   PostConversations "0b7c" 102 1 "Quick Learner";
   PostQuizGenerate api 1 "biology" "The cell is the unit of life." "medium" 1;
   PostQuizSubmit 103 (server.mkQuizSubmit 1 1 {["0" := JStr "A"]});
   PostProgressUpdate 104 (server.mkProgressUpdate 1 "biology" 30);
   PostQuizSubmit 105 (server.mkQuizSubmit 1 1 {["0" := JStr "B"]});
   PostKnowledgeGraphGenerate api 106 1 1 "The cell is the unit of life."
     "cells"].

(** An upload whose pages carry a [section] tag, and a model whose
    structured output names the owner and that section. *)
Definition api_sections : Env :=
  mkEnv samples.env_sections quiz_plain samples.kg_graph
    (λ _, "internal error").

Definition api_naming : Env :=
  mkEnv (samples.env_naming 1 "beginning") quiz_plain samples.kg_graph
    (λ _, "internal error").

Definition one_upload : list Request :=
  [PostDocumentsUpload api_sections "uploads/9a_osmosis.pdf" "osmosis.pdf"
     (Ok ()) 1 101].

End api_samples.

(** ** Sample tables *)

Module db_samples.

(** One quiz and three progress rows: another user on the quiz's topic,
    the quiz's user on another topic, and the quiz's user on its topic. *)
Definition biology_quiz : server.Quiz :=
  server.mkQuiz 1 5 "biology"
    (JList [samples.question "Is osmosis passive?" "A";
            samples.question "Is ATP a lipid?" "B"]) "medium".

Definition other_user_row : server.Progress :=
  server.mkProgress 1 9 "biology" 0%Qc 10 1 80.

Definition other_topic_row : server.Progress :=
  server.mkProgress 2 5 "chemistry" 0%Qc 20 0 85.

Definition biology_row : server.Progress :=
  server.mkProgress 3 5 "biology" (Qc_of_Z 1) 30 2 90.

Definition shared_db : server.DB :=
  server.mkDB [biology_quiz] []
    [other_user_row; other_topic_row; biology_row].

End db_samples.

(** * Properties *)

(** ** Chunker *)

Section ChunkerFacts.
Context {A : Type}.
Implicit Types t : list A.
Import Chunker.

Lemma windows_short cs ov fuel t :
  (length t ≤ cs)%nat → windows cs ov fuel t = [t].
Proof.
  intros Hle. destruct fuel as [|fuel]; simpl; [done|].
  by rewrite decide_True.
Qed.

(** With a positive stride, [length t] units of fuel are never used up:
    more fuel does not change the windows. *)
Lemma windows_fuel cs ov t :
  (ov < cs)%nat →
  ∀ fuel, (length t ≤ fuel)%nat →
    windows cs ov fuel t = windows cs ov (length t) t.
Proof.
  intros Hov. remember (length t) as n eqn:Hn.
  revert t Hn. induction (lt_wf n) as [n _ IH]. intros t -> fuel Hfuel.
  destruct (decide (length t ≤ cs)%nat) as [Hs|Hl].
  { by rewrite !windows_short. }
  destruct fuel as [|fuel]; [lia|].
  destruct (length t) as [|m] eqn:Hlen; [lia|].
  simpl. rewrite !decide_False by lia. f_equal.
  assert (Hd : (length (drop (cs - ov) t) < S m)%nat)
    by (rewrite length_drop; lia).
  rewrite (IH _ Hd _ eq_refl fuel) by lia.
  by rewrite (IH _ Hd _ eq_refl m) by lia.
Qed.

(** The loop equation of the splitter. *)
Lemma split_unfold cs ov t :
  (ov < cs)%nat →
  split cs ov t =
    if decide (length t ≤ cs)%nat then [t]
    else take cs t :: split cs ov (drop (cs - ov) t).
Proof.
  intros Hov. unfold split. case_decide as Hc.
  { by apply windows_short. }
  destruct (length t) as [|m] eqn:Hlen; [lia|].
  simpl. rewrite decide_False by lia. f_equal.
  apply windows_fuel; [done|]. rewrite length_drop. lia.
Qed.

Lemma split_drop_overlap cs ov t :
  (ov < cs)%nat → (ov ≤ length t)%nat →
  concat (map (drop ov) (split cs ov t)) = drop ov t.
Proof.
  intros Hov. remember (length t) as n eqn:Hn.
  revert t Hn. induction (lt_wf n) as [n _ IH]. intros t -> Hlen.
  rewrite split_unfold by done. case_decide as Hc; simpl.
  { by rewrite app_nil_r. }
  rewrite (IH (length (drop (cs - ov) t))) ; try done.
  - rewrite drop_drop, skipn_firstn_comm.
    replace (cs - ov + ov)%nat with (ov + (cs - ov))%nat by lia.
    rewrite <-drop_drop. apply take_drop.
  - rewrite length_drop. lia.
  - rewrite length_drop. lia.
Qed.

Lemma split_reassemble cs ov t :
  (ov < cs)%nat → reassemble ov (split cs ov t) = t.
Proof.
  intros Hov. rewrite split_unfold by done. case_decide as Hc; simpl.
  { by rewrite app_nil_r. }
  rewrite split_drop_overlap; [|done|rewrite length_drop; lia].
  rewrite drop_drop.
  replace (cs - ov + ov)%nat with cs by lia. apply take_drop.
Qed.

Lemma split_head cs ov t :
  (ov < cs)%nat → ∃ c rest, split cs ov t = c :: rest ∧ c = take cs t.
Proof.
  intros Hov. rewrite split_unfold by done. case_decide; eauto.
  eexists _, _. split; [done|]. by rewrite take_ge.
Qed.

Lemma split_overlapping cs ov t :
  (ov < cs)%nat → overlapping ov (split cs ov t).
Proof.
  intros Hov. remember (length t) as n eqn:Hn.
  revert t Hn. induction (lt_wf n) as [n _ IH]. intros t ->.
  rewrite split_unfold by done. case_decide as Hc; [done|].
  assert (Hd : (length (drop (cs - ov) t) < length t)%nat)
    by (rewrite length_drop; lia).
  specialize (IH _ Hd _ eq_refl).
  destruct (split_head cs ov (drop (cs - ov) t) Hov) as (c & rest & Hs & ->).
  rewrite Hs in IH |- *. simpl. rewrite length_take.
  split_and!; [lia| |done].
  rewrite Nat.min_l by lia. rewrite skipn_firstn_comm.
  replace (cs - (cs - ov))%nat with ov by lia.
  rewrite take_take. f_equal. lia.
Qed.

(** C6: for every text [T], the chunks of [text_splitter T] reassemble to
    [T] exactly when the first 200 characters of every chunk but the
    first are dropped, and each chunk's last 200 characters are the first
    200 of its successor. *)
Theorem C6_split_roundtrip t :
  reassemble chunk_overlap (text_splitter t) = t
  ∧ overlapping chunk_overlap (text_splitter t).
Proof.
  unfold text_splitter, chunk_overlap, chunk_size. split.
  - apply split_reassemble. lia.
  - apply split_overlapping. lia.
Qed.

(** C7: a text shorter than [chunk_size] = 1000 characters is returned as
    exactly one chunk, equal to the text. *)
Theorem C7_split_short t :
  (length t < chunk_size)%nat → text_splitter t = [t].
Proof.
  intros Hlt. unfold text_splitter, split. apply windows_short. lia.
Qed.
End ChunkerFacts.

Lemma C7_split_short_witness :
  (length (list_ascii_of_string "photosynthesis") < Chunker.chunk_size)%nat
  ∧ Chunker.text_splitter (list_ascii_of_string "photosynthesis")
    = [list_ascii_of_string "photosynthesis"].
Proof.
  split; [vm_compute; lia | apply C7_split_short; vm_compute; lia].
Defined.

(** ** rag_system.py *)

Section IndexFacts.
Import rag_system rag_props.
Context (env : Env).
Implicit Types (vs : Store) (d : Document).

(** *** Indexing *)

Lemma entry_doc_zip (chunks : list Document) (vecs : list Vec) :
  length vecs = length chunks →
  entry_doc <$> zip_with mkEntry chunks vecs = chunks.
Proof.
  revert vecs. induction chunks as [|c chunks IH]; intros [|v vecs] Hlen;
    simplify_eq/=; [done|]. f_equal. by apply IH.
Qed.

Lemma add_documents_ok name chunks vs vs' :
  add_documents env name chunks vs = Ok vs' →
  ∃ vecs, embed_documents env (page_content <$> chunks) = Ok vecs
          ∧ length vecs = length chunks
          ∧ vs' = <[name := collection vs name ++ zip_with mkEntry chunks vecs]> vs.
Proof.
  unfold add_documents.
  destruct (embed_documents env _) as [vecs|e]; simpl; [|done].
  case_decide; [|done]. intros [= <-]. eauto.
Qed.

Lemma index_document_ok file_path user_id doc_id vs n vs' :
  index_document env file_path user_id doc_id vs = Ok (n, vs') →
  ∃ pages vecs,
    loader env file_path = Ok pages
    ∧ embed_documents env
        (page_content <$> (tag_chunk user_id doc_id <$> split_documents env pages))
      = Ok vecs
    ∧ length vecs = length (split_documents env pages)
    ∧ n = length (split_documents env pages)
    ∧ vs' = <[collection_name (SInt user_id) :=
                collection vs (collection_name (SInt user_id))
                ++ zip_with mkEntry
                     (tag_chunk user_id doc_id <$> split_documents env pages)
                     vecs]> vs.
Proof.
  unfold index_document.
  destruct (loader env file_path) as [pages|e]; simpl; [|done].
  destruct (add_documents _ _ _) as [vs1|e] eqn:Hadd; simpl; [|done].
  intros [= <- <-].
  apply add_documents_ok in Hadd as (vecs & Hemb & Hlen & ->).
  rewrite length_fmap in Hlen. exists pages, vecs.
  by rewrite length_fmap.
Qed.

Lemma tag_chunk_owner user_id doc_id c :
  metadata (tag_chunk user_id doc_id c) !! "user_id" = Some (SInt user_id)
  ∧ metadata (tag_chunk user_id doc_id c) !! "doc_id" = Some (SInt doc_id).
Proof.
  unfold tag_chunk. simpl. split.
  - rewrite lookup_insert_ne by done. apply lookup_insert_eq.
  - apply lookup_insert_eq.
Qed.

(** C4: when [index_document] returns [n], the document was loaded, [n]
    is the number of chunks the splitter produced, exactly these chunks
    were appended to the owner's collection (no other collection changed),
    and each of them carries the owner id and the document id; it does
    return once the loader and the embedding service answer; an exception
    of the loader or of the embedding call is the outcome of
    [index_document] itself. *)
Theorem C4_index_document file_path user_id doc_id vs :
  (∀ n vs', index_document env file_path user_id doc_id vs = Ok (n, vs') →
     ∃ pages,
       let chunks := tag_chunk user_id doc_id <$> split_documents env pages in
       loader env file_path = Ok pages
       ∧ n = length (split_documents env pages)
       ∧ n = length chunks
       ∧ entry_doc <$> collection vs' (collection_name (SInt user_id))
         = (entry_doc <$> collection vs (collection_name (SInt user_id))) ++ chunks
       ∧ (∀ other, other ≠ collection_name (SInt user_id) →
                   vs' !! other = vs !! other)
       ∧ Forall (λ c, metadata c !! "user_id" = Some (SInt user_id)
                      ∧ metadata c !! "doc_id" = Some (SInt doc_id)) chunks)
  ∧ (∀ pages vecs,
       loader env file_path = Ok pages →
       embed_documents env
         (page_content <$> (tag_chunk user_id doc_id <$> split_documents env pages))
       = Ok vecs →
       length vecs = length (split_documents env pages) →
       ∃ vs', index_document env file_path user_id doc_id vs
              = Ok (length (split_documents env pages), vs'))
  ∧ (∀ e, loader env file_path = Raise e →
          index_document env file_path user_id doc_id vs = Raise e)
  ∧ (∀ pages e,
       loader env file_path = Ok pages →
       embed_documents env
         (page_content <$> (tag_chunk user_id doc_id <$> split_documents env pages))
       = Raise e →
       index_document env file_path user_id doc_id vs = Raise e).
Proof.
  split_and!.
  - intros n vs' (pages & vecs & Hload & Hemb & Hlen & -> & ->)%index_document_ok.
    exists pages. simpl. split_and!; try done.
    + by rewrite length_fmap.
    + unfold collection at 1. rewrite lookup_insert_eq. simpl.
      rewrite fmap_app, entry_doc_zip; [done|]. by rewrite length_fmap.
    + intros other Hne. by rewrite lookup_insert_ne.
    + apply Forall_fmap, Forall_forall. intros c _. apply tag_chunk_owner.
  - intros pages vecs Hload Hemb Hlen. unfold index_document, add_documents.
    rewrite Hload. simpl. rewrite Hemb. simpl.
    rewrite decide_True by (by rewrite length_fmap).
    simpl. rewrite length_fmap. eauto.
  - intros e He. unfold index_document. by rewrite He.
  - intros pages e Hload He. unfold index_document, add_documents.
    rewrite Hload. simpl. by rewrite He.
Qed.

(** *** Collections and owners *)

Lemma string_length_app (s t : string) :
  String.length (s +:+ t) = (String.length s + String.length t)%nat.
Proof. induction s as [|a s IH]; simpl; [done|]. by rewrite IH. Qed.

Lemma string_app_inj_r (s1 s2 t : string) : s1 +:+ t = s2 +:+ t → s1 = s2.
Proof.
  revert s2. induction s1 as [|a s1 IH]; intros [|b s2] Heq; simpl in *.
  - done.
  - apply (f_equal String.length) in Heq. simpl in Heq.
    rewrite !string_length_app in Heq. simpl in Heq. lia.
  - apply (f_equal String.length) in Heq. simpl in Heq.
    rewrite !string_length_app in Heq. simpl in Heq. lia.
  - injection Heq as -> Heq. f_equal. by apply IH.
Qed.

(** Distinct owner ids name distinct collections. *)
Lemma collection_name_inj (a b : Z) :
  collection_name (SInt a) = collection_name (SInt b) → a = b.
Proof.
  unfold collection_name. simpl. intros Heq.
  apply (inj (String.app "user_")) in Heq.
  apply string_app_inj_r in Heq. by apply (inj pretty).
Qed.

End IndexFacts.

(** In a store that indexing built, the collection of an owner holds
    only chunks tagged with that owner. *)
Lemma reachable_owner_tagged (vs : rag_system.Store) :
  rag_props.reachable vs →
  ∀ user_id e,
    e ∈ rag_system.collection vs (rag_system.collection_name (SInt user_id)) →
    rag_system.metadata (rag_system.entry_doc e) !! "user_id"
    = Some (SInt user_id).
Proof.
  induction 1 as [|env vs file_path uid doc_id n vs' _ IH Hidx]; intros user_id e.
  - unfold rag_system.collection. rewrite lookup_empty. simpl.
    by intros ?%elem_of_nil.
  - apply index_document_ok in Hidx as (pages & vecs & _ & _ & Hlen & _ & ->).
    unfold rag_system.collection at 1.
    destruct (decide (rag_system.collection_name (SInt uid)
                      = rag_system.collection_name (SInt user_id)))
      as [Heq|Hne].
    + rewrite Heq, lookup_insert_eq. simpl.
      apply collection_name_inj in Heq as ->.
      intros [Hold|Hnew]%elem_of_app; [by apply IH|].
      assert (Hdoc : rag_system.entry_doc e ∈ rag_system.entry_doc <$>
                zip_with rag_system.mkEntry
                  (rag_system.tag_chunk user_id doc_id
                     <$> rag_system.split_documents env pages) vecs)
        by (by apply list_elem_of_fmap_2).
      rewrite entry_doc_zip in Hdoc by (by rewrite length_fmap).
      apply list_elem_of_fmap in Hdoc as (c & -> & _).
      apply tag_chunk_owner.
    + rewrite lookup_insert_ne by done. apply IH.
Qed.

Section PipelineFacts.
Import rag_system rag_props.
Context (env : Env).
Implicit Types (vs : Store) (d : Document).

(** *** The fallback of [query_documents] *)

Lemma graph_invoke_raises vs s0 e :
  graph_invoke env vs s0 = Raise e ↔ stage_raises env vs s0 e.
Proof.
  unfold graph_invoke. split.
  - destruct (_analyze_query env s0) as [sq|e1] eqn:H1; simpl.
    2:{ intros [= ->]. by apply rewrite_raises. }
    destruct (_retrieve env vs _) as [docs|e2] eqn:H2; simpl.
    2:{ intros [= ->]. by eapply retrieve_raises. }
    destruct (_generate env _) as [c|e3] eqn:H3; simpl; [done|].
    intros [= ->]. by eapply generate_raises.
  - intros [e' H1|sq e' H1 H2|sq docs e' H1 H2 H3].
    + by rewrite H1.
    + rewrite H1. simpl. by rewrite H2.
    + rewrite H1. simpl. rewrite H2. simpl. by rewrite H3.
Qed.

Lemma graph_invoke_final vs s0 s :
  graph_invoke env vs s0 = Ok s → is_Some (answer s) ∧ is_Some (context s).
Proof.
  unfold graph_invoke.
  destruct (_analyze_query env s0); simpl; [|done].
  destruct (_retrieve env vs _); simpl; [|done].
  destruct (_generate env _); simpl; [|done].
  intros [= <-]. simpl. eauto.
Qed.

Lemma run_pipeline_raises vs q uid msgs e :
  run_pipeline env vs q uid msgs = Raise e
  ↔ stage_raises env vs (initial_state q uid msgs) e.
Proof.
  rewrite <-graph_invoke_raises. unfold run_pipeline.
  destruct (graph_invoke env vs _) as [s|e'] eqn:Hg; simpl.
  2:{ split; intros [= ->]; done. }
  destruct (graph_invoke_final _ _ _ Hg) as [[a ->] [docs ->]].
  split; intros [=].
Qed.

(** C1 (as amended): when a stage of the pipeline raises,
    [query_documents] is the direct model call on ["<mode>: <question>"]:
    if that call returns [a], the result is [a] with no sources; if that
    call raises, its exception reaches the caller. *)
Theorem C1_query_documents_fallback vs q uid mode msgs e :
  stage_raises env vs (initial_state q uid msgs) e →
  (∀ a, llm_ainvoke env (mode +:+ ": " +:+ q) = Ok a →
        query_documents env vs q uid mode msgs = Ok (mkAnswer a []))
  ∧ (∀ e', llm_ainvoke env (mode +:+ ": " +:+ q) = Raise e' →
        query_documents env vs q uid mode msgs = Raise e').
Proof.
  intros Hs%run_pipeline_raises. unfold query_documents, fallback.
  rewrite Hs. simpl. split; intros ? ->; done.
Qed.

(** Whatever happens, a returned answer on the fallback path has no
    sources, and a provider that answers the direct call keeps
    [query_documents] from raising. *)
Lemma query_documents_returns vs q uid mode msgs a :
  llm_ainvoke env (mode +:+ ": " +:+ q) = Ok a →
  returns (query_documents env vs q uid mode msgs).
Proof.
  intros Ha. unfold query_documents, fallback, returns.
  destruct (run_pipeline env vs q uid msgs); simpl; [eauto|].
  rewrite Ha. simpl. eauto.
Qed.

Lemma filterM_ok keep l kept :
  filterM keep l = Ok kept →
  ∀ e, e ∈ kept → e ∈ l ∧ keep (entry_doc e) = Ok true.
Proof.
  revert kept. induction l as [|x l IH]; intros kept; simpl.
  { intros [= <-] e ?%elem_of_nil. done. }
  destruct (keep (entry_doc x)) as [b|] eqn:Hk; simpl; [|done].
  destruct (filterM keep l) as [rest|]; simpl; [|done].
  intros [= <-] e He. destruct b.
  - apply elem_of_cons in He as [->|He].
    + split; [apply list_elem_of_here|done].
    + destruct (IH rest eq_refl e He). split; [by apply list_elem_of_further|done].
  - destruct (IH rest eq_refl e He). split; [by apply list_elem_of_further|done].
Qed.

Lemma filterM_none keep l :
  (∀ e, e ∈ l → keep (entry_doc e) = Ok false) → filterM keep l = Ok [].
Proof.
  induction l as [|x l IH]; intros Hall; simpl; [done|].
  rewrite (Hall x) by apply list_elem_of_here. simpl.
  rewrite IH; [done|]. intros e He. apply Hall. by apply list_elem_of_further.
Qed.

Lemma similarity_search_ok coll text k keep docs :
  similarity_search env coll text k keep = Ok docs →
  (length docs ≤ k)%nat
  ∧ ∀ d, d ∈ docs → ∃ e, e ∈ coll ∧ d = entry_doc e ∧ keep d = Ok true.
Proof.
  unfold similarity_search.
  destruct (embed_query env text) as [qv|]; simpl; [|done].
  destruct (filterM keep coll) as [kept|] eqn:Hf; simpl; [|done].
  intros [= <-]. split.
  - rewrite length_fmap, length_take. lia.
  - intros d (e & -> & He)%list_elem_of_fmap.
    apply elem_of_take in He as (i & He & _).
    apply list_elem_of_lookup_2 in He.
    rewrite merge_sort_Permutation in He.
    destruct (filterM_ok _ _ _ Hf e He). eauto.
Qed.

Lemma retrieve_ok vs state docs :
  _retrieve env vs state = Ok docs →
  ∃ user_id, query state !! "user_id" = Some user_id
    ∧ (length docs ≤ 5)%nat
    ∧ ∀ d, d ∈ docs → d ∈ entry_doc <$> _get_vectorstore vs user_id.
Proof.
  unfold _retrieve, getitem.
  destruct (query state !! "user_id") as [user_id|]; simpl; [|done].
  destruct (query state !! "query") as [text|]; simpl; [|done].
  intros [Hlen Hin]%similarity_search_ok. exists user_id.
  split_and!; [done..|].
  intros d (e & He & -> & _)%Hin. by apply list_elem_of_fmap_2.
Qed.

(** The retrieval stage never yields more than [k] = 5 documents. *)
Lemma retrieve_length vs state docs :
  _retrieve env vs state = Ok docs → (length docs ≤ 5)%nat.
Proof. intros (? & _ & ? & _)%retrieve_ok. done. Qed.

(** In a store built by indexing, what retrieval returns for an owner
    comes from that owner's collection and is tagged with that owner. *)
Lemma retrieve_owner_tagged vs (B : Z) state docs :
  reachable vs →
  query state !! "user_id" = Some (SInt B) →
  _retrieve env vs state = Ok docs →
  ∀ d, d ∈ docs →
       d ∈ entry_doc <$> collection vs (collection_name (SInt B))
       ∧ metadata d !! "user_id" = Some (SInt B).
Proof.
  intros Hreach Huid (uid & Huid' & _ & Hin)%retrieve_ok d Hd%Hin.
  rewrite Huid in Huid'. injection Huid' as <-.
  split; [done|].
  apply list_elem_of_fmap in Hd as (e & -> & He).
  by eapply reachable_owner_tagged.
Qed.

Lemma written_by_owner file_path (A : Z) doc_id c :
  written_by env file_path A doc_id c →
  metadata c !! "user_id" = Some (SInt A).
Proof.
  intros (pages & _ & Hc). apply list_elem_of_fmap in Hc as (c0 & -> & _).
  apply tag_chunk_owner.
Qed.

(** The retrieval stage on its own: in a store built by indexing, a
    state whose [query] names owner [B] is answered only with chunks of
    [B]'s collection, each tagged with [B]; a chunk that [index_document]
    wrote for another owner [A] is never among them, whatever the texts
    are. *)
Lemma retrieve_stage_isolation vs (A B : Z) state docs :
  reachable vs →
  A ≠ B →
  query state !! "user_id" = Some (SInt B) →
  _retrieve env vs state = Ok docs →
  (∀ d, d ∈ docs →
        d ∈ entry_doc <$> collection vs (collection_name (SInt B))
        ∧ metadata d !! "user_id" = Some (SInt B))
  ∧ (∀ file_path doc_id c, written_by env file_path A doc_id c → c ∉ docs).
Proof.
  intros Hreach Hne Huid Hr.
  pose proof (retrieve_owner_tagged vs B state docs Hreach Huid Hr) as Hown.
  split; [done|].
  intros file_path doc_id c HA%written_by_owner Hd.
  destruct (Hown _ Hd) as [_ HB]. rewrite HA in HB. by injection HB.
Qed.

(** *** The retrieval stage inside the pipeline *)

Lemma string_app_nil_r (s : string) : s +:+ "" = s.
Proof.
  induction s as [|a s IH]; [done|].
  change (String a (s +:+ "") = String a s). by f_equal.
Qed.

(** A filter that accepts no stored chunk gives the empty sequence, not
    an exception. *)
Lemma retrieve_no_match vs state user_id text section qv :
  query state !! "user_id" = Some user_id →
  query state !! "query" = Some text →
  query state !! "section" = Some section →
  embed_query env text = Ok qv →
  (∀ e, e ∈ _get_vectorstore vs user_id →
        scalar_eq (default SNone (metadata (entry_doc e) !! "section")) section
        = false) →
  _retrieve env vs state = Ok [].
Proof.
  intros Hu Ht Hs Hq Hnone. unfold _retrieve, getitem, similarity_search.
  rewrite Hu, Ht. simpl. rewrite Hq. simpl.
  rewrite filterM_none; [done|].
  intros e He. unfold section_filter, getitem. rewrite Hs. simpl.
  by rewrite Hnone.
Qed.

(** Generation accepts an empty context: the system instruction then
    ends with no document text. *)
Lemma generate_empty_context state :
  context state = Some [] →
  _generate env state
  = llm_invoke env (SystemMessage system_prompt :: messages state).
Proof.
  intros Hc. unfold _generate. rewrite Hc.
  change (join (newline +:+ newline) (page_content <$> [])) with "".
  by rewrite string_app_nil_r.
Qed.

(** C3, the point where the code departs from it: the update of the
    rewrite stage replaces the [query] entry of the state, which was the
    only place holding the caller's [user_id].  Unless the structured
    output itself names a [user_id], the retrieval stage raises
    [KeyError] before any search or filter runs, the pipeline fails, and
    the answer is the one of the fallback. *)
Theorem C3_retrieve_loses_user_id vs q user_id mode msgs sq :
  llm_structured env q = Ok sq →
  sq !! "user_id" = None →
  _retrieve env vs (mkRAGState q sq None (default [] msgs) None)
    = Raise (KeyError "user_id")
  ∧ run_pipeline env vs q user_id msgs = Raise (KeyError "user_id")
  ∧ query_documents env vs q user_id mode msgs = fallback env q mode.
Proof.
  intros Hsq Hnone.
  assert (Hr : _retrieve env vs (mkRAGState q sq None (default [] msgs) None)
               = Raise (KeyError "user_id")).
  { unfold _retrieve, getitem. simpl. by rewrite Hnone. }
  assert (Hp : run_pipeline env vs q user_id msgs = Raise (KeyError "user_id")).
  { apply run_pipeline_raises. eapply retrieve_raises; [exact Hsq|exact Hr]. }
  split_and!; [done..|]. unfold query_documents. by rewrite Hp.
Qed.

(** The goal left when a stage has raised: the answer is the one of the
    [except] block, which has no sources. *)
Ltac by_fallback :=
  unfold rag_system.fallback;
  match goal with
  | |- context [rag_system.llm_ainvoke ?env ?prompt] =>
      destruct (rag_system.llm_ainvoke env prompt); simpl; [|done];
      intros [= <-]; by left
  end.

(** Every returned answer either has no sources or lists the documents
    the retrieval stage produced. *)
Lemma query_documents_sources vs q user_id mode msgs ans :
  query_documents env vs q user_id mode msgs = Ok ans →
  sources ans = []
  ∨ ∃ sq docs,
      llm_structured env q = Ok sq
      ∧ _retrieve env vs (mkRAGState q sq None (default [] msgs) None) = Ok docs
      ∧ sources ans = (λ d, (page_content d, metadata d)) <$> docs.
Proof.
  unfold query_documents, run_pipeline, graph_invoke, _analyze_query. simpl.
  destruct (llm_structured env q) as [sq|] eqn:Hsq; simpl;
    [|by_fallback].
  destruct (_retrieve env vs _) as [docs|] eqn:Hr; simpl; [|by_fallback].
  destruct (_generate env _) as [c|]; simpl; [|by_fallback].
  intros [= <-]. right. eauto.
Qed.

(** With a filter that accepts nothing, a returned answer has no
    sources, on the pipeline path as on the fallback path. *)
Lemma query_documents_no_match vs q user_id mode msgs ans :
  (∀ sq docs, llm_structured env q = Ok sq →
      _retrieve env vs (mkRAGState q sq None (default [] msgs) None) = Ok docs →
      docs = []) →
  query_documents env vs q user_id mode msgs = Ok ans →
  sources ans = [].
Proof.
  intros Hnone [Hs|(sq & docs & Hsq & Hr & ->)]%query_documents_sources;
    [done|].
  by rewrite (Hnone _ _ Hsq Hr).
Qed.

(** The same isolation seen from [query_documents]: as long as the
    structured output of the rewrite stage names no owner other than the
    caller, no source of the answer is a chunk written for another
    owner. *)
Lemma query_documents_isolation vs (A B : Z) q mode msgs ans :
  reachable vs →
  A ≠ B →
  (∀ sq, llm_structured env q = Ok sq →
         sq !! "user_id" = None ∨ sq !! "user_id" = Some (SInt B)) →
  query_documents env vs q B mode msgs = Ok ans →
  ∀ file_path doc_id c,
    written_by env file_path A doc_id c →
    (page_content c, metadata c) ∉ sources ans.
Proof.
  intros Hreach Hne Hsq [Hs|(sq & docs & Hq & Hr & Hs)]%query_documents_sources
    file_path doc_id c HA%written_by_owner; rewrite Hs.
  { by intros ?%elem_of_nil. }
  intros (d & [= Hc Hm] & Hd)%list_elem_of_fmap.
  destruct (Hsq _ Hq) as [Hnone|Hsome].
  - unfold _retrieve, getitem in Hr. simpl in Hr. by rewrite Hnone in Hr.
  - destruct (retrieve_owner_tagged vs B
                (mkRAGState q sq None (default [] msgs) None) docs
                Hreach Hsome Hr d Hd) as [_ HB].
    rewrite Hm, HB in HA. injection HA as ->. done.
Qed.

(** The caller's id is put into the initial state and overwritten by the
    rewrite stage before anything reads it. *)
Lemma query_documents_any_caller vs q (B C : Z) mode msgs :
  query_documents env vs q C mode msgs = query_documents env vs q B mode msgs.
Proof. reflexivity. Qed.

End PipelineFacts.

Lemma C1_query_documents_fallback_witness :
  rag_props.stage_raises samples.env_up ∅
    (rag_system.initial_state "What is osmosis?" 1 None)
    (KeyError "user_id")
  ∧ rag_system.query_documents samples.env_up ∅ "What is osmosis?" 1
      "Quick Learner" None
    = Ok (rag_system.mkAnswer
            "direct answer to Quick Learner: What is osmosis?" []).
Proof.
  assert (Hs : rag_props.stage_raises samples.env_up ∅
                 (rag_system.initial_state "What is osmosis?" 1 None)
                 (KeyError "user_id")).
  { eapply rag_props.retrieve_raises; reflexivity. }
  split; [exact Hs|].
  apply (C1_query_documents_fallback samples.env_up ∅ "What is osmosis?" 1
           "Quick Learner" None _ Hs).
  reflexivity.
Defined.

(** C1, as stated, fails: with the provider out of service the rewrite
    stage raises, the direct call of the fallback raises as well, and
    [query_documents] raises instead of returning an answer. *)
Lemma C1_never_raises_counterexample :
  rag_props.stage_raises samples.env_down ∅
    (rag_system.initial_state "What is osmosis?" 1 None)
    (External "provider unavailable")
  ∧ rag_system.query_documents samples.env_down ∅ "What is osmosis?" 1
      "Quick Learner" None
    = Raise (External "provider unavailable")
  ∧ ¬ returns (rag_system.query_documents samples.env_down ∅
                 "What is osmosis?" 1 "Quick Learner" None).
Proof.
  split_and!.
  - by apply rag_props.rewrite_raises.
  - reflexivity.
  - intros [a Ha]. discriminate Ha.
Qed.

Lemma C4_index_document_witness :
  rag_system.index_document samples.env_up "notes.pdf" 1 7 ∅
    = Ok (1%nat,
          {[ "user_1_docs" :=
               [rag_system.mkEntry
                  (rag_system.mkDocument "contents of notes.pdf"
                     {["page" := SInt 0; "user_id" := SInt 1; "doc_id" := SInt 7]})
                  [21]] ]})
  ∧ rag_system.index_document samples.env_down "notes.pdf" 1 7 ∅
    = Raise (External "file not found").
Proof.
  split.
  - vm_compute. reflexivity.
  - apply (C4_index_document samples.env_down "notes.pdf" 1 7 ∅). reflexivity.
Defined.

Lemma store_after_reachable env uploads :
  rag_props.reachable (samples.store_after env uploads).
Proof.
  unfold samples.store_after.
  assert (H : rag_props.reachable ∅) by constructor.
  revert H. generalize (∅ : rag_system.Store).
  induction uploads as [|[[file_path user_id] doc_id] uploads IH];
    intros vs Hvs; simpl; [done|].
  apply IH.
  destruct (rag_system.index_document env file_path user_id doc_id vs)
    as [[n vs']|] eqn:Hidx; [|done].
  by eapply rag_props.reach_index.
Qed.


Lemma C3_retrieve_loses_user_id_witness :
  rag_system.llm_structured samples.env_up "What is osmosis?"
    = Ok {["query" := SStr "What is osmosis?"; "section" := SStr "beginning"]}
  ∧ rag_system._retrieve samples.env_up ∅
      (rag_system.mkRAGState "What is osmosis?"
         {["query" := SStr "What is osmosis?"; "section" := SStr "beginning"]}
         None [] None)
    = Raise (KeyError "user_id")
  ∧ rag_system.query_documents samples.env_up ∅ "What is osmosis?" 1
      "Quick Learner" None
    = Ok (rag_system.mkAnswer
            "direct answer to Quick Learner: What is osmosis?" []).
Proof.
  destruct (C3_retrieve_loses_user_id samples.env_up ∅ "What is osmosis?" 1
              "Quick Learner" None
              {["query" := SStr "What is osmosis?"; "section" := SStr "beginning"]}
              eq_refl eq_refl) as (Hr & _ & Hq).
  split_and!; [reflexivity|exact Hr|].
  rewrite Hq. reflexivity.
Defined.

(** ** server.py *)

Section ServerFacts.
Import server.
Implicit Types (db : DB) (ans : gmap string Json).

Lemma json_eq_str v c :
  json_eq v (JStr c) = match v with JStr a => bool_decide (a = c) | _ => false end.
Proof. by destruct v. Qed.

(** On questions that carry a string [correct_answer], the loop counts
    exactly the exact string matches. *)
Lemma count_correct_exact ans qs :
  Forall has_answer_key qs →
  ∀ idx c, count_correct ans idx qs c = Ok (c + exact_matches ans idx qs)%nat.
Proof.
  induction 1 as [|q qs (d & a & -> & Hd) _ IH]; intros idx c; simpl.
  { by rewrite Nat.add_0_r. }
  rewrite Hd. simpl. rewrite IH, json_eq_str.
  destruct (ans !! pretty idx) as [[| | | |s| |]|]; simpl;
    try (f_equal; lia).
  case_bool_decide; f_equal; lia.
Qed.

Lemma exact_matches_le ans qs idx : (exact_matches ans idx qs ≤ length qs)%nat.
Proof.
  revert idx. induction qs as [|q qs IH]; intros idx; simpl; [done|].
  specialize (IH (S idx)). destruct (exact_match ans idx q); lia.
Qed.

Lemma score_of_zero total : score_of 0 total = 0%Qc.
Proof.
  unfold score_of. case_decide; [|done].
  change (Qc_of_Z (Z.of_nat 0)) with (Qc_of_Z 0).
  rewrite Z2Qc_inj_0. apply Qcmult_0_l.
Qed.

Lemma score_of_all total : (1 ≤ total)%nat → score_of total total = 1%Qc.
Proof.
  intros Hpos. unfold score_of. rewrite decide_True by lia.
  apply Qcmult_inv_r. rewrite <-Z2Qc_inj_0. intros ?%Z2Qc_inj. lia.
Qed.

(** C5 (as amended): for a stored quiz of N >= 1 questions, each an object
    with a string [correct_answer], and any answers map, the submission
    returns score = matches / N, where matches counts the indices whose
    submitted answer is that very string; no match gives 0 and N matches
    give 1. *)
Theorem C5_quiz_score now submission db i quiz qs :
  find_quiz db (submit_quiz_id submission) = Some (i, quiz) →
  questions quiz = JList qs →
  (1 ≤ length qs)%nat →
  Forall has_answer_key qs →
  ∃ resp db',
    submit_quiz now submission db = Ok (resp, db')
    ∧ correct resp = exact_matches (answers submission) 0 qs
    ∧ total resp = length qs
    ∧ score resp
      = (Qc_of_Z (Z.of_nat (exact_matches (answers submission) 0 qs))
         / Qc_of_Z (Z.of_nat (length qs)))%Qc
    ∧ (exact_matches (answers submission) 0 qs = 0%nat → score resp = 0%Qc)
    ∧ (exact_matches (answers submission) 0 qs = length qs → score resp = 1%Qc).
Proof.
  intros Hfind Hq Hlen Hwf. unfold submit_quiz. rewrite Hfind, Hq. simpl.
  rewrite (count_correct_exact _ _ Hwf 0 0). simpl.
  eexists _, _. split; [reflexivity|]. simpl. split_and!; try done.
  - unfold score_of. by rewrite decide_True by lia.
  - intros ->. apply score_of_zero.
  - intros ->. by apply score_of_all.
Qed.

(** A submission for a stored quiz whose questions are objects is
    scored and recorded: the route raises only for an unknown quiz or for
    a [questions] value it cannot walk. *)
Lemma submit_quiz_returns now submission db i quiz qs :
  find_quiz db (submit_quiz_id submission) = Some (i, quiz) →
  questions quiz = JList qs →
  Forall (λ q, ∃ d, q = JDict d) qs →
  returns (submit_quiz now submission db).
Proof.
  intros Hfind Hq Hobj. unfold submit_quiz, returns. rewrite Hfind, Hq. simpl.
  assert (Hc : ∀ idx c, ∃ c', count_correct (answers submission) idx qs c = Ok c').
  { clear Hq. induction Hobj as [|q qs [d ->] _ IH]; intros idx c; simpl;
      [eauto|apply IH]. }
  destruct (Hc 0%nat 0%nat) as [c' ->]. simpl. eauto.
Qed.

Lemma find_progress_Some db u t i p :
  find_progress db u t = Some (i, p) →
  progress db !! i = Some p ∧ user_id p = u ∧ topic p = t.
Proof.
  unfold find_progress. intros (Hi & [? ?] & _)%list_find_Some. done.
Qed.

(** The two lookups of the routes return the first matching row, and
    no row exactly when the table has none. *)
Lemma find_quiz_first db id j quiz :
  table_props.first_row (λ q, quiz_id q = id) (quizzes db) j quiz
  ↔ find_quiz db id = Some (j, quiz).
Proof. unfold table_props.first_row, find_quiz. by rewrite list_find_Some. Qed.

Lemma find_progress_first db u t i p :
  table_props.first_row (table_props.for_pair u t) (progress db) i p
  ↔ find_progress db u t = Some (i, p).
Proof.
  unfold table_props.first_row, table_props.for_pair, find_progress.
  by rewrite list_find_Some.
Qed.

Lemma find_progress_none db u t :
  table_props.no_row (table_props.for_pair u t) (progress db)
  ↔ find_progress db u t = None.
Proof.
  unfold table_props.no_row, table_props.for_pair, find_progress.
  rewrite list_find_None, list.Forall_forall. done.
Qed.


End ServerFacts.

Lemma C5_quiz_score_witness :
  ∃ resp db',
    server.submit_quiz 100
      (server.mkQuizSubmit 1 5 {["0" := JStr "A"; "1" := JStr "C"]})
      samples.quiz_db = Ok (resp, db')
    ∧ server.correct resp = 1%nat
    ∧ server.total resp = 2%nat
    ∧ server.score resp = (Qc_of_Z 1 / Qc_of_Z 2)%Qc.
Proof.
  destruct (C5_quiz_score 100
              (server.mkQuizSubmit 1 5 {["0" := JStr "A"; "1" := JStr "C"]})
              samples.quiz_db 0%nat
              (server.mkQuiz 1 5 "biology"
                 (JList [samples.question "Is osmosis passive?" "A";
                         samples.question "Is ATP a lipid?" "B"]) "medium")
              [samples.question "Is osmosis passive?" "A";
               samples.question "Is ATP a lipid?" "B"])
    as (resp & db' & Hrun & Hc & Ht & Hs & _).
  - reflexivity.
  - reflexivity.
  - simpl. lia.
  - repeat constructor; eexists _, _; (split; [reflexivity|reflexivity]).
  - exists resp, db'. split_and!; [exact Hrun|exact Hc|exact Ht|exact Hs].
Defined.

(** C5, as stated, fails on a stored question without a [correct_answer]:
    the absent answer and the absent key both read as [None], the loop
    counts a match, and the score is 1 although no submitted answer matches
    any correct answer. *)
Lemma C5_missing_answer_key_counterexample :
  ∃ resp db',
    server.find_quiz samples.quiz_db 2
      = Some (1%nat, server.mkQuiz 2 5 "chemistry"
                       (JList [JDict [("question", JStr "Is water polar?")]])
                       "easy")
    ∧ server.submit_quiz 100 (server.mkQuizSubmit 2 5 ∅) samples.quiz_db
      = Ok (resp, db')
    ∧ server.exact_matches ∅ 0 [JDict [("question", JStr "Is water polar?")]]
      = 0%nat
    ∧ server.correct resp = 1%nat
    ∧ server.total resp = 1%nat
    ∧ server.score resp = 1%Qc
    ∧ server.score resp ≠ 0%Qc.
Proof.
  eexists _, _. split_and!; [reflexivity|reflexivity|reflexivity|..]; simpl.
  - reflexivity.
  - reflexivity.
  - by apply Qc_is_canon.
  - intros H. by apply (f_equal this) in H.
Qed.

(** Close a goal [first_row P rows i x] or [no_row P rows] on a table
    that is written out. *)
Ltac first_row_here :=
  split_and!;
  [ reflexivity
  | by repeat split
  | let j := fresh "j" in
    let y := fresh "y" in
    let Hj := fresh "Hj" in
    let Hlt := fresh "Hlt" in
    intros j y Hj Hlt;
    repeat first
      [ exfalso; lia
      | destruct j as [|j];
        [ injection Hj as <-;
          let H := fresh in
          let H1 := fresh in
          let H2 := fresh in
          intros H;
          first [ discriminate H
                | destruct H as [H1 H2];
                  first [discriminate H1 | discriminate H2] ]
        | ] ] ].

Ltac no_row_here :=
  let x := fresh "x" in
  let Hx := fresh "Hx" in
  let H := fresh in
  intros x Hx H;
  repeat (apply elem_of_cons in Hx as [->|Hx];
          [ let H1 := fresh in
            let H2 := fresh in
            first [ discriminate H
                  | destruct H as [H1 H2];
                    first [discriminate H1 | discriminate H2] ]
          | ]);
  by apply elem_of_nil in Hx.


(** ** knowledge_graph.py *)

Section GraphFacts.
Import knowledge_graph.
Context (env : Env).

(** The [try] block completes only on a parsed object that has both
    keys: any other parsed value is stopped by the membership test, by the
    validation, or by the first subscript. *)
Lemma build_graph_try_ok content g :
  build_graph_try env content = Ok g → parses_to_graph env content.
Proof.
  unfold build_graph_try, parses_to_graph.
  destruct (extract_json env content) as [graph_data|]; simpl; [|done].
  destruct graph_data as [| | | |s|l|d]; simpl; try done.
  - destruct (bool_decide _); simpl; [|done].
    destruct (negb _); simpl; done.
  - destruct (existsb _ l); simpl; [|done].
    destruct (negb _); simpl; done.
  - intros Hrun. exists d. split; [done|].
    destruct (bool_decide (is_Some (dict_get "nodes" d))) eqn:Hn; simpl in *;
      [|done].
    destruct (bool_decide (is_Some (dict_get "edges" d))) eqn:He; simpl in *;
      [|done].
    by apply bool_decide_eq_true in Hn, He.
Qed.

Lemma build_graph_total content topic response :
  llm_ainvoke env (prompt topic content) = Ok response →
  build_graph env content topic
  = Ok match build_graph_try env response with
       | Ok g => g
       | Raise _ => fallback_graph topic
       end.
Proof.
  intros Hr. unfold build_graph. rewrite Hr. simpl.
  by destruct (build_graph_try env response).
Qed.

End GraphFacts.


(** On a well-formed answer the builder returns the parsed graph with the
    scaled layout coordinates attached. *)
Example build_graph_places_nodes :
  knowledge_graph.build_graph samples.kg_graph
    "The cell is the unit of life." "cells"
  = Ok (JDict [("nodes",
                JList [JDict [("id", JStr "cell"); ("label", JStr "Cell");
                              ("type", JStr "core");
                              ("x", JFloat (Qc_of_Z 150));
                              ("y", JFloat (- Qc_of_Z 150)%Qc)]]);
               ("edges", JList [])]).
Proof.
  vm_compute.
  repeat first
    [ match goal with
      | |- JFloat _ = JFloat _ => f_equal; apply Qc_is_canon; reflexivity
      end
    | progress f_equal ].
Qed.

(** The pipeline as it runs when the structured output does carry an
    owner: a section no chunk has gives an empty context, generation is
    called with the bare system instruction, and the answer has no
    sources; a section the chunks have gives the owner's chunk as
    source. *)
Example pipeline_empty_context :
  rag_system.query_documents (samples.env_naming 2 "end")
    samples.two_owner_store "What is osmosis?" 2 "Quick Learner" None
  = Ok (rag_system.mkAnswer rag_system.system_prompt []).
Proof. vm_compute. reflexivity. Qed.

Example pipeline_with_context :
  rag_system.sources
    <$> match rag_system.query_documents (samples.env_naming 2 "beginning")
                samples.two_owner_store "What is osmosis?" 2 "Quick Learner"
                None with
        | Ok ans => Some ans
        | Raise _ => None
        end
  = Some [("osmosis moves water across a membrane",
           rag_system.metadata (samples.osmosis_chunk 2 20))].
Proof. vm_compute. reflexivity. Qed.

(** ** quiz_generator.py *)

Section QuizGeneratorFacts.
Import quiz_generator.

Lemma low_lt_high : (low_score < high_score)%Qc.
Proof. by vm_compute. Qed.

(** Close a goal whose hypotheses put a score on both sides of a
    threshold. *)
Ltac qc_absurd :=
  match goal with
  | H1 : (?a < ?b)%Qc, H2 : (?b ≤ ?a)%Qc |- _ =>
      by destruct (Qclt_not_le _ _ H1)
  | H1 : ¬ (?a ≤ ?b)%Qc, H2 : ¬ (?b < ?a)%Qc |- _ =>
      by destruct H1; apply Qcnot_lt_le
  end.

Lemma level_rank_Some d r :
  level_rank d = Some r →
  (d = "easy" ∧ r = 0%nat) ∨ (d = "medium" ∧ r = 1%nat) ∨ (d = "hard" ∧ r = 2%nat).
Proof.
  unfold level_rank. repeat case_decide; intros [= <-]; auto.
Qed.

(** X1: on the three levels, [adapt_difficulty] moves one step up for a
    score of at least 0.8 (staying at hard), one step down for a score
    below 0.5 (staying at easy), and keeps the level in between. *)
Theorem X1_adapt_difficulty_step score d r :
  level_rank d = Some r →
  ∃ r', level_rank (adapt_difficulty score d) = Some r'
        ∧ ((high_score ≤ score)%Qc → r' = Nat.min 2 (S r))
        ∧ ((score < low_score)%Qc → r' = Nat.pred r)
        ∧ ((low_score ≤ score)%Qc → (score < high_score)%Qc → r' = r).
Proof.
  intros Hr. unfold adapt_difficulty.
  assert (Hx : (high_score ≤ score)%Qc → (score < low_score)%Qc → False).
  { intros H1 H2. apply (Qclt_not_le _ _ low_lt_high).
    eapply Qcle_trans; [exact H1|]. by apply Qclt_le_weak. }
  destruct (level_rank_Some _ _ Hr) as [[-> ->]|[[-> ->]|[-> ->]]];
    destruct (bool_decide_reflect (high_score ≤ score)%Qc) as [Hh|Hh];
    destruct (bool_decide_reflect (score < low_score)%Qc) as [Hl|Hl];
    simpl; eexists; (split; [reflexivity|]);
    split_and!; intros; try done; try (by destruct Hx); try qc_absurd.
Qed.

(** X2: a difficulty that is none of the three levels is not rejected: a
    score of at least 0.8 turns it into hard, a score below 0.5 into easy,
    and any other score returns the unknown string as it came. *)
Theorem X2_adapt_difficulty_unknown score d :
  level_rank d = None →
  adapt_difficulty score d
  = if bool_decide (high_score ≤ score)%Qc then "hard"
    else if bool_decide (score < low_score)%Qc then "easy"
    else d.
Proof.
  unfold level_rank, adapt_difficulty. repeat case_decide; done.
Qed.

(** X3: on the three levels the suggestion is monotone in the score: a
    higher score never suggests a lower level. *)
Theorem X3_adapt_difficulty_monotone s1 s2 d r r1 r2 :
  level_rank d = Some r →
  (s1 ≤ s2)%Qc →
  level_rank (adapt_difficulty s1 d) = Some r1 →
  level_rank (adapt_difficulty s2 d) = Some r2 →
  (r1 ≤ r2)%nat.
Proof.
  intros Hr Hle. unfold adapt_difficulty.
  assert (Hup : (high_score ≤ s1)%Qc → (high_score ≤ s2)%Qc)
    by (intros; by eapply Qcle_trans).
  assert (Hdown : (s2 < low_score)%Qc → (s1 < low_score)%Qc)
    by (intros; by eapply Qcle_lt_trans).
  assert (Hx : ∀ s, (high_score ≤ s)%Qc → (s < low_score)%Qc → False).
  { intros s H1 H2. apply (Qclt_not_le _ _ low_lt_high).
    eapply Qcle_trans; [exact H1|]. by apply Qclt_le_weak. }
  destruct (level_rank_Some _ _ Hr) as [[-> ->]|[[-> ->]|[-> ->]]];
    destruct (bool_decide_reflect (high_score ≤ s1)%Qc) as [Hh1|Hh1];
    destruct (bool_decide_reflect (high_score ≤ s2)%Qc) as [Hh2|Hh2];
    destruct (bool_decide_reflect (s1 < low_score)%Qc) as [Hl1|Hl1];
    destruct (bool_decide_reflect (s2 < low_score)%Qc) as [Hl2|Hl2];
    simpl; intros [= <-] [= <-]; try lia;
    try (by destruct Hh2; auto); try (by destruct Hl1; auto);
    try (by destruct (Hx s1)); try (by destruct (Hx s2)).
Qed.
End QuizGeneratorFacts.

Lemma X1_adapt_difficulty_step_witness :
  quiz_generator.level_rank "medium" = Some 1%nat
  ∧ ∃ r', quiz_generator.level_rank
            (quiz_generator.adapt_difficulty (Qc_of_Z 1) "medium") = Some r'
          ∧ r' = 2%nat.
Proof.
  split; [reflexivity|].
  destruct (X1_adapt_difficulty_step (Qc_of_Z 1) "medium" 1 eq_refl)
    as (r' & Hr & Hup & _).
  exists r'. split; [exact Hr|]. apply Hup. by vm_compute.
Defined.

Lemma X2_adapt_difficulty_unknown_witness :
  quiz_generator.level_rank "expert" = None
  ∧ quiz_generator.adapt_difficulty (Qc_of_Z 1) "expert" = "hard".
Proof.
  split; [reflexivity|].
  rewrite (X2_adapt_difficulty_unknown (Qc_of_Z 1) "expert" eq_refl).
  reflexivity.
Defined.

Lemma X3_adapt_difficulty_monotone_witness :
  quiz_generator.level_rank
    (quiz_generator.adapt_difficulty (Qc_of_Z 0) "medium") = Some 0%nat
  ∧ quiz_generator.level_rank
      (quiz_generator.adapt_difficulty (Qc_of_Z 1) "medium") = Some 2%nat
  ∧ (0 ≤ 2)%nat.
Proof.
  assert (Hle : (Qc_of_Z 0 ≤ Qc_of_Z 1)%Qc) by (by vm_compute).
  split_and!; [reflexivity..|].
  exact (X3_adapt_difficulty_monotone (Qc_of_Z 0) (Qc_of_Z 1) "medium"
           1 0 2 eq_refl Hle eq_refl eq_refl).
Defined.

(** ** The two regular-expression searches *)

Section SpanFacts.
Import quiz_generator.
Implicit Types (c a : ascii) (s pre mid post rest : string).

Lemma from_first_Some c s r :
  from_first c s = Some r
  ↔ ∃ pre rest, s = pre +:+ String c rest
                ∧ has_char c pre = false ∧ r = String c rest.
Proof.
  split.
  - revert r. induction s as [|a s IH]; intros r; simpl; [done|].
    case_decide as Ha.
    + intros [= <-]. subst a. by exists "", s.
    + intros (pre & rest & -> & Hpre & ->)%IH.
      exists (String a pre), rest. split_and!; [done| |done].
      simpl. by rewrite bool_decide_eq_false_2, Hpre.
  - intros (pre & rest & -> & Hpre & ->).
    induction pre as [|a pre IH]; simpl in *.
    + by rewrite decide_True.
    + apply orb_false_iff in Hpre as [Ha%bool_decide_eq_false Hpre].
      change (String a pre +:+ String c rest)
        with (String a (pre +:+ String c rest)).
      simpl. rewrite decide_False by done. by apply IH.
Qed.

Lemma upto_last_None c s : upto_last c s = None ↔ has_char c s = false.
Proof.
  induction s as [|a s IH]; simpl; [done|].
  destruct (upto_last c s) as [p|].
  - split; [done|]. intros [_ Hs]%orb_false_iff.
    by apply IH in Hs.
  - case_decide as Ha.
    + split; [done|]. by rewrite bool_decide_eq_true_2.
    + rewrite bool_decide_eq_false_2 by done. simpl.
      split; [intros _; by apply IH|done].
Qed.

Lemma upto_last_Some c s p :
  upto_last c s = Some p
  ↔ ∃ mid post, s = mid +:+ String c post
                ∧ has_char c post = false ∧ p = mid +:+ String c "".
Proof.
  split.
  - revert p. induction s as [|a s IH]; intros p; simpl; [done|].
    destruct (upto_last c s) as [p'|] eqn:Hs.
    + intros [= <-]. destruct (IH p' eq_refl) as (mid & post & -> & Hpost & ->).
      by exists (String a mid), post.
    + case_decide as Ha; [|done]. intros [= <-]. subst a.
      exists "", s. split_and!; [done| |done]. by apply upto_last_None.
  - intros (mid & post & -> & Hpost & ->).
    induction mid as [|a mid IH].
    + change ("" +:+ String c post) with (String c post). simpl.
      apply upto_last_None in Hpost as ->. by rewrite decide_True.
    + change (String a mid +:+ String c post)
        with (String a (mid +:+ String c post)).
      simpl. by rewrite IH.
Qed.

(** The span a search returns: it starts at the first [open], ends at
    the last [close] behind it, and these two delimit it in the text. *)
Lemma span_spec (open close : ascii) s m :
  open ≠ close →
  from_first open s ≫= upto_last close = Some m
  ↔ ∃ pre mid post,
      s = pre +:+ String open (mid +:+ String close post)
      ∧ has_char open pre = false
      ∧ has_char close post = false
      ∧ m = String open (mid +:+ String close "").
Proof.
  intros Hne. split.
  - destruct (from_first open s) as [r|] eqn:Hr; simpl; [|done].
    apply from_first_Some in Hr as (pre & rest & -> & Hpre & ->).
    intros (mid0 & post & Heq & Hpost & ->)%upto_last_Some.
    destruct mid0 as [|a mid].
    { injection Heq as Heq _. done. }
    injection Heq as <- ->. by exists pre, mid, post.
  - intros (pre & mid & post & -> & Hpre & Hpost & ->).
    assert (Hr : from_first open
                   (pre +:+ String open (mid +:+ String close post))
                 = Some (String open (mid +:+ String close post)))
      by (apply from_first_Some; eauto).
    rewrite Hr.
    apply (upto_last_Some close (String open (mid +:+ String close post))).
    by exists (String open mid), post.
Qed.

(** X4: the search of [generate_quiz] for a JSON array returns exactly
    the text from the first opening bracket to the last closing bracket
    behind it; whatever the model wrote between two arrays, or in brackets
    after the array, is part of what gets parsed. *)
Theorem X4_search_brackets_span content m :
  search_brackets content = Some m
  ↔ ∃ pre mid post,
      content = pre +:+ String "["%char (mid +:+ String "]"%char post)
      ∧ has_char "["%char pre = false
      ∧ has_char "]"%char post = false
      ∧ m = String "["%char (mid +:+ String "]"%char "").
Proof. unfold search_brackets. by apply span_spec. Qed.

Lemma from_open_brace_from_first s :
  knowledge_graph.from_open_brace s = from_first "{"%char s.
Proof.
  induction s as [|a s IH]; simpl; [done|]. by rewrite IH.
Qed.

Lemma upto_last_close_upto_last s :
  knowledge_graph.upto_last_close s = upto_last "}"%char s.
Proof.
  induction s as [|a s IH]; simpl; [done|]. by rewrite IH.
Qed.

(** X5: the search of [build_graph] for a JSON object returns exactly the
    text from the first opening brace to the last closing brace behind
    it. *)
Theorem X5_search_braces_span content m :
  knowledge_graph.search_braces content = Some m
  ↔ ∃ pre mid post,
      content = pre +:+ String "{"%char (mid +:+ String "}"%char post)
      ∧ has_char "{"%char pre = false
      ∧ has_char "}"%char post = false
      ∧ m = String "{"%char (mid +:+ String "}"%char "").
Proof.
  unfold knowledge_graph.search_braces.
  rewrite from_open_brace_from_first.
  destruct (from_first "{"%char content) as [r|] eqn:Hr; simpl.
  - rewrite upto_last_close_upto_last.
    rewrite <-(span_spec "{"%char "}"%char content m) by done.
    by rewrite Hr.
  - rewrite <-(span_spec "{"%char "}"%char content m) by done.
    by rewrite Hr.
Qed.
End SpanFacts.

(** ** server.py, the remaining routes *)

Section KeyFacts.

Lemma foldr_max_ge (ids : list Z) (x : Z) :
  x ∈ ids → (x ≤ foldr Z.max 0 ids)%Z.
Proof.
  induction 1 as [x ids|x y ids _ IH]; simpl; lia.
Qed.

(** An autoincrement key is new. *)
Lemma next_id_fresh (ids : list Z) : server.next_id ids ∉ ids.
Proof.
  intros Hin%foldr_max_ge. unfold server.next_id in Hin. lia.
Qed.

Lemma list_find_snoc {A} (P : A → Prop) `{!∀ x, Decision (P x)} l x :
  list_find P l = None → P x → list_find P (l ++ [x]) = Some (length l, x).
Proof.
  intros Hnone HP. rewrite list_find_app_r by done. simpl.
  by rewrite decide_True.
Qed.

Lemma list_find_id_fresh {A} (key : A → Z) (l : list A) x :
  key x ∉ key <$> l →
  list_find (λ y, key y = key x) (l ++ [x]) = Some (length l, x).
Proof.
  intros Hfresh.
  assert (Hnone : list_find (λ y, key y = key x) l = None).
  { apply list_find_None, Forall_forall. intros y Hy Heq. simpl in Heq.
    apply Hfresh. apply list_elem_of_fmap. exists y.
    split; [done|by apply list_elem_of_In]. }
  by apply (list_find_snoc (λ y, key y = key x)).
Qed.
End KeyFacts.

Section UserFacts.
Import routes.

(** X14: registering an e-mail address twice gives the first account
    back: the second call returns the user of the first call and leaves
    the tables as they were, whatever name and time it carries. *)
Theorem X14_create_user_idempotent now now' name name' email t :
  create_user now' name' email (create_user now name email t).2
  = create_user now name email t.
Proof.
  unfold create_user at 2 3.
  destruct (list_find _ (users t)) as [[i u]|] eqn:Hfind; simpl.
  - unfold create_user. by rewrite Hfind.
  - unfold create_user. simpl.
    by rewrite (list_find_snoc (λ u, user_email u = email) (users t)
                  (mkUser (server.next_id (user_id <$> users t)) name email now)
                  Hfind eq_refl).
Qed.
End UserFacts.

Section ScoreFacts.
Import server.

Lemma Qc_of_nat_pos (n : nat) : (0 < n)%nat → (0 < Qc_of_Z (Z.of_nat n))%Qc.
Proof.
  intros Hn. rewrite <-Z2Qc_inj_0.
  apply (proj1 (Z2Qc_inj_lt 0 (Z.of_nat n))). lia.
Qed.

Lemma score_of_bounds (c n : nat) :
  (c ≤ n)%nat → (0 ≤ score_of c n)%Qc ∧ (score_of c n ≤ 1)%Qc.
Proof.
  intros Hc. unfold score_of. case_decide as Hn; [|by split].
  pose proof (Qc_of_nat_pos n Hn) as Hpos.
  pose proof (Qcinv_pos _ Hpos) as Hinv.
  assert (H0 : (0 ≤ Qc_of_Z (Z.of_nat c))%Qc).
  { rewrite <-Z2Qc_inj_0. apply (proj1 (Z2Qc_inj_le 0 (Z.of_nat c))). lia. }
  assert (Hcn : (Qc_of_Z (Z.of_nat c) ≤ Qc_of_Z (Z.of_nat n))%Qc).
  { apply (proj1 (Z2Qc_inj_le (Z.of_nat c) (Z.of_nat n))). lia. }
  unfold Qcdiv. split.
  - apply Qcmult_nonneg_nonneg; [done|by apply Qclt_le_weak].
  - rewrite <-(Qcmult_inv_r (Qc_of_Z (Z.of_nat n))).
    + apply Qcmult_le_mono_nonneg_r; [by apply Qclt_le_weak|done].
    + apply Qclt_not_eq in Hpos. congruence.
Qed.
End ScoreFacts.

Section SubmitFacts.
Import server server_props.
Implicit Types (db : DB) (ans : gmap string Json).

Lemma py_len_iter v :
  (is_sized v ∧ ∃ items, py_len v = Ok (length items) ∧ py_iter v = Ok items)
  ∨ (¬ is_sized v ∧ py_len v = Raise TypeError ∧ py_iter v = Raise TypeError).
Proof.
  destruct v as [| | | |s|l|d]; simpl;
    try (right; split_and!; [intros []|done|done]).
  - left. split; [done|]. eexists. split; [|reflexivity].
    f_equal. rewrite length_fmap. induction s; simpl; [done|]. by f_equal.
  - left. split; [done|]. by exists l.
  - left. split; [done|]. eexists. split; [|reflexivity].
    by rewrite !length_fmap.
Qed.

Lemma count_correct_ok ans qs :
  Forall is_object qs →
  ∀ idx c, ∃ c', count_correct ans idx qs c = Ok c'
                 ∧ (c ≤ c' ≤ c + length qs)%nat.
Proof.
  induction 1 as [|q qs [d ->] _ IH]; intros idx c; simpl.
  { exists c. split; [done|lia]. }
  destruct (IH (S idx)
              (if json_eq (default JNull (ans !! pretty idx))
                          (default JNull (dict_get "correct_answer" d))
               then S c else c)) as (c' & -> & Hc').
  exists c'. split; [done|]. destruct (json_eq _ _); lia.
Qed.

Lemma count_correct_raise ans qs :
  ¬ Forall is_object qs →
  ∀ idx c, count_correct ans idx qs c = Raise AttributeError.
Proof.
  induction qs as [|q qs IH]; intros Hno idx c; simpl.
  { destruct Hno. constructor. }
  destruct q as [| | | | | |d]; simpl; try done.
  apply IH. intros Hqs. apply Hno. constructor; [by eexists|done].
Qed.

Lemma Forall_is_object_dec qs : Decision (Forall is_object qs).
Proof.
  apply Forall_dec. intros [| | | | | |d];
    first [ left; by eexists | right; by intros [? [=]] ].
Qed.

Lemma submit_quiz_raise_404 now submission db :
  submit_quiz now submission db = Raise (HTTPException 404 "Quiz not found") →
  find_quiz db (submit_quiz_id submission) = None.
Proof.
  unfold submit_quiz.
  destruct (find_quiz db _) as [[i quiz]|]; [|done].
  destruct (py_len_iter (questions quiz))
    as [(Hs & items & -> & Hi)|(Hs & -> & Hi)]; rewrite Hi; simpl; [|done].
  destruct (Forall_is_object_dec items) as [Hobj|Hobj].
  - by destruct (count_correct_ok (answers submission) items Hobj 0%nat 0%nat)
      as (c & -> & _).
  - by rewrite (count_correct_raise _ _ Hobj).
Qed.

(** Over a store that accepts every statement, [submit_quiz] fails in
    exactly three ways: 404 for an unknown quiz id, [TypeError] when the
    stored [questions] value is a number, a boolean or null, and
    [AttributeError] when one of its items is not an object. *)
Lemma submit_quiz_raises now submission db e :
  submit_quiz now submission db = Raise e
  ↔ (find_quiz db (submit_quiz_id submission) = None
     ∧ e = HTTPException 404 "Quiz not found")
    ∨ (∃ i quiz, find_quiz db (submit_quiz_id submission) = Some (i, quiz)
                 ∧ ¬ is_sized (questions quiz) ∧ e = TypeError)
    ∨ (∃ i quiz items,
         find_quiz db (submit_quiz_id submission) = Some (i, quiz)
         ∧ py_iter (questions quiz) = Ok items
         ∧ ¬ Forall is_object items ∧ e = AttributeError).
Proof.
  unfold submit_quiz.
  destruct (find_quiz db _) as [[i quiz]|] eqn:Hfind.
  2:{ split; [intros [= <-]; by left|].
      intros [[_ ->]|[(? & ? & [=] & _)|(? & ? & ? & [=] & _)]]; done. }
  destruct (py_len_iter (questions quiz))
    as [(Hs & items & -> & Hi)|(Hs & -> & Hi)]; rewrite Hi; simpl.
  2:{ split.
      - intros [= <-]. right; left. by exists i, quiz.
      - intros [[[=] _]|[(? & ? & _ & _ & ->)|(? & ? & ? & Hf & Hit & _)]];
          [done|]. injection Hf as <- <-. by rewrite Hi in Hit. }
  destruct (Forall_is_object_dec items) as [Hobj|Hobj].
  - destruct (count_correct_ok (answers submission) items Hobj 0%nat 0%nat)
      as (c & -> & _). simpl. split; [done|].
    intros [[[=] _]|[(? & ? & [= <- <-] & Hn & _)|
                     (? & ? & ? & [= <- <-] & Hit & Hn & _)]]; [done|].
    rewrite Hi in Hit. injection Hit as <-. done.
  - rewrite (count_correct_raise _ _ Hobj). simpl. split.
    + intros [= <-]. right; right. by exists i, quiz, items.
    + intros [[[=] _]|[(? & ? & [= <- <-] & Hn & _)|(? & ? & ? & _ & _ & _ & ->)]];
        done.
Qed.

(** What a returning submission did: it found the quiz, appended one
    result row and updated the progress table with a score between 0 and
    1. *)
Lemma submit_quiz_ok now submission db resp db' :
  submit_quiz now submission db = Ok (resp, db') →
  ∃ i quiz,
    find_quiz db (submit_quiz_id submission) = Some (i, quiz)
    ∧ (correct resp ≤ total resp)%nat
    ∧ score resp = score_of (correct resp) (total resp)
    ∧ percentage resp = (score resp * Qc_of_Z 100)%Qc
    ∧ (0 ≤ score resp)%Qc ∧ (score resp ≤ 1)%Qc
    ∧ quizzes db' = quizzes db
    ∧ quiz_results db'
      = quiz_results db
        ++ [mkQuizResult (quiz_id quiz) (submit_user_id submission)
              (score resp) (total resp) (answers submission) now]
    ∧ progress db'
      = record_quiz now (submit_user_id submission) (quiz_topic quiz)
          (score resp) db.
Proof.
  unfold submit_quiz.
  destruct (find_quiz db _) as [[i quiz]|]; [|done].
  destruct (py_len_iter (questions quiz))
    as [(Hs & items & -> & Hi)|(Hs & -> & Hi)]; rewrite Hi; simpl; [|done].
  destruct (Forall_is_object_dec items) as [Hobj|Hobj].
  2:{ by rewrite (count_correct_raise _ _ Hobj). }
  destruct (count_correct_ok (answers submission) items Hobj 0%nat 0%nat)
    as (c & -> & Hc). simpl. intros [= <- <-]. simpl.
  exists i, quiz. split_and!; try done; [lia|..]; apply score_of_bounds; lia.
Qed.

(** X9: a submission that returns never reports more correct answers
    than questions, and its score lies between 0 and 1; a quiz without
    questions scores 0 (there is no division by zero). *)
Theorem X9_score_bounds now submission db resp db' :
  submit_quiz now submission db = Ok (resp, db') →
  (correct resp ≤ total resp)%nat
  ∧ (0 ≤ score resp)%Qc ∧ (score resp ≤ 1)%Qc
  ∧ (total resp = 0%nat → score resp = 0%Qc)
  ∧ percentage resp = (score resp * Qc_of_Z 100)%Qc.
Proof.
  intros (i & quiz & _ & Hc & Hs & Hp & H0 & H1 & _)%submit_quiz_ok.
  split_and!; try done.
  intros Ht. rewrite Hs, Ht. unfold score_of. by rewrite decide_False by lia.
Qed.
End SubmitFacts.

Section QuizRouteFacts.
Import routes.

Lemma generate_quiz_found env user topic content difficulty n t resp t' :
  generate_quiz env user topic content difficulty n t = (Ok resp, t') →
  server.find_quiz (core t') (response_id resp)
  = Some (length (server.quizzes (core t)),
          server.mkQuiz (response_id resp) user topic
            (response_questions resp) difficulty).
Proof.
  unfold generate_quiz.
  destruct (quiz_generator.generate_quiz _ _ _ _ _) as [questions|]; [|done].
  intros [= <- <-]. unfold server.find_quiz. simpl.
  apply (list_find_id_fresh server.quiz_id (server.quizzes (core t))
           (server.mkQuiz
              (server.next_id (server.quiz_id <$> server.quizzes (core t)))
              user topic questions difficulty)).
  simpl. apply next_id_fresh.
Qed.

(** X7: a quiz returned by [/quiz/generate] can be submitted: its id is
    found by [/quiz/submit], which therefore never answers 404 for it, and
    the row found holds the generated questions and topic. *)
Theorem X7_generated_quiz_is_found env user topic content difficulty n t resp t' :
  generate_quiz env user topic content difficulty n t = (Ok resp, t') →
  server.find_quiz (core t') (response_id resp)
  = Some (length (server.quizzes (core t)),
          server.mkQuiz (response_id resp) user topic
            (response_questions resp) difficulty)
  ∧ ∀ now submission,
      server.submit_quiz_id submission = response_id resp →
      server.submit_quiz now submission (core t')
      ≠ Raise (HTTPException 404 "Quiz not found").
Proof.
  intros Hfind%generate_quiz_found. split; [done|].
  intros now submission Hid Hraise.
  apply submit_quiz_raise_404 in Hraise. by rewrite Hid, Hfind in Hraise.
Qed.

Lemma placeholder_has_answer_key :
  Forall server.has_answer_key
    [JDict [("question", JStr "Sample question about the topic");
            ("options", JList [JStr "A) Option 1"; JStr "B) Option 2";
                               JStr "C) Option 3"; JStr "D) Option 4"]);
            ("correct_answer", JStr "A");
            ("explanation", JStr "This is a sample question.")]].
Proof. repeat constructor. by eexists _, _. Qed.

Lemma placeholder_exact_matches (ans : gmap string Json) :
  server.exact_matches ans 0
    [JDict [("question", JStr "Sample question about the topic");
            ("options", JList [JStr "A) Option 1"; JStr "B) Option 2";
                               JStr "C) Option 3"; JStr "D) Option 4"]);
            ("correct_answer", JStr "A");
            ("explanation", JStr "This is a sample question.")]]
  = match ans !! "0" with
    | Some (JStr a) => if bool_decide (a = "A") then 1%nat else 0%nat
    | _ => 0%nat
    end.
Proof.
  unfold server.exact_matches, server.exact_match.
  change (dict_get "correct_answer" _) with (Some (JStr "A")).
  change (pretty 0%nat) with "0".
  by destruct (ans !! "0") as [[| | | |a| |]|]; try case_bool_decide.
Qed.

End QuizRouteFacts.

(** ** The progress table under the two routes that write it *)

Section ProgressFacts.
Import server routes_props.
Implicit Types (db : DB) (l : list Progress).

Lemma sum_Z_app (xs ys : list Z) :
  routes.sum_Z (xs ++ ys) = routes.sum_Z xs + routes.sum_Z ys.
Proof.
  unfold routes.sum_Z. induction xs as [|x xs IH]; simpl; [done|]. lia.
Qed.

(** Replacing the row at a position splits the table around it. *)
Lemma insert_middle {A} (rows : list A) (i : nat) (x y : A) :
  rows !! i = Some x →
  ∃ before after,
    rows = before ++ x :: after ∧ <[i := y]> rows = before ++ y :: after.
Proof.
  intros Hi. exists (take i rows), (drop (S i) rows). split.
  - by rewrite take_drop_middle.
  - apply insert_take_drop. by eapply lookup_lt_Some.
Qed.

(** The two shapes of the progress table after [record_quiz]. *)
Lemma record_quiz_cases now u t s db :
  (∃ l1 p l2,
     progress db = l1 ++ p :: l2
     ∧ user_id p = u ∧ topic p = t
     ∧ record_quiz now u t s db
       = l1 ++ mkProgress (progress_id p) u t ((mastery_score p + s) / 2)%Qc
                 (study_time_minutes p) (quizzes_taken p + 1) now :: l2)
  ∨ (Forall (λ p, progress_key p ≠ (u, t)) (progress db)
     ∧ record_quiz now u t s db
       = progress db
         ++ [mkProgress (next_id (progress_id <$> progress db)) u t s 0 1 now]).
Proof.
  unfold record_quiz.
  destruct (find_progress db u t) as [[i p]|] eqn:Hfind.
  - left. apply find_progress_Some in Hfind as (Hi & <- & <-).
    destruct (insert_middle (progress db) i p
                (mkProgress (progress_id p) (user_id p) (topic p)
                   ((mastery_score p + s) / 2)%Qc (study_time_minutes p)
                   (quizzes_taken p + 1) now) Hi) as (l1 & l2 & Hl & ->).
    by exists l1, p, l2.
  - right. split; [|done].
    apply list_find_None in Hfind. eapply Forall_impl; [|exact Hfind].
    intros p Hp [= ? ?]. by apply Hp.
Qed.

(** The two shapes of the progress table after [update_progress]. *)
Lemma update_progress_cases now data db :
  quizzes (update_progress now data db).2 = quizzes db
  ∧ quiz_results (update_progress now data db).2 = quiz_results db
  ∧ ((∃ l1 p l2,
        progress db = l1 ++ p :: l2
        ∧ user_id p = update_user_id data ∧ topic p = update_topic data
        ∧ progress (update_progress now data db).2
          = l1 ++ mkProgress (progress_id p) (user_id p) (topic p)
                    (mastery_score p)
                    (study_time_minutes p + update_minutes data)
                    (quizzes_taken p) now :: l2)
     ∨ (Forall (λ p, progress_key p ≠ (update_user_id data, update_topic data))
          (progress db)
        ∧ progress (update_progress now data db).2
          = progress db
            ++ [mkProgress (next_id (progress_id <$> progress db))
                  (update_user_id data) (update_topic data) 0%Qc
                  (update_minutes data) 0 now])).
Proof.
  unfold update_progress.
  destruct (find_progress db _ _) as [[i p]|] eqn:Hfind; simpl.
  - split_and!; [done..|]. left.
    apply find_progress_Some in Hfind as (Hi & Hu & Ht).
    destruct (insert_middle (progress db) i p
                (mkProgress (progress_id p) (user_id p) (topic p)
                   (mastery_score p)
                   (study_time_minutes p + update_minutes data)
                   (quizzes_taken p) now) Hi) as (l1 & l2 & Hl & ->).
    by exists l1, p, l2.
  - split_and!; [done..|]. right. split; [|done].
    apply list_find_None in Hfind. eapply Forall_impl; [|exact Hfind].
    intros p Hp [= ? ?]. by apply Hp.
Qed.

Lemma unit_range_mean (m s : Qc) :
  unit_range m → unit_range s → unit_range ((m + s) / 2)%Qc.
Proof.
  intros [Hm0 Hm1] [Hs0 Hs1]. unfold unit_range, Qcdiv.
  assert (Hhalf : (0 < / 2)%Qc) by (by vm_compute).
  split.
  - apply Qcmult_nonneg_nonneg; [by apply Qcplus_nonneg_nonneg|].
    by apply Qclt_le_weak.
  - replace 1%Qc with (2 * / 2)%Qc by (by apply Qc_is_canon).
    apply Qcmult_le_mono_nonneg_r; [by apply Qclt_le_weak|].
    replace 2%Qc with (1 + 1)%Qc by done.
    eapply Qcle_trans; [by apply Qcplus_le_mono_r|by apply Qcplus_le_mono_l].
Qed.
End ProgressFacts.

(** ** What the API can reach *)

Section ApiFacts.
Import routes routes_props.
Implicit Types (t : Tables) (vs : rag_system.Store).

(** Every request to a writing route either changes nothing or does one
    of seven things to the stored state. *)
Lemma step_cases t vs t' vs' :
  step (t, vs) (t', vs') →
  (t' = t ∧ vs' = vs)
  ∨ (vs' = vs
     ∧ ∃ u, t' = mkTables (core t) (users t ++ [u]) (documents t)
                   (conversations t) (messages t) (knowledge_graphs t)
            ∧ user_id u = server.next_id (user_id <$> users t)
            ∧ user_email u ∉ user_email <$> users t)
  ∨ (∃ row, t' = with_documents (documents t ++ [row]) t
            ∧ document_id row = server.next_id (document_id <$> documents t)
            ∧ (vs' = vs
               ∨ ∃ env file_path n,
                   rag_system.index_document env file_path
                     (document_user_id row) (document_id row) vs
                   = Ok (n, vs')))
  ∨ (vs' = vs
     ∧ ∃ c, t' = mkTables (core t) (users t) (documents t)
                   (conversations t ++ [c]) (messages t) (knowledge_graphs t))
  ∨ (vs' = vs
     ∧ ∃ q, t' = with_core
                   (server.mkDB (server.quizzes (core t) ++ [q])
                      (server.quiz_results (core t))
                      (server.progress (core t))) t
            ∧ server.quiz_id q
              = server.next_id (server.quiz_id <$> server.quizzes (core t)))
  ∨ (vs' = vs
     ∧ ∃ now submission resp db',
         server.submit_quiz now submission (core t) = Ok (resp, db')
         ∧ t' = with_core db' t)
  ∨ (vs' = vs
     ∧ ∃ now data,
         t' = with_core (server.update_progress now data (core t)).2 t)
  ∨ (vs' = vs
     ∧ ∃ kg, t' = mkTables (core t) (users t) (documents t)
                    (conversations t) (messages t) (knowledge_graphs t ++ [kg])).
Proof.
  inversion 1 as [now name email t0 vs0
                 |env file_path filename saved user now t0 vs0
                 |uuid now user mode t0 vs0 c t1 Hc
                 |env user topic content difficulty n t0 vs0
                 |now submission t0 vs0 resp db' Hs
                 |now data t0 vs0
                 |env now user document content topic t0 vs0]; subst.
  - unfold create_user.
    destruct (list_find _ (users t)) as [[i u]|] eqn:Hfind; simpl; [by left|].
    right; left. split; [done|]. eexists. split_and!; [done..|]. simpl.
    apply list_find_None in Hfind.
    intros (u & Hu & Hin)%list_elem_of_fmap.
    eapply Forall_forall in Hfind; [|by apply list_elem_of_In]. done.
  - unfold upload_document. destruct saved as [[]|]; simpl; [|by left].
    do 2 right; left.
    destruct (rag_system.index_document _ _ _ _ _) as [[n vs1]|] eqn:Hidx;
      simpl.
    2:{ eexists. split_and!; [done..|by left]. }
    destruct (rag_utils.generate_summary _ _) as [summary|]; simpl.
    2:{ eexists. split_and!; [done..|]. right. by eexists _, _, _. }
    destruct (rag_utils.extract_topics _ _); simpl;
      (eexists; split_and!; [done..|]; right; by eexists _, _, _).
  - unfold create_conversation in Hc. case_decide; [done|].
    injection Hc as <- <-. do 3 right; left. split; [done|]. by eexists.
  - unfold generate_quiz.
    destruct (quiz_generator.generate_quiz _ _ _ _ _); simpl; [|by left].
    do 4 right; left. split; [done|]. by eexists.
  - do 5 right; left. split; [done|]. by eexists _, _, _, _.
  - do 6 right; left. split; [done|]. by eexists _, _.
  - unfold generate_knowledge_graph.
    destruct (knowledge_graph.build_graph _ _ _); simpl; [|by left].
    do 7 right. split; [done|]. by eexists.
Qed.

(** Induction over the reachable states, with the state split into its
    two parts. *)
Lemma reachable_invariant (I : Tables → rag_system.Store → Prop) :
  I empty_tables ∅ →
  (∀ t vs t' vs', reachable (t, vs) → I t vs → step (t, vs) (t', vs') →
                  I t' vs') →
  ∀ t vs, reachable (t, vs) → I t vs.
Proof.
  intros Hinit Hstep t vs Hreach.
  remember (t, vs) as s eqn:Hs. revert t vs Hs.
  induction Hreach as [|[t0 vs0] s' Hreach IH Hs']; intros t vs Heq.
  - by injection Heq as <- <-.
  - subst s'. eapply Hstep; [done|by apply IH|done].
Qed.

(** An invariant of the quiz, result and progress tables: it is enough
    that a new quiz row, a returning submission and a progress update keep
    it. *)
Lemma core_invariant (I : server.DB → Prop) :
  I (server.mkDB [] [] []) →
  (∀ db q, I db →
     I (server.mkDB (server.quizzes db ++ [q]) (server.quiz_results db)
          (server.progress db))) →
  (∀ now submission db resp db',
     I db → server.submit_quiz now submission db = Ok (resp, db') → I db') →
  (∀ now data db, I db → I (server.update_progress now data db).2) →
  ∀ t vs, reachable (t, vs) → I (core t).
Proof.
  intros Hinit Hquiz Hsubmit Hupdate.
  apply (reachable_invariant (λ t _, I (core t))); [done|].
  intros t vs t' vs' _ IH
    [[-> _]|[[_ (u & -> & _)]|[(row & -> & _)|[[_ (c & ->)]|
     [[_ (q & -> & _)]|[[_ (now & sub & resp & db' & Hs & ->)]|
     [[_ (now & data & ->)]|[_ (kg & ->)]]]]]]]]%step_cases; simpl; eauto.
Qed.

(** *** Invariants of the progress and result tables *)

(** X11: in every state the API can reach, the progress table holds at
    most one row per (user, topic) pair: neither [/quiz/submit] nor
    [/progress/update] ever creates a second row for a pair. *)
Theorem X11_progress_keys_unique t vs :
  reachable (t, vs) →
  NoDup (progress_key <$> server.progress (core t)).
Proof.
  apply (core_invariant
           (λ db, NoDup (progress_key <$> server.progress db))); simpl.
  - constructor.
  - done.
  - intros now sub db resp db' IH
      (i & quiz & _ & _ & _ & _ & _ & _ & _ & _ & ->)%submit_quiz_ok.
    destruct (record_quiz_cases now (server.submit_user_id sub)
                (server.quiz_topic quiz) (server.score resp) db)
      as [(l1 & p & l2 & Hl & Hu & Ht & ->)|[Hnew ->]].
    + rewrite Hl in IH. rewrite fmap_app, fmap_cons in *.
      unfold progress_key at 2. simpl. unfold progress_key at 2 in IH.
      by rewrite Hu, Ht in IH.
    + rewrite fmap_app. apply list.NoDup_app. split_and!; [done| |].
      * intros k (p & -> & Hp)%list_elem_of_fmap
          [Heq|[]%elem_of_nil]%elem_of_cons.
        eapply Forall_forall in Hnew; [|by apply list_elem_of_In]. done.
      * apply NoDup_singleton.
  - intros now data db IH.
    destruct (update_progress_cases now data db)
      as (_ & _ & [(l1 & p & l2 & Hl & Hu & Ht & ->)|[Hnew ->]]).
    + rewrite Hl in IH. by rewrite fmap_app, fmap_cons in *.
    + rewrite fmap_app. apply list.NoDup_app. split_and!; [done| |].
      * intros k (p & -> & Hp)%list_elem_of_fmap
          [Heq|[]%elem_of_nil]%elem_of_cons.
        eapply Forall_forall in Hnew; [|by apply list_elem_of_In]. done.
      * apply NoDup_singleton.
Qed.

Lemma sum_Qc_bounds (scores : list Qc) :
  Forall unit_range scores →
  (0 ≤ sum_Qc scores)%Qc
  ∧ (sum_Qc scores ≤ Qc_of_Z (Z.of_nat (length scores)))%Qc.
Proof.
  induction 1 as [|q scores [Hq0 Hq1] _ [IH0 IH1]]; simpl.
  { by split. }
  split; [by apply Qcplus_nonneg_nonneg|].
  rewrite Nat2Z.inj_succ, <-Z.add_1_l, Z2Qc_inj_add, Z2Qc_inj_1.
  eapply Qcle_trans; [by apply Qcplus_le_mono_r|by apply Qcplus_le_mono_l].
Qed.

Lemma average_bounds (scores : list Qc) :
  Forall unit_range scores →
  scores ≠ [] →
  unit_range (sum_Qc scores / Qc_of_Z (Z.of_nat (length scores)))%Qc.
Proof.
  intros Hall Hne. destruct (sum_Qc_bounds scores Hall) as [H0 H1].
  assert (Hpos : (0 < Qc_of_Z (Z.of_nat (length scores)))%Qc).
  { apply Qc_of_nat_pos. destruct scores; [done|simpl; lia]. }
  pose proof (Qcinv_pos _ Hpos) as Hinv. unfold Qcdiv. split.
  - apply Qcmult_nonneg_nonneg; [done|by apply Qclt_le_weak].
  - rewrite <-(Qcmult_inv_r (Qc_of_Z (Z.of_nat (length scores)))).
    + apply Qcmult_le_mono_nonneg_r; [by apply Qclt_le_weak|done].
    + apply Qclt_not_eq in Hpos. congruence.
Qed.

(** X10: in every state the API can reach, every stored quiz score and
    every mastery score lies between 0 and 1, and so does the average score
    that [/analytics/user] reports for any user (0 for a user without
    results). *)
Theorem X10_scores_stay_in_range t vs :
  reachable (t, vs) →
  Forall (λ p, unit_range (server.mastery_score p)) (server.progress (core t))
  ∧ Forall (λ r, unit_range (server.result_score r))
      (server.quiz_results (core t))
  ∧ ∀ user, unit_range (average_score (get_user_analytics user t)).
Proof.
  intros Hreach.
  assert (Hinv :
    Forall (λ p, unit_range (server.mastery_score p)) (server.progress (core t))
    ∧ Forall (λ r, unit_range (server.result_score r))
        (server.quiz_results (core t))).
  { revert t vs Hreach.
    apply (core_invariant
             (λ db, Forall (λ p, unit_range (server.mastery_score p))
                      (server.progress db)
                    ∧ Forall (λ r, unit_range (server.result_score r))
                        (server.quiz_results db))); simpl.
    - by split.
    - done.
    - intros now sub db resp db' [IHp IHr]
        (i & quiz & _ & _ & _ & _ & Hs0 & Hs1 & _ & -> & ->)%submit_quiz_ok.
      split.
      + destruct (record_quiz_cases now (server.submit_user_id sub)
                    (server.quiz_topic quiz) (server.score resp) db)
          as [(l1 & p & l2 & Hl & Hu & Ht & ->)|[Hnew ->]].
        * rewrite Hl in IHp. apply Forall_app in IHp as [H1 H2].
          apply Forall_cons_1 in H2 as [Hp H2].
          apply Forall_app. split; [done|]. constructor; [|done].
          simpl. by apply unit_range_mean.
        * apply Forall_app. split; [done|]. by apply Forall_singleton.
      + apply Forall_app. split; [done|]. by apply Forall_singleton.
    - intros now data db [IHp IHr].
      destruct (update_progress_cases now data db)
        as (_ & -> & [(l1 & p & l2 & Hl & Hu & Ht & ->)|[Hnew ->]]).
      + split; [|done]. rewrite Hl in IHp.
        apply Forall_app in IHp as [H1 H2].
        apply Forall_cons_1 in H2 as [Hp H2].
        apply Forall_app. split; [done|]. by constructor.
      + split; [|done]. apply Forall_app. split; [done|].
        apply Forall_singleton. simpl. by split. }
  destruct Hinv as [Hp Hr]. split_and!; [done..|].
  intros user. unfold get_user_analytics. simpl.
  destruct (filter _ (server.quiz_results (core t))) as [|r rs] eqn:Hf.
  { by split. }
  rewrite <-Hf. clear r rs Hf.
  set (rs := filter _ _).
  destruct rs as [|r rs'] eqn:Hrs; [by split|]. rewrite <-Hrs.
  replace (length rs) with (length (server.result_score <$> rs))
    by apply length_fmap.
  apply average_bounds.
  - apply Forall_fmap. subst rs. apply Forall_forall.
    intros x [_ Hx]%list_elem_of_In%list_elem_of_filter.
    eapply Forall_forall in Hr; [exact Hr|by apply list_elem_of_In].
  - rewrite Hrs. done.
Qed.

(** A sum over the rows selected by a filter, around one row. *)
Lemma sum_filter_middle {A} (P : A → Prop) `{!∀ x, Decision (P x)}
    (f : A → Z) (before after : list A) (x : A) :
  sum_Z (f <$> filter P (before ++ x :: after))
  = sum_Z (f <$> filter P before)
    + (if decide (P x) then f x else 0)
    + sum_Z (f <$> filter P after).
Proof.
  rewrite list.filter_app, filter_cons, fmap_app, sum_Z_app.
  case_decide; [rewrite fmap_cons|]; unfold sum_Z; simpl; lia.
Qed.

Lemma sum_filter_snoc {A} (P : A → Prop) `{!∀ x, Decision (P x)}
    (f : A → Z) (rows : list A) (x : A) :
  sum_Z (f <$> filter P (rows ++ [x]))
  = sum_Z (f <$> filter P rows) + (if decide (P x) then f x else 0).
Proof. rewrite sum_filter_middle. unfold sum_Z. simpl. lia. Qed.

Lemma length_filter_snoc {A} (P : A → Prop) `{!∀ x, Decision (P x)}
    (rows : list A) (x : A) :
  length (filter P (rows ++ [x]))
  = (length (filter P rows) + (if decide (P x) then 1 else 0))%nat.
Proof.
  rewrite list.filter_app, length_app, filter_cons.
  case_decide; simpl; lia.
Qed.

(** X12: in every state the API can reach, the two quiz counts of
    [/analytics/user] agree: the [quizzes_taken] of the user's topics add
    up to [total_quizzes_taken], the number of the user's results. *)
Theorem X12_quiz_counts_agree t vs user :
  reachable (t, vs) →
  sum_Z (tm_quizzes_taken <$> topic_mastery (get_user_analytics user t))
  = Z.of_nat (total_quizzes_taken (get_user_analytics user t)).
Proof.
  intros Hreach. unfold get_user_analytics. simpl.
  rewrite <-list_fmap_compose.
  change (sum_Z (_ <$> _)) with (quizzes_in_progress user (core t)).
  revert t vs Hreach user.
  apply (core_invariant
           (λ db, ∀ user,
              quizzes_in_progress user db
              = Z.of_nat (length (filter (λ r, server.result_user_id r = user)
                                    (server.quiz_results db)))));
    unfold quizzes_in_progress; simpl.
  - done.
  - done.
  - intros now sub db resp db' IH
      (i & quiz & _ & _ & _ & _ & _ & _ & _ & -> & ->)%submit_quiz_ok user.
    rewrite length_filter_snoc. simpl.
    destruct (record_quiz_cases now (server.submit_user_id sub)
                (server.quiz_topic quiz) (server.score resp) db)
      as [(l1 & p & l2 & Hl & Hu & Ht & ->)|[Hnew ->]].
    + specialize (IH user). rewrite Hl, sum_filter_middle in IH.
      rewrite sum_filter_middle. simpl. rewrite Hu in IH.
      repeat case_decide; simpl in *; lia.
    + rewrite sum_filter_snoc, IH. simpl.
      repeat case_decide; simpl in *; lia.
  - intros now data db IH user.
    destruct (update_progress_cases now data db)
      as (_ & -> & [(l1 & p & l2 & Hl & Hu & Ht & ->)|[Hnew ->]]).
    + specialize (IH user). rewrite Hl, sum_filter_middle in IH.
      rewrite sum_filter_middle. simpl.
      repeat case_decide; simpl in *; lia.
    + rewrite sum_filter_snoc, IH. simpl. case_decide; lia.
Qed.

(** The bookkeeping of [update_progress] adds exactly the submitted
    minutes to the study time the analytics add up for that user, and
    leaves the total of every other user as it was. *)
Lemma update_progress_study_time now data t user :
  total_study_time_minutes
    (get_user_analytics user
       (with_core (server.update_progress now data (core t)).2 t))
  = total_study_time_minutes (get_user_analytics user t)
    + (if decide (server.update_user_id data = user)
       then server.update_minutes data else 0).
Proof.
  unfold get_user_analytics. simpl.
  destruct (update_progress_cases now data (core t))
    as (_ & _ & [(l1 & p & l2 & Hl & Hu & Ht & ->)|[Hnew ->]]).
  - rewrite Hl, !sum_filter_middle. simpl. rewrite Hu.
    case_decide; lia.
  - rewrite sum_filter_snoc. simpl. done.
Qed.

(** *** Users *)

(** In a table with unique keys, looking a row up by its key finds that
    row. *)
Lemma list_find_unique_key {A} (key : A → Z) (rows : list A) (x : A) :
  NoDup (key <$> rows) → x ∈ rows →
  ∃ i, list_find (λ y, key y = key x) rows = Some (i, x).
Proof.
  intros Hnd (i & Hi)%list_elem_of_lookup. exists i.
  apply list_find_Some. split_and!; [done..|].
  intros j y Hj Hlt Hkey.
  assert (i = j); [|lia].
  eapply NoDup_lookup; [exact Hnd| |].
  - by rewrite list_lookup_fmap, Hi.
  - rewrite list_lookup_fmap, Hj. simpl. by rewrite Hkey.
Qed.

Lemma create_user_member now name email t :
  (create_user now name email t).1 ∈ users (create_user now name email t).2.
Proof.
  unfold create_user.
  destruct (list_find _ (users t)) as [[i u]|] eqn:Hfind; simpl.
  - apply list_find_Some in Hfind as (Hi & _). by eapply list_elem_of_lookup_2.
  - apply elem_of_app. right. apply list_elem_of_here.
Qed.

(** X15: in every state the API can reach, user ids and e-mail addresses
    are unique, so [/users/{id}] returns exactly the stored account; in
    particular the account [/users] answers with is the one a later lookup
    by its id returns. *)
Theorem X15_users_unique t vs :
  reachable (t, vs) →
  NoDup (user_id <$> users t)
  ∧ NoDup (user_email <$> users t)
  ∧ (∀ u, u ∈ users t → get_user (user_id u) t = Ok u)
  ∧ ∀ now name email,
      get_user (user_id (create_user now name email t).1)
        (create_user now name email t).2
      = Ok (create_user now name email t).1.
Proof.
  intros Hreach.
  assert (Hinv : ∀ t vs, reachable (t, vs) →
            NoDup (user_id <$> users t) ∧ NoDup (user_email <$> users t)).
  { apply (reachable_invariant
             (λ t _, NoDup (user_id <$> users t)
                     ∧ NoDup (user_email <$> users t))).
    { split; constructor. }
    clear. intros t vs t' vs' _ [IHi IHe]
      [[-> _]|[[_ (u & -> & Hid & Hmail)]|[(row & -> & _)|[[_ (c & ->)]|
       [[_ (q & -> & _)]|[[_ (now & sub & resp & db' & Hs & ->)]|
       [[_ (now & data & ->)]|[_ (kg & ->)]]]]]]]]%step_cases; simpl;
      try done.
    rewrite !fmap_app. split; apply list.NoDup_app; (split_and!; [done| |]);
      try apply NoDup_singleton.
    - intros k Hk [->|[]%elem_of_nil]%elem_of_cons.
      rewrite Hid in Hk. by apply next_id_fresh in Hk.
    - intros k Hk [->|[]%elem_of_nil]%elem_of_cons. done. }
  assert (Hget : ∀ t vs, reachable (t, vs) →
            ∀ u, u ∈ users t → get_user (user_id u) t = Ok u).
  { intros t0 vs0 [Hids _]%Hinv u Hu. unfold get_user.
    by destruct (list_find_unique_key user_id (users t0) u Hids Hu) as [i ->]. }
  destruct (Hinv t vs Hreach) as [Hi He]. split_and!; [done..|eauto|].
  intros now name email.
  apply (Hget _ vs); [|apply create_user_member].
  eapply reachable_step; [exact Hreach|]. apply step_create_user.
Qed.

(** *** Conversation memory *)


(** *** Knowledge graphs *)

(** X20: [/knowledge-graph/document/{id}] returns the graph stored first
    for the document: generating a graph for a document that already has
    one leaves the answer of the lookup unchanged, and only for a document
    without a graph does the lookup return the new one. *)
Theorem X20_first_graph_wins env now user document content topic t id data t' :
  generate_knowledge_graph env now user document content topic t
  = (Ok (id, data), t') →
  (∀ old, get_knowledge_graph document t = Ok old →
          get_knowledge_graph document t' = Ok old)
  ∧ (∀ e, get_knowledge_graph document t = Raise e →
          get_knowledge_graph document t'
          = Ok (mkKnowledgeGraphRow id user document data now))
  ∧ ∀ other, other ≠ document →
             get_knowledge_graph other t' = get_knowledge_graph other t.
Proof.
  unfold generate_knowledge_graph.
  destruct (knowledge_graph.build_graph _ _ _) as [g|]; [|done].
  intros [= <- <- <-]. unfold get_knowledge_graph. simpl.
  set (kg := mkKnowledgeGraphRow _ user document g now).
  split_and!.
  - intros old Hold.
    destruct (list_find _ (knowledge_graphs t)) as [[i x]|] eqn:Hfind; [|done].
    injection Hold as ->.
    by rewrite (list_find_app_l _ _ [kg] _ _ Hfind).
  - intros e He.
    destruct (list_find _ (knowledge_graphs t)) as [[i x]|] eqn:Hfind; [done|].
    by rewrite (list_find_snoc _ _ kg Hfind eq_refl).
  - intros other Hne.
    destruct (list_find (λ x, graph_document_id x = other) (knowledge_graphs t))
      as [[i x]|] eqn:Hfind.
    + by rewrite (list_find_app_l _ _ [kg] _ _ Hfind).
    + rewrite list_find_app_r by done. simpl.
      by rewrite decide_False by (by intros ?; apply Hne).
Qed.

(** *** Documents and the vector store *)

(** The invariant that ties the vector store to the document table. *)
Lemma reachable_documents t vs :
  reachable (t, vs) →
  NoDup (document_id <$> documents t) ∧ chunks_registered t vs.
Proof.
  revert t vs.
  apply (reachable_invariant
           (λ t vs, NoDup (document_id <$> documents t)
                    ∧ chunks_registered t vs)).
  { split; [constructor|]. intros name e.
    unfold rag_system.collection. rewrite lookup_empty. simpl.
    by intros ?%elem_of_nil. }
  intros t vs t' vs' _ [IHn IHc]
    [[-> ->]|[[-> (u & -> & _)]|[(row & -> & Hid & Hvs)|[[-> (c & ->)]|
     [[-> (q & -> & _)]|[[-> (now & sub & resp & db' & Hs & ->)]|
     [[-> (now & data & ->)]|[-> (kg & ->)]]]]]]]]%step_cases; try done.
  simpl. split.
  { rewrite fmap_app. apply list.NoDup_app. split_and!; [done| |].
    - intros k Hk [->|[]%elem_of_nil]%elem_of_cons.
      rewrite Hid in Hk. by apply next_id_fresh in Hk.
    - apply NoDup_singleton. }
  assert (Hold : ∀ name e, e ∈ rag_system.collection vs name →
            ∃ r, r ∈ documents t ++ [row]
                 ∧ name = rag_system.collection_name (SInt (document_user_id r))
                 ∧ rag_system.metadata (rag_system.entry_doc e) !! "user_id"
                   = Some (SInt (document_user_id r))
                 ∧ rag_system.metadata (rag_system.entry_doc e) !! "doc_id"
                   = Some (SInt (document_id r))).
  { intros name e (r & Hr & Hrest)%IHc. exists r. split; [|done].
    apply elem_of_app. by left. }
  destruct Hvs as [->|(env & file_path & n & Hidx)]; [exact Hold|].
  apply index_document_ok in Hidx as (pages & vecs & _ & _ & Hlen & _ & ->).
  intros name e. unfold rag_system.collection at 1.
  destruct (decide (rag_system.collection_name (SInt (document_user_id row))
                    = name)) as [<-|Hne].
  - rewrite lookup_insert_eq. simpl.
    intros [Hin|Hnew]%elem_of_app; [by apply Hold|].
    exists row. split; [apply elem_of_app; right; apply list_elem_of_here|].
    split; [done|].
    assert (Hdoc : rag_system.entry_doc e ∈ rag_system.entry_doc <$>
              zip_with rag_system.mkEntry
                (rag_system.tag_chunk (document_user_id row) (document_id row)
                   <$> rag_system.split_documents env pages) vecs)
      by (by apply list_elem_of_fmap_2).
    rewrite entry_doc_zip in Hdoc by (by rewrite length_fmap).
    apply list_elem_of_fmap in Hdoc as (c & -> & _).
    apply tag_chunk_owner.
  - rewrite lookup_insert_ne by done. apply Hold.
Qed.

(** X17: in every state the API can reach, document ids are unique and
    every chunk of the vector store belongs to a row of [documents]: the
    chunk carries that row's id and owner and sits in the collection of
    that owner.  So what retrieval can return is always a piece of an
    upload the document table knows, including uploads whose request
    ended in an error after indexing. *)
Theorem X17_chunks_belong_to_documents t vs :
  reachable (t, vs) →
  NoDup (document_id <$> documents t) ∧ chunks_registered t vs.
Proof. apply reachable_documents. Qed.


(** *** Questions *)

(** Once the conversation memory is loaded, [query_rag] fails exactly
    when a stage of the pipeline raises and the direct model call of the
    fallback raises too; the failure is an HTTP 500 whose detail is the
    text of the second exception. *)
Lemma query_rag_raises env query user mode t vs e :
  query_rag env query user mode t vs = Raise e
  ↔ ∃ e1 e2,
      rag_props.stage_raises (rag env) vs
        (rag_system.initial_state query user (Some (previous_messages user t)))
        e1
      ∧ rag_system.llm_ainvoke (rag env) (mode +:+ ": " +:+ query) = Raise e2
      ∧ e = HTTPException 500 (exn_str env e2).
Proof.
  unfold query_rag, rag_system.query_documents, rag_system.fallback,
    internal_error.
  destruct (rag_system.run_pipeline _ _ _ _ _) as [a|e1] eqn:Hrun; simpl.
  - split; [done|]. intros (e1 & e2 & Hs%run_pipeline_raises & _).
    congruence.
  - apply run_pipeline_raises in Hrun.
    destruct (rag_system.llm_ainvoke _ _) as [a|e2]; simpl.
    + split; [done|]. by intros (? & ? & _ & ? & _).
    + split.
      * intros [= <-]. by exists e1, e2.
      * by intros (? & ? & _ & [= <-] & ->).
Qed.

(** *** The two generating routes *)

(** Over a store that accepts every statement, the two generating
    routes fail exactly when the model call itself fails, and then store
    nothing. *)
Lemma generation_raises env user topic content t :
  (∀ difficulty n e,
     (generate_quiz env user topic content difficulty n t).1 = Raise e
     ↔ ∃ cause,
         quiz_generator.llm_ainvoke (quiz env)
           (quiz_generator.prompt topic content difficulty n) = Raise cause
         ∧ e = HTTPException 500 (exn_str env cause))
  ∧ (∀ difficulty n e,
       (generate_quiz env user topic content difficulty n t).1 = Raise e →
       (generate_quiz env user topic content difficulty n t).2 = t)
  ∧ (∀ now document e,
       (generate_knowledge_graph env now user document content topic t).1
       = Raise e
       ↔ ∃ cause,
           knowledge_graph.llm_ainvoke (graph env)
             (knowledge_graph.prompt topic content) = Raise cause
           ∧ e = HTTPException 500 (exn_str env cause))
  ∧ ∀ now document e,
      (generate_knowledge_graph env now user document content topic t).1
      = Raise e →
      (generate_knowledge_graph env now user document content topic t).2 = t.
Proof.
  split_and!.
  - intros difficulty n e.
    unfold generate_quiz, quiz_generator.generate_quiz.
    destruct (quiz_generator.llm_ainvoke _ _) as [response|cause]; simpl.
    + destruct (quiz_generator.parse_questions _ _); simpl;
        (split; [done|by intros (? & ? & _)]).
    + unfold internal_error. split.
      * intros [= <-]. by exists cause.
      * by intros (? & [= <-] & ->).
  - intros difficulty n e.
    unfold generate_quiz.
    by destruct (quiz_generator.generate_quiz _ _ _ _ _).
  - intros now document e.
    unfold generate_knowledge_graph, knowledge_graph.build_graph.
    destruct (knowledge_graph.llm_ainvoke _ _) as [response|cause]; simpl.
    + destruct (knowledge_graph.build_graph_try _ _); simpl;
        (split; [done|by intros (? & ? & _)]).
    + unfold internal_error. split.
      * intros [= <-]. by exists cause.
      * by intros (? & [= <-] & ->).
  - intros now document e.
    unfold generate_knowledge_graph.
    by destruct (knowledge_graph.build_graph _ _ _).
Qed.

(** *** What an answer cites *)

(** X23: in every state the API can reach, an answer of [/query] cites at
    most five sources, and each of them is a chunk of an upload the
    document table knows: its metadata names the id and the owner of a
    row of [documents]. *)
Theorem X23_answers_cite_uploads env query user mode t vs ans :
  reachable (t, vs) →
  query_rag env query user mode t vs = Ok ans →
  (length (rag_system.sources ans) ≤ 5)%nat
  ∧ ∀ content md,
      (content, md) ∈ rag_system.sources ans →
      ∃ row, row ∈ documents t
             ∧ md !! "user_id" = Some (SInt (document_user_id row))
             ∧ md !! "doc_id" = Some (SInt (document_id row)).
Proof.
  intros [_ Hreg]%reachable_documents. unfold query_rag.
  destruct (rag_system.query_documents _ _ _ _ _ _) as [ans'|] eqn:Hq;
    simpl; [|done].
  intros [= ->].
  apply query_documents_sources in Hq
    as [->|(sq & docs & _ & Hr & ->)].
  { split; [simpl; lia|]. by intros ?? ?%elem_of_nil. }
  apply retrieve_ok in Hr as (uid & _ & Hlen & Hin).
  split; [by rewrite length_fmap|].
  intros content md (d & [= -> ->] & Hd)%list_elem_of_fmap.
  apply Hin, list_elem_of_fmap in Hd as (e & -> & He).
  destruct (Hreg _ _ He) as (row & Hrow & _ & Hu & Hdoc). eauto.
Qed.

End ApiFacts.

(** ** The routes over an engine that may refuse *)

Section EngineFacts.
Import database table_props.
Context (eng : Engine).

(** Read the engine's three verdicts off a route written as lookup,
    commit, refresh. *)
Ltac by_verdicts :=
  unfold settles;
  repeat match goal with
         | |- context [execute eng ?s] =>
             let He := fresh "He" in
             destruct (execute eng s) as [[]|?] eqn:He
         end;
  repeat split; intros; simplify_eq; done.

(** *** [/progress/update] *)

Lemma study_progress_spec now data db :
  (∀ i p,
     first_row (for_pair (server.update_user_id data) (server.update_topic data))
       (server.progress db) i p →
     let row := server.mkProgress (server.progress_id p) (server.user_id p)
                  (server.topic p) (server.mastery_score p)
                  (server.study_time_minutes p + server.update_minutes data)
                  (server.quizzes_taken p) now in
     api.study_progress now data db = (row, <[i := row]> (server.progress db)))
  ∧ (no_row (for_pair (server.update_user_id data) (server.update_topic data))
       (server.progress db) →
     let row := server.mkProgress
                  (server.next_id (server.progress_id <$> server.progress db))
                  (server.update_user_id data) (server.update_topic data)
                  0%Qc (server.update_minutes data) 0 now in
     api.study_progress now data db = (row, server.progress db ++ [row])).
Proof.
  unfold api.study_progress. split.
  - intros i p Hp%find_progress_first. by rewrite Hp.
  - intros Hnone%find_progress_none. by rewrite Hnone.
Qed.

Lemma update_progress_settles now data db :
  settles eng (api.update_progress eng now data db)
    (SelectProgress (server.update_user_id data) (server.update_topic data))
    [ProgressRow (api.study_progress now data db).1]
    (ProgressRow (api.study_progress now data db).1)
    (api.study_progress now data db).1 db
    (server.mkDB (server.quizzes db) (server.quiz_results db)
       (api.study_progress now data db).2).
Proof.
  unfold api.update_progress.
  destruct (api.study_progress now data db) as [row rows]. simpl.
  by_verdicts.
Qed.

(** The bookkeeping of [server.update_progress] is the one of the route
    taken statement by statement. *)
Lemma update_progress_study_progress now data db :
  server.update_progress now data db
  = ((api.study_progress now data db).1,
     server.mkDB (server.quizzes db) (server.quiz_results db)
       (api.study_progress now data db).2).
Proof.
  unfold server.update_progress, api.study_progress.
  by destruct (server.find_progress db _ _) as [[i p]|].
Qed.

(** C10 (as amended): what [/progress/update] comes to is settled by the
    engine's verdicts on its lookup, its commit and its refresh.  If the
    table has a row for the submitted (user, topic), the row written is
    the first such row with the submitted minutes added and [last_studied]
    set, its [mastery_score], [quizzes_taken] and key columns as they
    were, and it replaces that row, all others staying in place; if the
    table has no such row, the row written is a new one for this user and
    topic with the submitted minutes, [mastery_score] 0.0 and
    [quizzes_taken] 0, appended to the table.  A refused lookup or commit
    raises and leaves the tables as they were; the quiz tables are never
    touched. *)
Theorem C10_update_progress now progress_data db :
  let user_id := server.update_user_id progress_data in
  let topic := server.update_topic progress_data in
  let minutes := server.update_minutes progress_data in
  (∀ i p,
     first_row (for_pair user_id topic) (server.progress db) i p →
     let row := server.mkProgress (server.progress_id p) (server.user_id p)
                  (server.topic p) (server.mastery_score p)
                  (server.study_time_minutes p + minutes)
                  (server.quizzes_taken p) now in
     settles eng (api.update_progress eng now progress_data db)
       (SelectProgress user_id topic) [ProgressRow row] (ProgressRow row)
       row db
       (server.mkDB (server.quizzes db) (server.quiz_results db)
          (<[i := row]> (server.progress db))))
  ∧ (no_row (for_pair user_id topic) (server.progress db) →
     let row := server.mkProgress
                  (server.next_id (server.progress_id <$> server.progress db))
                  user_id topic 0%Qc minutes 0 now in
     settles eng (api.update_progress eng now progress_data db)
       (SelectProgress user_id topic) [ProgressRow row] (ProgressRow row)
       row db
       (server.mkDB (server.quizzes db) (server.quiz_results db)
          (server.progress db ++ [row]))).
Proof.
  intros user_id topic minutes.
  pose proof (update_progress_settles now progress_data db) as Hrun.
  destruct (study_progress_spec now progress_data db) as [Hsome Hnone].
  split.
  - intros i p Hp row. specialize (Hsome i p Hp). simpl in Hsome.
    by rewrite Hsome in Hrun.
  - intros Hno row. specialize (Hnone Hno). simpl in Hnone.
    by rewrite Hnone in Hrun.
Qed.

(** X13: [/progress/update] adds exactly the submitted minutes to the
    [total_study_time_minutes] that [/analytics/user] reports for that
    user, and leaves the total of every other user as it was, once the
    engine has accepted the lookup and the commit (so whenever the route
    returns); a request whose lookup or commit the engine refuses raises
    and leaves every total as it was. *)
Theorem X13_study_time_accumulates now data t user :
  let run := api.update_progress eng now data (routes.core t) in
  let lookup := SelectProgress (server.update_user_id data)
                  (server.update_topic data) in
  let row := ProgressRow (api.study_progress now data (routes.core t)).1 in
  let total t := routes.total_study_time_minutes
                   (routes.get_user_analytics user t) in
  let added := if decide (server.update_user_id data = user)
               then server.update_minutes data else 0 in
  (execute eng lookup = Ok () → execute eng (Commit [row]) = Ok () →
   total (routes.with_core run.2 t) = total t + added)
  ∧ (∀ p, run.1 = Ok p → total (routes.with_core run.2 t) = total t + added)
  ∧ ∀ e, execute eng lookup = Raise e
         ∨ (execute eng lookup = Ok () ∧ execute eng (Commit [row]) = Raise e) →
         run.1 = Raise e
         ∧ total (routes.with_core run.2 t) = total t.
Proof.
  intros run lookup row total added.
  pose proof (update_progress_study_time now data t user) as Hadd.
  rewrite update_progress_study_progress in Hadd. simpl in Hadd.
  destruct (update_progress_settles now data (routes.core t))
    as [Hlookup Haccepted].
  fold run in Hlookup, Haccepted.
  assert (Hcommitted : execute eng lookup = Ok () →
            execute eng (Commit [row]) = Ok () →
            total (routes.with_core run.2 t) = total t + added).
  { intros Hl Hc. destruct (Haccepted Hl) as [_ Hcommit].
    destruct (Hcommit Hc) as [Hrefused Hrefreshed].
    destruct (execute eng (Refresh row)) as [[]|e] eqn:Hr.
    - rewrite (Hrefreshed Hr). exact Hadd.
    - rewrite (Hrefused e Hr). exact Hadd. }
  split_and!; [exact Hcommitted| |].
  - intros p Hp.
    destruct (execute eng lookup) as [[]|e] eqn:Hl.
    2:{ rewrite (Hlookup e Hl) in Hp. done. }
    destruct (execute eng (Commit [row])) as [[]|e] eqn:Hc.
    2:{ destruct (Haccepted Hl) as [Hrefused _].
        rewrite (Hrefused e Hc) in Hp. done. }
    by apply Hcommitted.
  - intros e [Hl|[Hl Hc]].
    + by rewrite (Hlookup e Hl).
    + destruct (Haccepted Hl) as [Hrefused _]. by rewrite (Hrefused e Hc).
Qed.

(** *** [/quiz/submit] *)

Lemma grade_cases quiz ans :
  (¬ server_props.is_sized (server.questions quiz)
   ∧ api.grade quiz ans = Raise TypeError)
  ∨ (∃ items, py_iter (server.questions quiz) = Ok items
              ∧ ¬ Forall server_props.is_object items
              ∧ api.grade quiz ans = Raise AttributeError)
  ∨ (∃ items correct,
       py_iter (server.questions quiz) = Ok items
       ∧ Forall server_props.is_object items
       ∧ api.grade quiz ans = Ok (correct, length items)).
Proof.
  unfold api.grade.
  destruct (py_len_iter (server.questions quiz))
    as [(Hs & items & -> & Hi)|(Hs & -> & Hi)]; rewrite Hi; simpl;
    [|by left].
  right. destruct (Forall_is_object_dec items) as [Hobj|Hobj].
  - destruct (count_correct_ok ans items Hobj 0%nat 0%nat) as (c & Hc & _).
    right. exists items, c. by rewrite Hc.
  - left. exists items. by rewrite (count_correct_raise _ _ Hobj).
Qed.

Lemma submit_quiz_settles now submission db j quiz correct total :
  execute eng (SelectQuiz (server.submit_quiz_id submission)) = Ok () →
  server.find_quiz db (server.submit_quiz_id submission) = Some (j, quiz) →
  api.grade quiz (server.answers submission) = Ok (correct, total) →
  let score := server.score_of correct total in
  let result := api.quiz_result now submission quiz correct total in
  let progress := api.quiz_progress now (server.submit_user_id submission)
                    (server.quiz_topic quiz) score db in
  settles eng (api.submit_quiz eng now submission db)
    (SelectProgress (server.submit_user_id submission)
       (server.quiz_topic quiz))
    [QuizResultRow result; ProgressRow progress.1]
    (QuizResultRow result)
    (server.mkSubmitResponse score correct total (score * Qc_of_Z 100)%Qc)
    db
    (server.mkDB (server.quizzes db) (server.quiz_results db ++ [result])
       progress.2).
Proof.
  intros Hselect Hfind Hgrade score result progress.
  unfold api.submit_quiz. rewrite Hselect, Hfind, Hgrade.
  fold score result. subst progress.
  destruct (api.quiz_progress now _ _ score db) as [row rows]. simpl.
  by_verdicts.
Qed.

(** X8: [/quiz/submit] raises in exactly these situations: the engine
    refuses the quiz lookup; the quiz id is unknown (HTTP 404); the stored
    [questions] value is a number, a boolean or null ([TypeError]); one of
    its items is not an object ([AttributeError]); or, the answers being
    graded, the engine refuses the progress lookup, the commit of the
    result and progress rows, or the refresh of the result.  In every
    other case it returns. *)
Theorem X8_submit_quiz_errors now submission db e :
  (api.submit_quiz eng now submission db).1 = Raise e
  ↔ execute eng (SelectQuiz (server.submit_quiz_id submission)) = Raise e
    ∨ (execute eng (SelectQuiz (server.submit_quiz_id submission)) = Ok ()
       ∧ ((server.find_quiz db (server.submit_quiz_id submission) = None
           ∧ e = HTTPException 404 "Quiz not found")
          ∨ ∃ j quiz,
              server.find_quiz db (server.submit_quiz_id submission)
              = Some (j, quiz)
              ∧ ((¬ server_props.is_sized (server.questions quiz)
                  ∧ e = TypeError)
                 ∨ (∃ items, py_iter (server.questions quiz) = Ok items
                             ∧ ¬ Forall server_props.is_object items
                             ∧ e = AttributeError)
                 ∨ ∃ correct total,
                     api.grade quiz (server.answers submission)
                     = Ok (correct, total)
                     ∧ refuses eng e
                         (SelectProgress (server.submit_user_id submission)
                            (server.quiz_topic quiz))
                         [QuizResultRow
                            (api.quiz_result now submission quiz correct total);
                          ProgressRow
                            (api.quiz_progress now
                               (server.submit_user_id submission)
                               (server.quiz_topic quiz)
                               (server.score_of correct total) db).1]
                         (QuizResultRow
                            (api.quiz_result now submission quiz correct
                               total))))).
Proof.
  destruct (execute eng (SelectQuiz (server.submit_quiz_id submission)))
    as [[]|e0] eqn:Hselect.
  2:{ unfold api.submit_quiz. rewrite Hselect. simpl. split.
      - intros [= <-]. by left.
      - intros [[= <-]|[[=] _]]. done. }
  destruct (server.find_quiz db (server.submit_quiz_id submission))
    as [[j quiz]|] eqn:Hfind.
  2:{ unfold api.submit_quiz. rewrite Hselect, Hfind. simpl. split.
      - intros [= <-]. right. split; [done|]. by left.
      - intros [[=]|[_ [[_ ->]|(? & ? & [=] & _)]]]. done. }
  destruct (grade_cases quiz (server.answers submission))
    as [[Hsized Hgrade]|[(items & Hiter & Hobj & Hgrade)
                        |(items & correct & Hiter & Hobj & Hgrade)]].
  - unfold api.submit_quiz. rewrite Hselect, Hfind, Hgrade. simpl. split.
    + intros [= <-]. right. split; [done|]. right. exists j, quiz.
      split; [done|]. by left.
    + intros [[=]|[_ [[[=] _]|(? & ? & [= <- <-] & Hcase)]]].
      destruct Hcase as [[_ ->]|[(? & Hit & _)|(? & ? & Hg & _)]]; [done|..].
      * destruct (py_len_iter (server.questions quiz))
          as [(Hs & _)|(_ & _ & Hno)]; [done|]. by rewrite Hno in Hit.
      * by rewrite Hgrade in Hg.
  - unfold api.submit_quiz. rewrite Hselect, Hfind, Hgrade. simpl. split.
    + intros [= <-]. right. split; [done|]. right. exists j, quiz.
      split; [done|]. right; left. by exists items.
    + intros [[=]|[_ [[[=] _]|(? & ? & [= <- <-] & Hcase)]]].
      destruct Hcase as [[Hno _]|[(? & _ & _ & ->)|(? & ? & Hg & _)]];
        [|done|by rewrite Hgrade in Hg].
      destruct (py_len_iter (server.questions quiz))
        as [(Hs & _)|(_ & _ & Hraise)]; [done|].
      by rewrite Hraise in Hiter.
  - destruct (submit_quiz_settles now submission db j quiz correct
                (length items) Hselect Hfind Hgrade) as [Hlookup Haccepted].
    split.
    + intros Hrun. right. split; [done|]. right. exists j, quiz.
      split; [done|]. right; right. exists correct, (length items).
      split; [done|]. unfold refuses, refuses_write.
      destruct (execute eng (SelectProgress _ _)) as [[]|e1] eqn:Hl.
      2:{ rewrite (Hlookup e1 eq_refl) in Hrun. left. by injection Hrun as <-. }
      right. split; [done|]. destruct (Haccepted eq_refl) as [Hno Hyes].
      destruct (execute eng (Commit _)) as [[]|e2] eqn:Hc.
      2:{ rewrite (Hno e2 eq_refl) in Hrun. left. by injection Hrun as <-. }
      right. split; [done|]. destruct (Hyes eq_refl) as [Hrno Hryes].
      destruct (execute eng (Refresh _)) as [[]|e3] eqn:Hr.
      * by rewrite (Hryes eq_refl) in Hrun.
      * rewrite (Hrno e3 eq_refl) in Hrun. by injection Hrun as <-.
    + intros [[=]|[_ [[[=] _]|(? & ? & [= <- <-] & Hcase)]]].
      destruct Hcase as [[Hno _]|[(its & Hit & Hnobj & _)|(c & n & Hg & Href)]].
      * destruct (py_len_iter (server.questions quiz))
          as [(Hs & _)|(_ & _ & Hraise)]; [done|].
        by rewrite Hraise in Hiter.
      * rewrite Hiter in Hit. by injection Hit as <-.
      * rewrite Hgrade in Hg. injection Hg as <- <-.
        destruct Href as [Hl|[Hl [Hc|[Hc Hr]]]].
        -- by rewrite (Hlookup e Hl).
        -- destruct (Haccepted Hl) as [Hno _]. by rewrite (Hno e Hc).
        -- destruct (Haccepted Hl) as [_ Hyes].
           destruct (Hyes Hc) as [Hrno _]. by rewrite (Hrno e Hr).
Qed.

(** *** [/query] *)

Lemma first_conversation user (t : routes.Tables) i c :
  first_row (λ c, routes.conversation_user_id c = user)
    (routes.conversations t) i c
  ↔ list_find (λ c, routes.conversation_user_id c = user)
      (routes.conversations t) = Some (i, c).
Proof. unfold first_row. by rewrite list_find_Some. Qed.

(** The conversation memory is loaded unless the engine refuses one of
    the two lookups, the second of which is made only for a user with a
    conversation; what is loaded is the memory of [routes]. *)
Lemma load_previous_messages_cases user t :
  (∃ cause,
     api.load_previous_messages eng user t = Raise cause
     ∧ (execute eng (SelectConversation user) = Raise cause
        ∨ (execute eng (SelectConversation user) = Ok ()
           ∧ ∃ i c,
               first_row (λ c, routes.conversation_user_id c = user)
                 (routes.conversations t) i c
               ∧ execute eng (SelectMessages (routes.conversation_id c))
                 = Raise cause)))
  ∨ (api.load_previous_messages eng user t
     = Ok (routes.previous_messages user t)
     ∧ execute eng (SelectConversation user) = Ok ()
     ∧ ∀ i c,
         first_row (λ c, routes.conversation_user_id c = user)
           (routes.conversations t) i c →
         execute eng (SelectMessages (routes.conversation_id c)) = Ok ()).
Proof.
  unfold api.load_previous_messages, routes.previous_messages.
  destruct (execute eng (SelectConversation user)) as [[]|e] eqn:Hc; simpl.
  2:{ left. exists e. split; [done|]. by left. }
  destruct (list_find _ (routes.conversations t)) as [[i c]|] eqn:Hfind.
  - pose proof Hfind as Hfirst. apply first_conversation in Hfirst.
    destruct (execute eng (SelectMessages (routes.conversation_id c)))
      as [[]|e] eqn:Hm; simpl.
    + right. split_and!; [done..|].
      intros i' c' Hfirst'. apply first_conversation in Hfirst'.
      rewrite Hfind in Hfirst'. by injection Hfirst' as <- <-.
    + left. exists e. split; [done|]. right. split; [done|]. by exists i, c.
  - right. split_and!; [done..|].
    intros i c Hfirst. apply first_conversation in Hfirst.
    by rewrite Hfind in Hfirst.
Qed.

(** X19: [/query] fails in exactly two situations, each time with an HTTP
    500 that carries the text of the exception: the engine refuses the
    conversation lookup or, for a user with a conversation, the message
    lookup; or both lookups are accepted, a stage of the pipeline raises
    and the direct model call of the fallback raises too, the detail then
    being the text of the fallback's exception (the pipeline's own
    exception never reaches the client). *)
Theorem X19_query_rag_errors env query user mode t vs e :
  api.query_rag eng env query user mode t vs = Raise e
  ↔ (∃ cause,
       e = HTTPException 500 (routes.exn_str env cause)
       ∧ (execute eng (SelectConversation user) = Raise cause
          ∨ (execute eng (SelectConversation user) = Ok ()
             ∧ ∃ i c,
                 first_row (λ c, routes.conversation_user_id c = user)
                   (routes.conversations t) i c
                 ∧ execute eng (SelectMessages (routes.conversation_id c))
                   = Raise cause)))
    ∨ (api.load_previous_messages eng user t
       = Ok (routes.previous_messages user t)
       ∧ ∃ e1 e2,
           rag_props.stage_raises (routes.rag env) vs
             (rag_system.initial_state query user
                (Some (routes.previous_messages user t))) e1
           ∧ rag_system.llm_ainvoke (routes.rag env) (mode +:+ ": " +:+ query)
             = Raise e2
           ∧ e = HTTPException 500 (routes.exn_str env e2)).
Proof.
  unfold api.query_rag.
  destruct (load_previous_messages_cases user t)
    as [(cause & Hload & Hwhy)|(Hload & Hconv & Hmsgs)]; rewrite Hload; simpl.
  - unfold routes.internal_error. split.
    + intros [= <-]. left. by exists cause.
    + intros [(cause' & -> & Hwhy')|[[=] _]]. do 2 f_equal.
      destruct Hwhy as [Hc|(Hc & i & c & Hfirst & Hm)];
        destruct Hwhy' as [Hc'|(Hc' & i' & c' & Hfirst' & Hm')];
        try congruence.
      apply first_conversation in Hfirst, Hfirst'.
      rewrite Hfirst in Hfirst'. injection Hfirst' as <- <-. congruence.
  - pose proof (query_rag_raises env query user mode t vs e) as Hraises.
    unfold routes.query_rag in Hraises. rewrite Hraises. split.
    + intros Hstage. right. done.
    + intros [(cause & _ & [Hc|(_ & i & c & Hfirst & Hm)])|[_ Hstage]];
        [congruence| |done].
      rewrite (Hmsgs i c Hfirst) in Hm. done.
Qed.

(** *** The two generating routes *)

(** X22: [/quiz/generate] and [/knowledge-graph/generate] fail in exactly
    these situations, each time with an HTTP 500 that carries the text of
    the exception: the model call itself raises, the engine refuses the
    commit of the new row, or it refuses the refresh after the commit.
    Nothing is stored unless the commit was accepted; a model answer that
    cannot be parsed never makes them fail. *)
Theorem X22_generation_errors env user topic content t :
  (∀ difficulty n,
     let run := api.generate_quiz eng env user topic content difficulty n t in
     let quiz questions :=
       QuizRow (server.mkQuiz
                  (server.next_id
                     (server.quiz_id <$> server.quizzes (routes.core t)))
                  user topic questions difficulty) in
     (∀ e,
        run.1 = Raise e
        ↔ ∃ cause,
            e = HTTPException 500 (routes.exn_str env cause)
            ∧ (quiz_generator.llm_ainvoke (routes.quiz env)
                 (quiz_generator.prompt topic content difficulty n)
               = Raise cause
               ∨ ∃ questions,
                   quiz_generator.generate_quiz (routes.quiz env) topic
                     content difficulty n = Ok questions
                   ∧ refuses_write eng cause [quiz questions]
                       (quiz questions)))
     ∧ (run.2 = t
        ∨ ∃ questions,
            quiz_generator.generate_quiz (routes.quiz env) topic content
              difficulty n = Ok questions
            ∧ execute eng (Commit [quiz questions]) = Ok ()))
  ∧ ∀ now document,
      let run := api.generate_knowledge_graph eng env now user document
                   content topic t in
      let graph graph_data :=
        KnowledgeGraphRow
          (routes.mkKnowledgeGraphRow
             (server.next_id (routes.graph_id <$> routes.knowledge_graphs t))
             user document graph_data now) in
      (∀ e,
         run.1 = Raise e
         ↔ ∃ cause,
             e = HTTPException 500 (routes.exn_str env cause)
             ∧ (knowledge_graph.llm_ainvoke (routes.graph env)
                  (knowledge_graph.prompt topic content) = Raise cause
                ∨ ∃ graph_data,
                    knowledge_graph.build_graph (routes.graph env) content
                      topic = Ok graph_data
                    ∧ refuses_write eng cause [graph graph_data]
                        (graph graph_data)))
      ∧ (run.2 = t
         ∨ ∃ graph_data,
             knowledge_graph.build_graph (routes.graph env) content topic
             = Ok graph_data
             ∧ execute eng (Commit [graph graph_data]) = Ok ()).
Proof.
  split.
  - intros difficulty n run quiz. subst run. unfold api.generate_quiz.
    assert (Hmodel : ∀ cause,
              quiz_generator.generate_quiz (routes.quiz env) topic content
                difficulty n = Raise cause
              ↔ quiz_generator.llm_ainvoke (routes.quiz env)
                  (quiz_generator.prompt topic content difficulty n)
                = Raise cause).
    { intros cause. unfold quiz_generator.generate_quiz.
      destruct (quiz_generator.llm_ainvoke _ _); simpl;
        [|split; intros [= <-]; done].
      destruct (quiz_generator.parse_questions _ _); simpl;
        split; intros [=]. }
    destruct (quiz_generator.generate_quiz _ _ _ _ _) as [questions|e0]
      eqn:Hgen; simpl.
    2:{ split; [|by left]. intros e. unfold routes.internal_error. split.
        - intros [= <-]. exists e0. split; [done|]. left. by apply Hmodel.
        - intros (cause & -> & [Hcause%Hmodel|(? & [=] & _)]). congruence. }
    fold (quiz questions). unfold refuses_write.
    destruct (execute eng (Commit [quiz questions])) as [[]|e1] eqn:Hc; simpl.
    2:{ split; [|by left]. intros e. unfold routes.internal_error. split.
        - intros [= <-]. exists e1. split; [done|]. right.
          exists questions. split; [done|]. by left.
        - intros (cause & -> & [Hcause%Hmodel|(qs & [= <-] & Href)]);
            [done|].
          destruct Href as [Hc'|[Hc' _]]; congruence. }
    destruct (execute eng (Refresh (quiz questions))) as [[]|e2] eqn:Hr; simpl.
    + split; [|right; by exists questions]. intros e. split; [done|].
      intros (cause & -> & [Hcause%Hmodel|(qs & [= <-] & Href)]); [done|].
      destruct Href as [Hc'|[_ Hr']]; congruence.
    + split; [|right; by exists questions]. intros e.
      unfold routes.internal_error. split.
      * intros [= <-]. exists e2. split; [done|]. right.
        exists questions. split; [done|]. by right.
      * intros (cause & -> & [Hcause%Hmodel|(qs & [= <-] & Href)]); [done|].
        destruct Href as [Hc'|[_ Hr']]; congruence.
  - intros now document run graph. subst run.
    unfold api.generate_knowledge_graph.
    assert (Hmodel : ∀ cause,
              knowledge_graph.build_graph (routes.graph env) content topic
              = Raise cause
              ↔ knowledge_graph.llm_ainvoke (routes.graph env)
                  (knowledge_graph.prompt topic content) = Raise cause).
    { intros cause. unfold knowledge_graph.build_graph.
      destruct (knowledge_graph.llm_ainvoke _ _); simpl;
        [|split; intros [= <-]; done].
      destruct (knowledge_graph.build_graph_try _ _); simpl;
        split; intros [=]. }
    destruct (knowledge_graph.build_graph _ _ _) as [graph_data|e0]
      eqn:Hgen; simpl.
    2:{ split; [|by left]. intros e. unfold routes.internal_error. split.
        - intros [= <-]. exists e0. split; [done|]. left. by apply Hmodel.
        - intros (cause & -> & [Hcause%Hmodel|(? & [=] & _)]). congruence. }
    fold (graph graph_data). unfold refuses_write.
    destruct (execute eng (Commit [graph graph_data])) as [[]|e1] eqn:Hc;
      simpl.
    2:{ split; [|by left]. intros e. unfold routes.internal_error. split.
        - intros [= <-]. exists e1. split; [done|]. right.
          exists graph_data. split; [done|]. by left.
        - intros (cause & -> & [Hcause%Hmodel|(g & [= <-] & Href)]);
            [done|].
          destruct Href as [Hc'|[Hc' _]]; congruence. }
    destruct (execute eng (Refresh (graph graph_data))) as [[]|e2] eqn:Hr;
      simpl.
    + split; [|right; by exists graph_data]. intros e. split; [done|].
      intros (cause & -> & [Hcause%Hmodel|(g & [= <-] & Href)]); [done|].
      destruct Href as [Hc'|[_ Hr']]; congruence.
    + split; [|right; by exists graph_data]. intros e.
      unfold routes.internal_error. split.
      * intros [= <-]. exists e2. split; [done|]. right.
        exists graph_data. split; [done|]. by right.
      * intros (cause & -> & [Hcause%Hmodel|(g & [= <-] & Href)]); [done|].
        destruct Href as [Hc'|[_ Hr']]; congruence.
Qed.

End EngineFacts.

(** ** The accepting engine *)

(** Over an engine that accepts every statement the routes taken
    statement by statement are the routes of [server] and [routes]. *)
Section AcceptingFacts.
Import database.

Lemma update_progress_accepting now data db :
  api.update_progress accepting now data db
  = (Ok (server.update_progress now data db).1,
     (server.update_progress now data db).2).
Proof.
  unfold api.update_progress, api.study_progress, server.update_progress.
  simpl. by destruct (server.find_progress db _ _) as [[i p]|].
Qed.

Lemma submit_quiz_accepting now submission db :
  api.submit_quiz accepting now submission db
  = match server.submit_quiz now submission db with
    | Ok (resp, db') => (Ok resp, db')
    | Raise e => (Raise e, db)
    end.
Proof.
  unfold api.submit_quiz, api.grade, server.submit_quiz. simpl.
  destruct (server.find_quiz db _) as [[j quiz]|]; [|done].
  destruct (py_len (server.questions quiz)) as [total|]; simpl; [|done].
  destruct (py_iter (server.questions quiz)) as [items|]; simpl; [|done].
  destruct (server.count_correct _ _ _ _) as [correct|]; simpl; [|done].
  unfold api.quiz_progress, server.record_quiz.
  by destruct (server.find_progress db _ _) as [[i p]|].
Qed.

Lemma generate_quiz_accepting env user topic content difficulty n t :
  api.generate_quiz accepting env user topic content difficulty n t
  = routes.generate_quiz env user topic content difficulty n t.
Proof.
  unfold api.generate_quiz, routes.generate_quiz.
  by destruct (quiz_generator.generate_quiz _ _ _ _ _).
Qed.

Lemma generate_knowledge_graph_accepting env now user document content topic t :
  api.generate_knowledge_graph accepting env now user document content topic t
  = routes.generate_knowledge_graph env now user document content topic t.
Proof.
  unfold api.generate_knowledge_graph, routes.generate_knowledge_graph.
  by destruct (knowledge_graph.build_graph _ _ _).
Qed.

Lemma query_rag_accepting env query user mode t vs :
  api.query_rag accepting env query user mode t vs
  = routes.query_rag env query user mode t vs.
Proof.
  unfold api.query_rag, api.load_previous_messages, routes.query_rag,
    routes.previous_messages. simpl.
  by destruct (list_find _ (routes.conversations t)) as [[i c]|].
Qed.
End AcceptingFacts.

(** ** The graph [build_graph] returns *)

Section GraphShapeFacts.
Import knowledge_graph graph_props.
Context (env : Env).

Lemma dict_get_set_eq key v d : dict_get key (dict_set key v d) = Some v.
Proof.
  induction d as [|[k w] d IH]; simpl.
  - by rewrite decide_True.
  - case_decide as Hk; simpl.
    + by rewrite decide_True.
    + by rewrite decide_False.
Qed.

Lemma dict_get_set_ne key key' v d :
  key' ≠ key → dict_get key' (dict_set key v d) = dict_get key' d.
Proof.
  intros Hne. induction d as [|[k w] d IH]; simpl.
  - by rewrite decide_False.
  - case_decide as Hk; simpl.
    + subst k. by rewrite !decide_False by congruence.
    + by rewrite IH.
Qed.

Lemma place_node_positioned pos node node' :
  place_node pos node = Ok node' → positioned node node'.
Proof.
  unfold place_node, positioned.
  destruct (py_getitem node "id") as [id|]; simpl; [|done].
  destruct (hashable id); [|done].
  destruct (pos_get id pos) as [[x y]|]; [|intros [= <-]; by left].
  destruct node as [| | | | | |d]; try done.
  intros [= <-]. right. by eexists _, _, _.
Qed.

Lemma mapM_Forall2 {A B} (f : A → result B) (l : list A) (l' : list B) :
  mapM f l = Ok l' → Forall2 (λ x y, f x = Ok y) l l'.
Proof.
  revert l'. induction l as [|x l IH]; intros l'; simpl.
  - intros [= <-]. constructor.
  - destruct (f x) as [y|] eqn:Hy; simpl; [|done].
    destruct (mapM f l) as [ys|]; simpl; [|done].
    intros [= <-]. constructor; [done|]. by apply IH.
Qed.

(** What the [try] block returns is the parsed object with at most its
    node list replaced by the positioned nodes. *)
Lemma build_graph_try_shape content g :
  build_graph_try env content = Ok g →
  ∃ d d' ns ns',
    extract_json env content = Ok (JDict d)
    ∧ g = JDict d'
    ∧ (∀ key, key ≠ "nodes" → dict_get key d' = dict_get key d)
    ∧ is_Some (dict_get "edges" d)
    ∧ dict_get "nodes" d = Some ns
    ∧ dict_get "nodes" d' = Some ns'
    ∧ (ns' = ns
       ∨ ∃ l l', ns = JList l ∧ ns' = JList l' ∧ Forall2 positioned l l').
Proof.
  intros Hrun.
  destruct (build_graph_try_ok env _ _ Hrun) as (d & Hd & [ns Hns] & Hedges).
  revert Hrun. unfold build_graph_try. rewrite Hd. simpl. rewrite Hns.
  rewrite bool_decide_eq_true_2 by eauto. simpl.
  rewrite bool_decide_eq_true_2 by done. simpl.
  destruct (py_iter ns) as [node_list|] eqn:Hiter; simpl; [|done].
  destruct (foldM _ _ node_list) as [G|]; simpl; [|done].
  destruct Hedges as [es Hes]. rewrite Hes. simpl.
  destruct (py_iter es) as [edge_list|]; simpl; [|done].
  destruct (foldM _ G edge_list) as [G'|]; simpl; [|done].
  destruct (spring_layout env _ _) as [pos|]; simpl; [|done].
  destruct (mapM (place_node pos) node_list) as [placed|] eqn:Hplaced;
    simpl; [|done].
  intros [= <-].
  assert (Hed : is_Some (dict_get "edges" d)) by (by eexists).
  destruct ns as [| | | |s|l|dn]; simpl in Hiter; try done;
    [exists d, d, (JStr s), (JStr s); split_and!; auto
    |
    |exists d, d, (JDict dn), (JDict dn); split_and!; auto].
  injection Hiter as <-.
  exists d, (dict_set "nodes" (JList placed) d), (JList l), (JList placed).
  split_and!; eauto.
  - intros key Hkey. by apply dict_get_set_ne.
  - apply dict_get_set_eq.
  - right. exists l, placed. split_and!; [done..|].
    apply mapM_Forall2 in Hplaced.
    clear Hns. induction Hplaced; constructor;
      eauto using place_node_positioned.
Qed.

(** X21: whenever [build_graph] returns, it returns an object that has
    both [nodes] and [edges]: either the single-node fallback for the
    topic, or the object parsed from the model's answer, in which nothing
    but the node list differs from what was parsed; the node list, when it
    differs, has the same nodes in the same order, each one as parsed or
    with its [x] and [y] set. *)
Theorem X21_build_graph_result content topic g :
  build_graph env content topic = Ok g →
  (∃ d, g = JDict d
        ∧ is_Some (dict_get "nodes" d) ∧ is_Some (dict_get "edges" d))
  ∧ (g = fallback_graph topic
     ∨ ∃ response d d' ns ns',
         llm_ainvoke env (prompt topic content) = Ok response
         ∧ extract_json env response = Ok (JDict d)
         ∧ g = JDict d'
         ∧ (∀ key, key ≠ "nodes" → dict_get key d' = dict_get key d)
         ∧ dict_get "nodes" d = Some ns
         ∧ dict_get "nodes" d' = Some ns'
         ∧ (ns' = ns
            ∨ ∃ l l', ns = JList l ∧ ns' = JList l'
                      ∧ Forall2 positioned l l')).
Proof.
  unfold build_graph.
  destruct (llm_ainvoke env _) as [response|] eqn:Hr; simpl; [|done].
  destruct (build_graph_try env response) as [g'|] eqn:Htry; simpl.
  - intros [= <-].
    apply build_graph_try_shape in Htry
      as (d & d' & ns & ns' & Hd & -> & Hkeys & Hedges & Hns & Hns' & Hlist).
    split.
    + exists d'. split_and!; [done|by eexists|].
      by rewrite Hkeys.
    + right. by exists response, d, d', ns, ns'.
  - intros [= <-]. split; [|by left].
    eexists. split_and!; [reflexivity|by eexists..].
Qed.
End GraphShapeFacts.

(** ** The sample session *)

Lemma run_reachable requests :
  routes.reachable ((api_samples.run requests).1, (api_samples.run requests).2).
Proof.
  rewrite <-surjective_pairing. unfold api_samples.run.
  assert (H : routes.reachable (routes.empty_tables, ∅)) by constructor.
  revert H. generalize (routes.empty_tables, (∅ : rag_system.Store)).
  induction requests as [|r requests IH]; intros [t vs] Hs; simpl; [done|].
  apply IH.
  destruct r as [now name email|env file_path filename saved user now
                |uuid now user mode|env user topic content difficulty n
                |now submission|now data|env now user document content topic].
  - eapply routes.reachable_step; [exact Hs|apply routes.step_create_user].
  - eapply routes.reachable_step; [exact Hs|apply routes.step_upload_document].
  - destruct (routes.create_conversation uuid now user mode t)
      as [[c t']|] eqn:Hc; [|exact Hs].
    eapply routes.reachable_step; [exact Hs|].
    eapply routes.step_create_conversation. exact Hc.
  - eapply routes.reachable_step; [exact Hs|apply routes.step_generate_quiz].
  - destruct (server.submit_quiz now submission (routes.core t))
      as [[resp db']|] eqn:Hsub; [|exact Hs].
    eapply routes.reachable_step; [exact Hs|].
    eapply routes.step_submit_quiz. exact Hsub.
  - eapply routes.reachable_step; [exact Hs|apply routes.step_update_progress].
  - eapply routes.reachable_step; [exact Hs|].
    apply routes.step_generate_knowledge_graph.
Qed.


Lemma X7_generated_quiz_is_found_witness :
  ∃ resp t',
    routes.generate_quiz api_samples.api 1 "biology"
      "The cell is the unit of life." "medium" 1 routes.empty_tables
    = (Ok resp, t')
    ∧ server.find_quiz (routes.core t') (routes.response_id resp)
      = Some (0%nat,
              server.mkQuiz (routes.response_id resp) 1 "biology"
                (routes.response_questions resp) "medium").
Proof.
  destruct (routes.generate_quiz api_samples.api 1 "biology"
              "The cell is the unit of life." "medium" 1 routes.empty_tables)
    as [[resp|] t'] eqn:Hrun; [|vm_compute in Hrun; discriminate Hrun].
  exists resp, t'. split; [reflexivity|].
  apply (X7_generated_quiz_is_found api_samples.api 1 "biology"
           "The cell is the unit of life." "medium" 1 routes.empty_tables
           resp t' Hrun).
Defined.

Lemma X9_score_bounds_witness :
  ∃ resp db',
    server.submit_quiz 100 (server.mkQuizSubmit 1 5 {["0" := JStr "A"]})
      samples.quiz_db
    = Ok (resp, db')
    ∧ (server.correct resp ≤ server.total resp)%nat
    ∧ (0 ≤ server.score resp)%Qc ∧ (server.score resp ≤ 1)%Qc.
Proof.
  destruct (server.submit_quiz 100
              (server.mkQuizSubmit 1 5 {["0" := JStr "A"]}) samples.quiz_db)
    as [[resp db']|] eqn:Hrun; [|vm_compute in Hrun; discriminate Hrun].
  destruct (X9_score_bounds 100 (server.mkQuizSubmit 1 5 {["0" := JStr "A"]})
              samples.quiz_db resp db' Hrun) as (Hc & Hlo & Hhi & _).
  exists resp, db'. split_and!; [reflexivity|exact Hc|exact Hlo|exact Hhi].
Defined.

Lemma X10_scores_stay_in_range_witness :
  length (server.quiz_results (routes.core (api_samples.run api_samples.session).1))
  = 2%nat
  ∧ Forall (λ r, routes_props.unit_range (server.result_score r))
      (server.quiz_results (routes.core (api_samples.run api_samples.session).1))
  ∧ routes_props.unit_range
      (routes.average_score
         (routes.get_user_analytics 1 (api_samples.run api_samples.session).1)).
Proof.
  destruct (X10_scores_stay_in_range _ _ (run_reachable api_samples.session))
    as (_ & Hresults & Havg).
  split_and!; [reflexivity|exact Hresults|exact (Havg 1)].
Defined.

Lemma X11_progress_keys_unique_witness :
  routes_props.progress_key
    <$> server.progress (routes.core (api_samples.run api_samples.session).1)
  = [(1, "biology")]
  ∧ NoDup (routes_props.progress_key
             <$> server.progress
                   (routes.core (api_samples.run api_samples.session).1)).
Proof.
  split; [reflexivity|].
  exact (X11_progress_keys_unique _ _ (run_reachable api_samples.session)).
Defined.

Lemma X12_quiz_counts_agree_witness :
  routes.total_quizzes_taken
    (routes.get_user_analytics 1 (api_samples.run api_samples.session).1)
  = 2%nat
  ∧ routes.sum_Z
      (routes.tm_quizzes_taken
         <$> routes.topic_mastery
               (routes.get_user_analytics 1
                  (api_samples.run api_samples.session).1))
    = 2.
Proof.
  split; [reflexivity|].
  rewrite (X12_quiz_counts_agree _ _ 1 (run_reachable api_samples.session)).
  reflexivity.
Defined.

Lemma X15_users_unique_witness :
  NoDup (routes.user_id <$> routes.users (api_samples.run api_samples.session).1)
  ∧ routes.get_user 1 (api_samples.run api_samples.session).1
    = Ok (routes.mkUser 1 "Ada" "ada@example.org" 100).
Proof.
  destruct (X15_users_unique _ _ (run_reachable api_samples.session))
    as (Hids & _ & Hget & _).
  split; [exact Hids|].
  apply (Hget (routes.mkUser 1 "Ada" "ada@example.org" 100)).
  vm_compute. apply list_elem_of_here.
Defined.

Lemma X17_chunks_belong_to_documents_witness :
  length (rag_system.collection (api_samples.run api_samples.session).2
            "user_1_docs") = 1%nat
  ∧ routes_props.chunks_registered (api_samples.run api_samples.session).1
      (api_samples.run api_samples.session).2.
Proof.
  split; [vm_compute; reflexivity|].
  exact (proj2 (X17_chunks_belong_to_documents _ _
                  (run_reachable api_samples.session))).
Defined.


Lemma X20_first_graph_wins_witness :
  ∃ old id data t',
    routes.get_knowledge_graph 1 (api_samples.run api_samples.session).1 = Ok old
    ∧ routes.generate_knowledge_graph
        (routes.mkEnv samples.env_up api_samples.quiz_plain samples.kg_prose
           (λ _, "internal error"))
        107 1 1 "Plants make sugar from light." "plants"
        (api_samples.run api_samples.session).1
      = (Ok (id, data), t')
    ∧ data = knowledge_graph.fallback_graph "plants"
    ∧ routes.graph_data old ≠ data
    ∧ routes.get_knowledge_graph 1 t' = Ok old.
Proof.
  destruct (routes.get_knowledge_graph 1 (api_samples.run api_samples.session).1)
    as [old|] eqn:Hold; [|vm_compute in Hold; discriminate Hold].
  destruct (routes.generate_knowledge_graph
              (routes.mkEnv samples.env_up api_samples.quiz_plain
                 samples.kg_prose (λ _, "internal error"))
              107 1 1 "Plants make sugar from light." "plants"
              (api_samples.run api_samples.session).1)
    as [[[id data]|] t'] eqn:Hrun; [|vm_compute in Hrun; discriminate Hrun].
  exists old, id, data, t'.
  split_and!; [reflexivity|reflexivity| | |].
  - vm_compute in Hrun. by injection Hrun as _ <- _.
  - vm_compute in Hold, Hrun. injection Hold as <-. injection Hrun as _ <- _.
    discriminate.
  - exact (proj1 (X20_first_graph_wins _ 107 1 1 _ _ _ id data t' Hrun)
             old Hold).
Defined.

Lemma X21_build_graph_result_witness :
  ∃ g d,
    knowledge_graph.build_graph samples.kg_graph
      "The cell is the unit of life." "cells" = Ok g
    ∧ g = JDict d
    ∧ is_Some (dict_get "nodes" d) ∧ is_Some (dict_get "edges" d)
    ∧ g ≠ knowledge_graph.fallback_graph "cells".
Proof.
  destruct (knowledge_graph.build_graph samples.kg_graph
              "The cell is the unit of life." "cells")
    as [g|] eqn:Hrun; [|vm_compute in Hrun; discriminate Hrun].
  destruct (X21_build_graph_result samples.kg_graph
              "The cell is the unit of life." "cells" g Hrun)
    as [(d & Hg & Hnodes & Hedges) _].
  exists g, d. split_and!; [reflexivity|exact Hg|exact Hnodes|exact Hedges|].
  vm_compute in Hrun. injection Hrun as <-. discriminate.
Defined.

Lemma X23_answers_cite_uploads_witness :
  ∃ ans,
    routes.query_rag api_samples.api_naming "What is osmosis?" 1
      "Quick Learner" (api_samples.run api_samples.one_upload).1
      (api_samples.run api_samples.one_upload).2
    = Ok ans
    ∧ length (rag_system.sources ans) = 1%nat
    ∧ ∀ content md,
        (content, md) ∈ rag_system.sources ans →
        ∃ row,
          row ∈ routes.documents (api_samples.run api_samples.one_upload).1
          ∧ md !! "user_id" = Some (SInt (routes.document_user_id row))
          ∧ md !! "doc_id" = Some (SInt (routes.document_id row)).
Proof.
  destruct (routes.query_rag api_samples.api_naming "What is osmosis?" 1
              "Quick Learner" (api_samples.run api_samples.one_upload).1
              (api_samples.run api_samples.one_upload).2)
    as [ans|] eqn:Hrun; [|vm_compute in Hrun; discriminate Hrun].
  exists ans. split_and!; [reflexivity| |].
  - vm_compute in Hrun. by injection Hrun as <-.
  - exact (proj2 (X23_answers_cite_uploads api_samples.api_naming
                    "What is osmosis?" 1 "Quick Learner" _ _ ans
                    (run_reachable api_samples.one_upload) Hrun)).
Defined.

(** ** The engine on the sample table *)

(** C10, as stated, fails: the pair (5, biology) has a progress row, the
    request submits 2^63 minutes, SQLite refuses to bind the new total at
    the commit, and the route raises with the row as it was: the minutes
    were not added. *)
Lemma C10_refused_commit_counterexample :
  table_props.first_row (table_props.for_pair 5 "biology")
    (server.progress db_samples.shared_db) 2 db_samples.biology_row
  ∧ api.update_progress database.sqlite 200
      (server.mkProgressUpdate 5 "biology" (2 ^ 63)) db_samples.shared_db
    = (Raise database.overflow, db_samples.shared_db)
  ∧ server.progress db_samples.shared_db !! 2%nat
    = Some db_samples.biology_row
  ∧ server.study_time_minutes db_samples.biology_row
    ≠ server.study_time_minutes db_samples.biology_row + 2 ^ 63.
Proof.
  split_and!.
  - first_row_here.
  - by vm_compute.
  - reflexivity.
  - by vm_compute.
Qed.

Lemma C10_update_progress_witness :
  api.update_progress database.sqlite 200
    (server.mkProgressUpdate 5 "biology" 45) db_samples.shared_db
  = (Ok (server.mkProgress 3 5 "biology" (Qc_of_Z 1) 75 2 200),
     server.mkDB [db_samples.biology_quiz] []
       [db_samples.other_user_row; db_samples.other_topic_row;
        server.mkProgress 3 5 "biology" (Qc_of_Z 1) 75 2 200])
  ∧ api.update_progress database.sqlite 200
      (server.mkProgressUpdate 7 "biology" 45) db_samples.shared_db
    = (Ok (server.mkProgress 4 7 "biology" 0%Qc 45 0 200),
       server.mkDB [db_samples.biology_quiz] []
         [db_samples.other_user_row; db_samples.other_topic_row;
          db_samples.biology_row;
          server.mkProgress 4 7 "biology" 0%Qc 45 0 200]).
Proof.
  assert (Hrow : table_props.first_row (table_props.for_pair 5 "biology")
                   (server.progress db_samples.shared_db) 2
                   db_samples.biology_row) by first_row_here.
  assert (Hnone : table_props.no_row (table_props.for_pair 7 "biology")
                    (server.progress db_samples.shared_db)) by no_row_here.
  split.
  - destruct (proj1 (C10_update_progress database.sqlite 200
                       (server.mkProgressUpdate 5 "biology" 45)
                       db_samples.shared_db) 2%nat db_samples.biology_row Hrow)
      as [_ Hlookup].
    destruct (Hlookup eq_refl) as [_ Hcommit].
    destruct (Hcommit eq_refl) as [_ Hrefresh].
    exact (Hrefresh eq_refl).
  - destruct (proj2 (C10_update_progress database.sqlite 200
                       (server.mkProgressUpdate 7 "biology" 45)
                       db_samples.shared_db) Hnone)
      as [_ Hlookup].
    destruct (Hlookup eq_refl) as [_ Hcommit].
    destruct (Hcommit eq_refl) as [_ Hrefresh].
    exact (Hrefresh eq_refl).
Defined.

(** A user id that does not fit a 64-bit integer: SQLite refuses the
    first statement that binds it. *)
Lemma X8_submit_quiz_errors_witness :
  (api.submit_quiz database.sqlite 100
     (server.mkQuizSubmit 1 (2 ^ 63) {["0" := JStr "A"]})
     db_samples.shared_db).1
  = Raise database.overflow
  ∧ (api.submit_quiz database.sqlite 100
       (server.mkQuizSubmit 1 5 {["0" := JStr "A"]})
       db_samples.shared_db).1
    ≠ Raise database.overflow.
Proof.
  split.
  - apply (X8_submit_quiz_errors database.sqlite 100
             (server.mkQuizSubmit 1 (2 ^ 63) {["0" := JStr "A"]})
             db_samples.shared_db database.overflow).
    right. split; [reflexivity|]. right.
    exists 0%nat, db_samples.biology_quiz. split; [reflexivity|].
    right; right. exists 1%nat, 2%nat. split; [reflexivity|].
    left. reflexivity.
  - by vm_compute.
Defined.

Lemma X13_study_time_accumulates_witness :
  routes.total_study_time_minutes
    (routes.get_user_analytics 5
       (routes.with_core db_samples.shared_db routes.empty_tables)) = 50
  ∧ routes.total_study_time_minutes
      (routes.get_user_analytics 5
         (routes.with_core
            (api.update_progress database.sqlite 200
               (server.mkProgressUpdate 5 "biology" 45)
               db_samples.shared_db).2 routes.empty_tables)) = 50 + 45
  ∧ routes.total_study_time_minutes
      (routes.get_user_analytics 5
         (routes.with_core
            (api.update_progress database.sqlite 200
               (server.mkProgressUpdate 5 "biology" (2 ^ 63))
               db_samples.shared_db).2 routes.empty_tables)) = 50.
Proof.
  split_and!; [reflexivity| |].
  - destruct (X13_study_time_accumulates database.sqlite 200
                (server.mkProgressUpdate 5 "biology" 45)
                (routes.with_core db_samples.shared_db routes.empty_tables) 5)
      as [Hcommitted _].
    exact (Hcommitted eq_refl eq_refl).
  - destruct (X13_study_time_accumulates database.sqlite 200
                (server.mkProgressUpdate 5 "biology" (2 ^ 63))
                (routes.with_core db_samples.shared_db routes.empty_tables) 5)
      as (_ & _ & Hrefused).
    refine (proj2 (Hrefused database.overflow _)).
    right. split; [reflexivity|by vm_compute].
Defined.

Lemma X19_query_rag_errors_witness :
  rag_system.query_documents samples.env_up ∅ "What is osmosis?" (2 ^ 63)
    "Quick Learner" (Some [])
  = Ok (rag_system.mkAnswer
          "direct answer to Quick Learner: What is osmosis?" [])
  ∧ api.query_rag database.sqlite api_samples.api "What is osmosis?" (2 ^ 63)
      "Quick Learner" routes.empty_tables ∅
    = Raise (HTTPException 500 "internal error").
Proof.
  split; [reflexivity|].
  apply (X19_query_rag_errors database.sqlite api_samples.api
           "What is osmosis?" (2 ^ 63) "Quick Learner" routes.empty_tables ∅).
  left. exists database.overflow. split; [reflexivity|]. left. reflexivity.
Defined.

Lemma X22_generation_errors_witness :
  quiz_generator.generate_quiz api_samples.quiz_plain "biology"
    "The cell is the unit of life." "medium" 1
  = Ok quiz_generator.placeholder
  ∧ (api.generate_quiz database.sqlite api_samples.api (2 ^ 63) "biology"
       "The cell is the unit of life." "medium" 1 routes.empty_tables).1
    = Raise (HTTPException 500 "internal error")
  ∧ (api.generate_quiz database.sqlite api_samples.api (2 ^ 63) "biology"
       "The cell is the unit of life." "medium" 1 routes.empty_tables).2
    = routes.empty_tables.
Proof.
  split_and!; [reflexivity| |reflexivity].
  apply (proj1 (X22_generation_errors database.sqlite api_samples.api
                  (2 ^ 63) "biology" "The cell is the unit of life."
                  routes.empty_tables) "medium" 1).
  exists database.overflow. split; [reflexivity|]. right.
  exists quiz_generator.placeholder. split; [reflexivity|].
  left. reflexivity.
Defined.
